(** * dispatchbot: the notification queue, the status translator and the
      dispatch tick, embedded from the TypeScript sources

    - [NotifyQueue] follows [src/queues/notifyQueue.ts];
    - [RideEvents]  follows [src/events/rideEvents.ts];
    - [DispatchBot] follows [src/index.ts].

    Conventions of the embedding.
    - A [Date] is its millisecond time stamp, a [Z]; every [new Date()] and
      [Date.now()] of one operation reads the argument [now].
    - The MongoDB collection [notificationQueue] is the list of its documents
      in natural (insertion) order.  The field [id] is an ordinary field (the
      collection is keyed by [_id]), so nothing in the store makes it unique.
    - [updateOne], [updateMany], [find], [sort], [limit] and the [$group]
      stage are modelled with the semantics of the driver: [updateOne]
      touches the first matching document, [modifiedCount] counts the
      documents that really changed, [limit 0] means no limit.  Each of
      them is one step on the store: MongoDB applies an update of a single
      document atomically.
    - Every queue method wraps its body in [try/catch]; the [catch] branch
      only runs when the database call itself rejects, which the embedding
      does not model (the store is always available).
    - The documents carry the five statuses and four priorities of
      [interface NotificationItem]; the methods of the queue write no
      others. *)

From stdpp Require Import gmap strings list pretty.
From Stdlib Require Import ZArith Sorting.Sorted.

Local Open Scope Z_scope.

(** ** A small state monad: operations that read and write one store *)

Module StateM.

Definition M (S A : Type) : Type := S -> A * S.

Definition ret {S A} (a : A) : M S A := fun s => (a, s).

Definition bind {S A B} (m : M S A) (k : A -> M S B) : M S B :=
  fun s => let (a, s') := m s in k a s'.

(** [for (const x of xs) { await body(x) }] *)
Fixpoint for_each {S A} (body : A -> M S unit) (xs : list A) : M S unit :=
  match xs with
  | [] => ret tt
  | x :: xs' => bind (body x) (fun _ => for_each body xs')
  end.

Definition exec {S A} (m : M S A) (s : S) : S := snd (m s).
Definition eval {S A} (m : M S A) (s : S) : A := fst (m s).

End StateM.

Notation "'do' x <- c1 ; c2" := (StateM.bind c1 (fun x => c2))
  (at level 10, x name, c1 at level 100, c2 at level 200).
Notation "'do_' c1 ; c2" := (StateM.bind c1 (fun _ => c2))
  (at level 10, c1 at level 100, c2 at level 200).

(** ** src/queues/notifyQueue.ts *)

Module NotifyQueue.

(** [type: 'sms' | 'email' | 'push'] *)
Inductive NotificationType := sms | email | push.

(** [priority: 'low' | 'medium' | 'high' | 'urgent'] *)
Inductive Priority := low | medium | high | urgent.

(** [status: 'pending' | 'processing' | 'sent' | 'failed' | 'cancelled'] *)
Inductive Status := pending | processing | sent | failed | cancelled.

(** The strings that are stored in the documents. *)
Definition priority_string (p : Priority) : string :=
  match p with
  | low => "low" | medium => "medium" | high => "high" | urgent => "urgent"
  end.

Definition status_string (s : Status) : string :=
  match s with
  | pending => "pending" | processing => "processing" | sent => "sent"
  | failed => "failed" | cancelled => "cancelled"
  end.

(** [scheduledTime?: Date].  A document either has no such field, or holds a
    date, or holds [null]: the driver stores an explicit [undefined] of a
    [$set] as [null]. *)
Inductive ScheduledTime := absent | null | at_time (t : Z).

(** One entry of [metadata.errors], pushed by [markNotificationFailed]. *)
Record ErrorEntry := {
  err_timestamp : Z;
  err_error : string;
  err_retryCount : nat
}.

(** [metadata: Record<string, any>]: the keys the queue reads or writes, and
    the remaining ones as an opaque association list. *)
Record Metadata := {
  rideRequestUuid : option string;
  notificationType : option string;
  errors : list ErrorEntry;
  extra : list (string * string)
}.

Record NotificationItem := {
  id : string;
  type : NotificationType;
  recipient : string;
  message : string;
  priority : Priority;
  scheduledTime : ScheduledTime;
  retryCount : nat;
  maxRetries : nat;
  status : Status;
  metadata : Metadata;
  createdAt : Z;
  updatedAt : Z
}.

Record QueueConfig := {
  maxConcurrent : nat;
  retryDelays : list Z;
  cfg_maxRetries : nat;
  batchSize : nat;
  processInterval : Z
}.

(** The defaults of the constructor. *)
Definition defaultConfig : QueueConfig := {|
  maxConcurrent := 5;
  retryDelays := [1000; 5000; 15000; 60000];
  cfg_maxRetries := 3;
  batchSize := 10;
  processInterval := 1000
|}.

#[export] Instance NotificationType_eq_dec : EqDecision NotificationType.
Proof. solve_decision. Defined.
#[export] Instance Priority_eq_dec : EqDecision Priority.
Proof. solve_decision. Defined.
#[export] Instance Status_eq_dec : EqDecision Status.
Proof. solve_decision. Defined.
#[export] Instance ScheduledTime_eq_dec : EqDecision ScheduledTime.
Proof. solve_decision. Defined.
#[export] Instance ErrorEntry_eq_dec : EqDecision ErrorEntry.
Proof. solve_decision. Defined.
#[export] Instance Metadata_eq_dec : EqDecision Metadata.
Proof. solve_decision. Defined.
#[export] Instance NotificationItem_eq_dec : EqDecision NotificationItem.
Proof. solve_decision. Defined.

(** *** The collection and the driver's operations on it *)

Abbreviation Collection := (list NotificationItem).

Record UpdateResult := { matchedCount : nat; modifiedCount : nat }.

(** Does applying [update] to [d] change the document? *)
Definition changes (update : NotificationItem -> NotificationItem)
    (d : NotificationItem) : nat :=
  if bool_decide (update d = d) then 0%nat else 1%nat.

(** [collection.findOne(filter)] *)
Definition findOne (filter : NotificationItem -> bool) (c : Collection)
    : option NotificationItem :=
  List.find filter c.

(** [collection.updateOne(filter, update)]: the first match only. *)
Fixpoint updateOne (filter : NotificationItem -> bool)
    (update : NotificationItem -> NotificationItem) (c : Collection)
    : UpdateResult * Collection :=
  match c with
  | [] => ({| matchedCount := 0; modifiedCount := 0 |}, [])
  | d :: c' =>
      if filter d
      then ({| matchedCount := 1; modifiedCount := changes update d |},
            update d :: c')
      else let (r, c'') := updateOne filter update c' in (r, d :: c'')
  end.

(** [collection.updateMany(filter, update)]: every match. *)
Fixpoint updateMany (filter : NotificationItem -> bool)
    (update : NotificationItem -> NotificationItem) (c : Collection)
    : UpdateResult * Collection :=
  match c with
  | [] => ({| matchedCount := 0; modifiedCount := 0 |}, [])
  | d :: c' =>
      let (r, c'') := updateMany filter update c' in
      if filter d
      then ({| matchedCount := S (matchedCount r);
               modifiedCount := (changes update d + modifiedCount r)%nat |},
            update d :: c'')
      else (r, d :: c'')
  end.

(** [collection.find(filter)] *)
Definition find (filter : NotificationItem -> bool) (c : Collection)
    : list NotificationItem :=
  List.filter filter c.

(** [cursor.sort(spec)] as a stable insertion sort: [cmp a b = Lt] when [a]
    has to come before [b], and documents that compare equal keep their
    natural order. *)
Fixpoint insert_by (cmp : NotificationItem -> NotificationItem -> comparison)
    (x : NotificationItem) (l : list NotificationItem) : list NotificationItem :=
  match l with
  | [] => [x]
  | y :: l' =>
      match cmp x y with
      | Gt => y :: insert_by cmp x l'
      | _ => x :: y :: l'
      end
  end.

Definition sort_by (cmp : NotificationItem -> NotificationItem -> comparison)
    (l : list NotificationItem) : list NotificationItem :=
  foldr (fun x acc => insert_by cmp x acc) [] l.

(** [cursor.limit(n)]; [limit(0)] is no limit. *)
Definition limit (n : nat) (l : list NotificationItem) : list NotificationItem :=
  match n with
  | O => l
  | _ => take n l
  end.

(** The sort specification [{ priority: -1, createdAt: 1 }]: the field
    [priority] holds a string, so [-1] is the descending order of strings;
    ties are broken by [createdAt] ascending. *)
Definition priority_createdAt_cmp (a b : NotificationItem) : comparison :=
  match String.compare (priority_string (priority b)) (priority_string (priority a)) with
  | Eq => Z.compare (createdAt a) (createdAt b)
  | c => c
  end.

(** *** The methods of [NotificationQueue] *)

Definition Q (A : Type) : Type := StateM.M Collection A.

(** The argument of [addNotification]:
    [Omit<NotificationItem, 'id' | 'retryCount' | 'status' | 'createdAt' | 'updatedAt'>]. *)
Record NotificationInput := {
  in_type : NotificationType;
  in_recipient : string;
  in_message : string;
  in_priority : Priority;
  in_scheduledTime : ScheduledTime;
  in_maxRetries : nat;
  in_metadata : Metadata
}.

(** [addNotification]; [newId] is the value of [generateNotificationId()].
    The call also starts the background loop when it is idle; one turn of
    that loop is [processing_turn] below. *)
Definition addNotification (now : Z) (newId : string)
    (notification : NotificationInput) : Q string :=
  fun c =>
    let newNotification := {|
      id := newId;
      type := in_type notification;
      recipient := in_recipient notification;
      message := in_message notification;
      priority := in_priority notification;
      scheduledTime := in_scheduledTime notification;
      retryCount := 0;
      maxRetries := in_maxRetries notification;
      status := pending;
      metadata := in_metadata notification;
      createdAt := now;
      updatedAt := now
    |} in
    (id newNotification, c ++ [newNotification]).

(** [addSMSNotification] *)
Definition addSMSNotification (cfg : QueueConfig) (now : Z) (newId : string)
    (phoneNumber msg : string) (prio : Priority) (meta : Metadata) : Q string :=
  addNotification now newId {|
    in_type := sms;
    in_recipient := phoneNumber;
    in_message := msg;
    in_priority := prio;
    in_scheduledTime := absent;
    in_maxRetries := cfg_maxRetries cfg;
    in_metadata := meta
  |}.

(** [addRideUpdateNotification] *)
Definition addRideUpdateNotification (cfg : QueueConfig) (now : Z) (newId : string)
    (serviceUserUuid rideUuid msg : string) (prio : Priority) : Q string :=
  addNotification now newId {|
    in_type := sms;
    in_recipient := serviceUserUuid;
    in_message := msg;
    in_priority := prio;
    in_scheduledTime := absent;
    in_maxRetries := cfg_maxRetries cfg;
    in_metadata := {| rideRequestUuid := Some rideUuid;
                      notificationType := Some "rideUpdate";
                      errors := []; extra := [] |}
  |}.

(** The two filters of the queries below. *)
Definition has_id (i : string) (d : NotificationItem) : bool :=
  bool_decide (id d = i).

Definition has_status (s : Status) (d : NotificationItem) : bool :=
  bool_decide (status d = s).

(** [$or: [{ scheduledTime: { $exists: false } }, { scheduledTime: { $lte: now } }]] *)
Definition due (now : Z) (d : NotificationItem) : bool :=
  match scheduledTime d with
  | absent => true
  | null => false
  | at_time t => t <=? now
  end.

(** [$set: { status: s, updatedAt: new Date() }] *)
Definition set_status (s : Status) (now : Z) (d : NotificationItem)
    : NotificationItem := {|
  id := id d;
  type := type d;
  recipient := recipient d;
  message := message d;
  priority := priority d;
  scheduledTime := scheduledTime d;
  retryCount := retryCount d;
  maxRetries := maxRetries d;
  status := s;
  metadata := metadata d;
  createdAt := createdAt d;
  updatedAt := now
|}.

(** [getPendingNotifications(limit)] *)
Definition getPendingNotifications (lim : nat) (now : Z) (c : Collection)
    : list NotificationItem :=
  limit lim
    (sort_by priority_createdAt_cmp
       (find (fun d => has_status pending d && due now d) c)).

(** [getProcessingNotifications(limit)] *)
Definition getProcessingNotifications (lim : nat) (c : Collection)
    : list NotificationItem :=
  limit lim (sort_by priority_createdAt_cmp (find (has_status processing) c)).

(** [markNotificationProcessing(id)]: one conditional update. *)
Definition markNotificationProcessing (now : Z) (i : string) : Q bool :=
  fun c =>
    let (result, c') :=
      updateOne (fun d => has_id i d && has_status pending d)
                (set_status processing now) c in
    (bool_decide (0 < modifiedCount result)%nat, c').

(** [markNotificationSent(id)]: the filter is [{ id }] alone. *)
Definition markNotificationSent (now : Z) (i : string) : Q bool :=
  fun c =>
    let (result, c') := updateOne (has_id i) (set_status sent now) c in
    (bool_decide (0 < modifiedCount result)%nat, c').

(** [this.config.retryDelays[n] || 60000] *)
Definition retryDelay_at (cfg : QueueConfig) (n : nat) : Z :=
  match retryDelays cfg !! n with
  | Some delay => if delay =? 0 then 60000 else delay
  | None => 60000
  end.

(** The update document of [markNotificationFailed]: [$set] of [status],
    [retryCount], [scheduledTime], [updatedAt] and [$push] onto
    [metadata.errors]. *)
Definition failed_update (newStatus : Status) (newRetryCount : nat)
    (newScheduledTime : ScheduledTime) (now : Z) (error : string)
    (d : NotificationItem) : NotificationItem := {|
  id := id d;
  type := type d;
  recipient := recipient d;
  message := message d;
  priority := priority d;
  scheduledTime := newScheduledTime;
  retryCount := newRetryCount;
  maxRetries := maxRetries d;
  status := newStatus;
  metadata := {|
    rideRequestUuid := rideRequestUuid (metadata d);
    notificationType := notificationType (metadata d);
    errors := errors (metadata d) ++
              [{| err_timestamp := now; err_error := error;
                  err_retryCount := newRetryCount |}];
    extra := extra (metadata d)
  |};
  createdAt := createdAt d;
  updatedAt := now
|}.

(** [markNotificationFailed(id, error)] *)
Definition markNotificationFailed (cfg : QueueConfig) (now : Z) (i : string)
    (error : string) : Q bool :=
  fun c =>
    match findOne (has_id i) c with
    | None => (false, c)
    | Some notification =>
        let shouldRetry :=
          bool_decide (retryCount notification < cfg_maxRetries cfg)%nat in
        let newStatus := if shouldRetry then pending else failed in
        let retryDelay :=
          if shouldRetry then retryDelay_at cfg (retryCount notification) else 0 in
        let newScheduledTime :=
          if shouldRetry then at_time (now + retryDelay) else null in
        let (result, c') :=
          updateOne (has_id i)
            (failed_update newStatus (retryCount notification + 1)
               newScheduledTime now error) c in
        (bool_decide (0 < modifiedCount result)%nat, c')
    end.

(** [cancelNotification(id)]: the filter is [{ id }] alone. *)
Definition cancelNotification (now : Z) (i : string) : Q bool :=
  fun c =>
    let (result, c') := updateOne (has_id i) (set_status cancelled now) c in
    (bool_decide (0 < modifiedCount result)%nat, c').

(** The filter of [cancelRideNotifications]:
    [{ 'metadata.rideRequestUuid': uuid, status: { $in: ['pending', 'processing'] } }] *)
Definition ride_open (rideUuid : string) (d : NotificationItem) : bool :=
  bool_decide (rideRequestUuid (metadata d) = Some rideUuid)
  && (has_status pending d || has_status processing d).

(** [cancelRideNotifications(rideRequestUuid)] *)
Definition cancelRideNotifications (now : Z) (rideUuid : string) : Q nat :=
  fun c =>
    let (result, c') :=
      updateMany (ride_open rideUuid) (set_status cancelled now) c in
    (modifiedCount result, c').

(** The number of documents of [c] that carry status [s]. *)
Definition count_status (s : Status) (c : Collection) : nat :=
  length (find (has_status s) c).

(** The pipeline [[{ $group: { _id: '$status', count: { $sum: 1 } } }]]: one
    result for each status value that occurs, with its number of documents. *)
Definition group_by_status (c : Collection) : list (Status * nat) :=
  (fun s => (s, count_status s c)) <$> remove_dups (status <$> c).

(** The object literal [stats] of [getQueueStats]. *)
Definition initial_stats : gmap string nat :=
  <["pending" := 0%nat]> (<["processing" := 0%nat]> (<["sent" := 0%nat]>
    (<["failed" := 0%nat]> (<["total" := 0%nat]> ∅)))).

(** The body of [results.forEach]:
    [stats[result._id] = result.count; stats.total += result.count]. *)
Definition add_result (stats : gmap string nat) (result : Status * nat)
    : gmap string nat :=
  let stats1 := <[status_string (fst result) := snd result]> stats in
  <["total" := (default 0%nat (stats1 !! "total") + snd result)%nat]> stats1.

(** [getQueueStats()]: the object that is returned, as a map from its keys. *)
Definition getQueueStats (c : Collection) : gmap string nat :=
  foldl add_result initial_stats (group_by_status c).

(** [processNotification(notification)]: claim the item; the sending itself
    is left to the sender. *)
Definition processNotification (now : Z) (notification : NotificationItem)
    : Q unit :=
  do _ <- markNotificationProcessing now (id notification);
  StateM.ret tt.

(** One turn of the [while] loop of [startProcessing], entered with the
    counter [processingCount].  [processNotification] is not awaited: each
    call increments the counter at once and issues its update, and gives the
    counter back only after its own awaits, so one turn starts the calls for
    the first [maxConcurrent - processingCount] notifications of the batch.
    (The counter is a [Z]: a call whose claim fails decrements it twice.) *)
Definition processing_turn (cfg : QueueConfig) (now : Z) (processingCount : Z)
    : Q unit :=
  fun c =>
    if bool_decide (processingCount < Z.of_nat (maxConcurrent cfg))
    then
      let notifications := getPendingNotifications (batchSize cfg) now c in
      StateM.for_each (processNotification now)
        (take (Z.to_nat (Z.of_nat (maxConcurrent cfg) - processingCount))
              notifications) c
    else (tt, c).

(** The edges of the status graph in the words of the specification (not
    taken from the code, which has no such table):
    pending -> processing, processing -> sent, processing -> failed,
    failed -> pending, pending | processing -> cancelled. *)
Inductive spec_edge : Status -> Status -> Prop :=
  | edge_claim : spec_edge pending processing
  | edge_sent : spec_edge processing sent
  | edge_failed : spec_edge processing failed
  | edge_retry : spec_edge failed pending
  | edge_cancel_pending : spec_edge pending cancelled
  | edge_cancel_processing : spec_edge processing cancelled.

(** A document keeps its status or moves along an edge. *)
Definition follows_edges (d d' : NotificationItem) : Prop :=
  status d' = status d \/ spec_edge (status d) (status d').

(** The place of each priority in the order the sort really uses, the
    descending order of the stored strings:
    ["urgent" > "medium" > "low" > "high"]. *)
Definition stored_rank (p : Priority) : nat :=
  match p with
  | urgent => 0 | medium => 1 | low => 2 | high => 3
  end.

(** [a] may stand before [b] in a listing sorted by
    [{ priority: -1, createdAt: 1 }]. *)
Definition precedes (a b : NotificationItem) : Prop :=
  (stored_rank (priority a) < stored_rank (priority b))%nat
  \/ (priority a = priority b /\ createdAt a <= createdAt b).

End NotifyQueue.

(** ** src/events/rideEvents.ts *)

Module RideEvents.

Inductive RideEventType :=
  | REQUEST_CREATED | REQUEST_CONFIRMED | REQUEST_CANCELED
  | DRIVER_ASSIGNED | VEHICLE_ASSIGNED
  | RIDE_STARTED | RIDE_INTERRUPTED
  | RIDER_PICKED_UP | RIDER_NOT_PICKED_UP
  | RIDER_DROPPED_OFF | RIDER_NOT_DROPPED_OFF
  | ROUNDTRIP_RETURNING | ROUNDTRIP_RETURN_INTERRUPTED
  | ROUNDTRIP_COMPLETE | ROUNDTRIP_COMPLETION_INTERRUPTED
  | RIDE_COMPLETE | RIDE_INCOMPLETE
  | EMERGENCY_ALERT.

#[export] Instance RideEventType_eq_dec : EqDecision RideEventType.
Proof. solve_decision. Defined.

(** A [number] that comes out of [parseInt]. *)
Inductive JsNumber := NaN | Num (n : Z).

(** [interface RideEvent] *)
Record RideEvent := {
  id : string;
  rideRequestUuid : Z;
  serviceUserUuid : string;
  driverUuid : option JsNumber;
  vehicleUuid : option JsNumber;
  eventType : RideEventType;
  timestamp : Z;
  metadata : list (string * string);
  createdAt : Z
}.

(** The fields of [interface RideRequest] that the translator reads. *)
Record RideRequest := {
  uuid : Z;
  rr_serviceUserUuid : string;
  assignedDriverUuid : option Z;
  assignedVehicleUuid : option Z
}.

(** [parseInt(x?.toString() || '')] for an optional integer field. *)
Definition parseInt_of (x : option Z) : JsNumber :=
  match x with
  | Some n => Num n
  | None => NaN
  end.

Section Manager.

(** What the registered handlers act on (the notification queue, the
    preferences, ...). *)
Context {W : Type}.

(** A handler changes the world and either returns or throws. *)
Record Outcome := { after : W; threw : bool }.

Definition Handler : Type := RideEvent -> W -> Outcome.

(** [eventHandlers: Map<RideEventType, Array<handler>>] *)
Definition Registry : Type := RideEventType -> list Handler.

(** [initializeEventHandlers()] *)
Definition initializeEventHandlers : Registry := fun _ => [].

(** [on(eventType, handler)] *)
Definition on (eventType : RideEventType) (handler : Handler) (reg : Registry)
    : Registry :=
  fun t => if decide (t = eventType) then reg t ++ [handler] else reg t.

(** The state the manager works on: the collection [rideEvents], the log of
    the calls of [emit] (kept for the statements), and the world of the
    handlers. *)
Record State := {
  rideEvents : list RideEvent;
  emitted : list (RideEventType * RideEvent);
  world : W
}.

Variable eventHandlers : Registry.

(** [emit(eventType, event)]: the handlers of [eventType] in registration
    order; a handler that throws is logged and the next one still runs. *)
Definition emit (ty : RideEventType) (event : RideEvent) : StateM.M State unit :=
  fun st =>
    (tt, {| rideEvents := rideEvents st;
            emitted := emitted st ++ [(ty, event)];
            world := foldl (fun w handler => after (handler event w))
                       (world st) (eventHandlers ty) |}).

(** [storeEvent(event)] *)
Definition storeEvent (event : RideEvent) : StateM.M State unit :=
  fun st =>
    (tt, {| rideEvents := rideEvents st ++ [event];
            emitted := emitted st;
            world := world st |}).

(** The shape shared by the event-creating methods: build the event, store
    it, emit it under its own type.  [eid] is [generateEventId()]. *)
Definition publish (eid : string) (now : Z) (ty : RideEventType)
    (rideUuid : Z) (user : string) (driver vehicle : option JsNumber)
    (meta : list (string * string)) : StateM.M State unit :=
  let event := {|
    id := eid;
    rideRequestUuid := rideUuid;
    serviceUserUuid := user;
    driverUuid := driver;
    vehicleUuid := vehicle;
    eventType := ty;
    timestamp := now;
    metadata := meta;
    createdAt := now
  |} in
  do_ storeEvent event;
  emit ty event.

Definition requestConfirmed eid now (rideUuid : Z) (user : string) :=
  publish eid now REQUEST_CONFIRMED rideUuid user None None [].

Definition requestCanceled eid now (rideUuid : Z) (user reason : string) :=
  publish eid now REQUEST_CANCELED rideUuid user None None [("reason", reason)].

Definition rideStarted eid now (rideUuid : Z) (user : string)
    (driver vehicle : JsNumber) :=
  publish eid now RIDE_STARTED rideUuid user (Some driver) (Some vehicle) [].

Definition rideInterrupted eid now (rideUuid : Z) (user reason : string) :=
  publish eid now RIDE_INTERRUPTED rideUuid user None None [("reason", reason)].

Definition riderPickedUp eid now (rideUuid : Z) (user : string) (driver : JsNumber) :=
  publish eid now RIDER_PICKED_UP rideUuid user (Some driver) None [].

Definition riderNotPickedUp eid now (rideUuid : Z) (user reason : string) :=
  publish eid now RIDER_NOT_PICKED_UP rideUuid user None None [("reason", reason)].

Definition riderDroppedOff eid now (rideUuid : Z) (user : string) (driver : JsNumber) :=
  publish eid now RIDER_DROPPED_OFF rideUuid user (Some driver) None [].

Definition riderNotDroppedOff eid now (rideUuid : Z) (user reason : string) :=
  publish eid now RIDER_NOT_DROPPED_OFF rideUuid user None None [("reason", reason)].

Definition roundtripReturning eid now (rideUuid : Z) (user : string) (driver : JsNumber) :=
  publish eid now ROUNDTRIP_RETURNING rideUuid user (Some driver) None [].

Definition roundtripReturnInterrupted eid now (rideUuid : Z) (user reason : string) :=
  publish eid now ROUNDTRIP_RETURN_INTERRUPTED rideUuid user None None
    [("reason", reason)].

Definition roundtripComplete eid now (rideUuid : Z) (user : string) (driver : JsNumber) :=
  publish eid now ROUNDTRIP_COMPLETE rideUuid user (Some driver) None [].

Definition roundtripCompletionInterrupted eid now (rideUuid : Z) (user reason : string) :=
  publish eid now ROUNDTRIP_COMPLETION_INTERRUPTED rideUuid user None None
    [("reason", reason)].

Definition rideComplete eid now (rideUuid : Z) (user : string) (driver : JsNumber) :=
  publish eid now RIDE_COMPLETE rideUuid user (Some driver) None [].

Definition rideIncomplete eid now (rideUuid : Z) (user reason : string) :=
  publish eid now RIDE_INCOMPLETE rideUuid user None None [("reason", reason)].

End Manager.

Arguments Outcome : clear implicits.
Arguments Handler : clear implicits.
Arguments Registry : clear implicits.
Arguments State : clear implicits.

End RideEvents.

(** ** src/index.ts *)

Module DispatchBot.

Import NotifyQueue.

Section Translator.

Context {W : Type}.
Variable eventHandlers : RideEvents.Registry W.

(** [handleAutomaticRideStatusChange(rideRequest, newStatus, previousStatus)]:
    the [switch] over the ride status codes 0-509.  [eid] is the identifier
    [generateEventId()] hands to the event that is created, if any. *)
Definition handleAutomaticRideStatusChange (eid : string) (now : Z)
    (rideRequest : RideEvents.RideRequest) (newStatus previousStatus : Z)
    : StateM.M (RideEvents.State W) unit :=
  let ride := RideEvents.uuid rideRequest in
  let user := RideEvents.rr_serviceUserUuid rideRequest in
  let driver := RideEvents.parseInt_of (RideEvents.assignedDriverUuid rideRequest) in
  let vehicle := RideEvents.parseInt_of (RideEvents.assignedVehicleUuid rideRequest) in
  if newStatus =? 100 then
    RideEvents.requestConfirmed eventHandlers eid now ride user
  else if newStatus =? 109 then
    RideEvents.requestCanceled eventHandlers eid now ride user "Cancelled automatically"
  else if newStatus =? 200 then
    RideEvents.rideStarted eventHandlers eid now ride user driver vehicle
  else if newStatus =? 209 then
    RideEvents.rideInterrupted eventHandlers eid now ride user "Ride interrupted"
  else if newStatus =? 300 then
    RideEvents.riderPickedUp eventHandlers eid now ride user driver
  else if newStatus =? 309 then
    RideEvents.riderNotPickedUp eventHandlers eid now ride user "Rider not picked up"
  else if newStatus =? 400 then
    RideEvents.riderDroppedOff eventHandlers eid now ride user driver
  else if newStatus =? 409 then
    RideEvents.riderNotDroppedOff eventHandlers eid now ride user "Rider not dropped off"
  else if newStatus =? 450 then
    RideEvents.roundtripReturning eventHandlers eid now ride user driver
  else if newStatus =? 459 then
    RideEvents.roundtripReturnInterrupted eventHandlers eid now ride user
      "Roundtrip return interrupted"
  else if newStatus =? 475 then
    RideEvents.roundtripComplete eventHandlers eid now ride user driver
  else if newStatus =? 479 then
    RideEvents.roundtripCompletionInterrupted eventHandlers eid now ride user
      "Roundtrip completion interrupted"
  else if newStatus =? 500 then
    RideEvents.rideComplete eventHandlers eid now ride user driver
  else if newStatus =? 509 then
    RideEvents.rideIncomplete eventHandlers eid now ride user "Ride marked as incomplete"
  else
    StateM.ret tt.

(** [handleAutomaticRideRequestStatusChange(rideRequest, newStatus, previousStatus)]:
    the [switch] over the workflow codes 100-1100; the codes that are not
    listed here only log. *)
Definition handleAutomaticRideRequestStatusChange (eid : string) (now : Z)
    (rideRequest : RideEvents.RideRequest) (newStatus previousStatus : Z)
    : StateM.M (RideEvents.State W) unit :=
  let ride := RideEvents.uuid rideRequest in
  let user := RideEvents.rr_serviceUserUuid rideRequest in
  if newStatus =? 109 then
    RideEvents.requestCanceled eventHandlers eid now ride user "Ride request canceled"
  else if newStatus =? 409 then
    RideEvents.requestCanceled eventHandlers eid now ride user "Ride canceled, unconfirmed"
  else if newStatus =? 599 then
    RideEvents.requestCanceled eventHandlers eid now ride user "ECTC transport broker denied"
  else if newStatus =? 699 then
    RideEvents.requestCanceled eventHandlers eid now ride user "ECTC fleet manager denied"
  else if newStatus =? 799 then
    RideEvents.requestCanceled eventHandlers eid now ride user "ECTC staff denied"
  else
    StateM.ret tt.

End Translator.

Section Tick.

(** The result of [twilioSender.sendSMS(notification)]; the sender is not
    part of the sources at hand. *)
Variable sendSMS : NotificationItem -> bool.

Variable cfg : QueueConfig.

(** The state of one tick: the collection, and the notifications that were
    handed to the sender (kept for the statements). *)
Record TickState := {
  queue : Collection;
  smsAttempts : list NotificationItem
}.

(** A queue method, run on the queue of the tick. *)
Definition on_queue {A} (m : Q A) : StateM.M TickState A :=
  fun st =>
    let (a, c') := m (queue st) in
    (a, {| queue := c'; smsAttempts := smsAttempts st |}).

(** [await this.twilioSender.sendSMS(notification)] *)
Definition attempt_sms (notification : NotificationItem) : StateM.M TickState bool :=
  fun st =>
    (sendSMS notification,
     {| queue := queue st; smsAttempts := smsAttempts st ++ [notification] |}).

(** A query of the queue: it reads and does not write. *)
Definition read {A} (query : Collection -> A) : Q A :=
  fun c => (query c, c).

(** The clock during one turn of the [for] loop of
    [processNotificationQueue]: what [Date.now()] returns at the age test,
    and the [new Date()] of the queue method that the turn calls after it. *)
Record Readings := { at_test : Z; at_update : Z }.

(** The body of the [for] loop of [processNotificationQueue]. *)
Definition process_one (r : Readings) (notification : NotificationItem)
    : StateM.M TickState unit :=
  let processingTime := at_test r - createdAt notification in
  if 30000 <? processingTime then
    do_ on_queue (markNotificationFailed cfg (at_update r) (id notification)
                    "Timeout: Stuck in processing for over 30 seconds");
    StateM.ret tt
  else
    match type notification with
    | sms =>
        do success <- attempt_sms notification;
        if success : bool then
          do_ on_queue (markNotificationSent (at_update r) (id notification));
          StateM.ret tt
        else
          do_ on_queue (markNotificationFailed cfg (at_update r) (id notification)
                          "SMS sending failed");
          StateM.ret tt
    | _ => StateM.ret tt
    end.

(** The [for] loop over [allNotifications]: the turn for the notification at
    position [k] runs at the readings [clock k]. *)
Fixpoint process_all (clock : nat -> Readings) (k : nat)
    (allNotifications : list NotificationItem) : StateM.M TickState unit :=
  match allNotifications with
  | [] => StateM.ret tt
  | notification :: rest =>
      do_ process_one (clock k) notification;
      process_all clock (S k) rest
  end.

(** [processNotificationQueue()], followed through its own reads and
    writes: the two lists are read one after the other, with the default
    limit [batchSize], and the loop then works on what was read.
    [listed_at] is the [new Date()] of the query of
    [getPendingNotifications], and [clock] gives the readings of the turns
    of the loop.  Writes of other callers between two awaits are not part
    of this run. *)
Definition processNotificationQueue_at (listed_at : Z) (clock : nat -> Readings)
    : StateM.M TickState unit :=
  do pendingNotifications <-
    on_queue (read (getPendingNotifications (batchSize cfg) listed_at));
  do processingNotifications <-
    on_queue (read (getProcessingNotifications (batchSize cfg)));
  let allNotifications := pendingNotifications ++ processingNotifications in
  process_all clock 0 allNotifications.

(** A clock that does not advance while the tick runs. *)
Definition still (now : Z) : nat -> Readings :=
  fun _ => {| at_test := now; at_update := now |}.

(** The tick that runs within one reading [now] of the clock. *)
Definition processNotificationQueue (now : Z) : StateM.M TickState unit :=
  processNotificationQueue_at now (still now).

End Tick.

End DispatchBot.

(** ** Concrete queues, used by the examples and the closed lemmas *)

Module Samples.

Import NotifyQueue.

Definition no_metadata : Metadata :=
  {| rideRequestUuid := None; notificationType := None; errors := []; extra := [] |}.

Definition ride_metadata (rideUuid : string) : Metadata :=
  {| rideRequestUuid := Some rideUuid; notificationType := Some "rideUpdate";
     errors := []; extra := [] |}.

(** An SMS to a fixed recipient, created and last updated at [created]. *)
Definition item (i : string) (p : Priority) (s : Status) (sched : ScheduledTime)
    (meta : Metadata) (created : Z) : NotificationItem := {|
  id := i;
  type := sms;
  recipient := "+15550100";
  message := "Your ride has begun! You're on your way to your destination.";
  priority := p;
  scheduledTime := sched;
  retryCount := 0;
  maxRetries := 3;
  status := s;
  metadata := meta;
  createdAt := created;
  updatedAt := created
|}.

(** What [addSMSNotification] is given in the scenarios. *)
Definition sms_input : NotificationInput := {|
  in_type := sms;
  in_recipient := "+15550100";
  in_message := "Your ride has begun! You're on your way to your destination.";
  in_priority := medium;
  in_scheduledTime := absent;
  in_maxRetries := 3;
  in_metadata := no_metadata
|}.

(** Two pending items without a scheduled time. *)
Definition first_pending : NotificationItem :=
  item "n1" medium pending absent no_metadata 0.
Definition second_pending : NotificationItem :=
  item "n2" medium pending absent no_metadata 1.
Definition two_pending : Collection := [first_pending; second_pending].

(** Scenario A: an item enqueued at time 0 for ten seconds later. *)
Definition deferred : NotificationItem :=
  item "n3" medium pending (at_time 10000) no_metadata 0.

(** One pending item of each priority, all created at the same instant. *)
Definition low_item : NotificationItem :=
  item "n-low" low pending absent no_metadata 0.
Definition medium_item : NotificationItem :=
  item "n-medium" medium pending absent no_metadata 0.
Definition high_item : NotificationItem :=
  item "n-high" high pending absent no_metadata 0.
Definition urgent_item : NotificationItem :=
  item "n-urgent" urgent pending absent no_metadata 0.
Definition four_tiers : Collection :=
  [high_item; low_item; urgent_item; medium_item].

(** Items that share one id and differ in their status. *)
Definition in_status (s : Status) : NotificationItem :=
  item "n1" medium s absent no_metadata 0.

(** What is read off an item in the scenarios. *)
Definition summary (d : NotificationItem)
    : Status * nat * nat * ScheduledTime :=
  (status d, retryCount d, maxRetries d, scheduledTime d).

(** Scenario C: an item enqueued at time 0 with [maxRetries = 3], and the
    send failures reported at the times [t1], [t2], ... *)
Definition enqueued : Collection :=
  snd (addNotification 0 "n1" sms_input []).

Definition fail_at (now : Z) (c : Collection) : Collection :=
  snd (markNotificationFailed defaultConfig now "n1" "SMS sending failed" c).

Definition after_three_failures : Collection :=
  fail_at 8000 (fail_at 2000 (fail_at 100 enqueued)).

Definition after_four_failures : Collection :=
  fail_at 30000 after_three_failures.

(** Three notifications of ride 42 (pending, processing, sent) and one
    pending notification of ride 7. *)
Definition ride_queue : Collection :=
  [ item "r1" medium pending absent (ride_metadata "42") 0;
    item "r2" high processing absent (ride_metadata "42") 1;
    item "r3" medium sent absent (ride_metadata "42") 2;
    item "r4" medium pending absent (ride_metadata "7") 3 ].

(** An item that was created 40 seconds before it was claimed at 40000. *)
Definition just_claimed : NotificationItem := {|
  id := "n5";
  type := sms;
  recipient := "+15550100";
  message := "You have been picked up successfully.";
  priority := medium;
  scheduledTime := absent;
  retryCount := 0;
  maxRetries := 3;
  status := processing;
  metadata := no_metadata;
  createdAt := 0;
  updatedAt := 40000
|}.

(** A young item that has been claimed. *)
Definition claimed : NotificationItem :=
  item "n4" medium processing absent no_metadata 0.

(** What is read off the queue after a tick. *)
Definition tick_summary (d : NotificationItem)
    : string * Status * nat * list string :=
  (id d, status d, retryCount d, err_error <$> errors (metadata d)).

(** A configuration with room for a single claim per turn. *)
Definition one_at_a_time : QueueConfig := {|
  maxConcurrent := 1;
  retryDelays := [1000; 5000; 15000; 60000];
  cfg_maxRetries := 3;
  batchSize := 10;
  processInterval := 1000
|}.

End Samples.

(** ** src/queues/notifyQueue.ts, the remaining methods *)

Module QueueMore.

Import NotifyQueue.

(** What none of the updates of the queue writes: the fields of a document
    other than [status], [retryCount], [scheduledTime], [metadata] and
    [updatedAt]. *)
Definition same_identity (d d' : NotificationItem) : Prop :=
  id d' = id d /\ type d' = type d /\ recipient d' = recipient d
  /\ message d' = message d /\ priority d' = priority d
  /\ maxRetries d' = maxRetries d /\ createdAt d' = createdAt d.

(** [d'] is [d] with nothing but [status] and [updatedAt] rewritten. *)
Definition only_status_written (d d' : NotificationItem) : Prop :=
  d' = set_status (status d') (updatedAt d') d.

(** What [markNotificationFailed] may do to one document: the identity
    fields stay, the retry count stays or grows by one, the error log stays
    or gains one entry at its end, the tie to a ride stays. *)
Definition failure_step (d d' : NotificationItem) : Prop :=
  same_identity d d'
  /\ (retryCount d <= retryCount d' <= retryCount d + 1)%nat
  /\ (errors (metadata d') = errors (metadata d)
      \/ exists e, errors (metadata d') = errors (metadata d) ++ [e])
  /\ rideRequestUuid (metadata d') = rideRequestUuid (metadata d).

(** The [$match] stage of [getRideNotificationStats]:
    [{ 'metadata.rideRequestUuid': rideRequestUuid }]. *)
Definition of_ride (rideUuid : string) (d : NotificationItem) : bool :=
  bool_decide (rideRequestUuid (metadata d) = Some rideUuid).

(** The object literal [stats] of [getRideNotificationStats]. *)
Definition initial_ride_stats : gmap string nat :=
  <["total" := 0%nat]> (<["sent" := 0%nat]> (<["failed" := 0%nat]>
    (<["pending" := 0%nat]> (<["cancelled" := 0%nat]> ∅)))).

(** [getRideNotificationStats(rideRequestUuid)]: the same [$group] stage and
    the same [forEach] as [getQueueStats], behind the [$match]. *)
Definition getRideNotificationStats (rideUuid : string) (c : Collection)
    : gmap string nat :=
  foldl add_result initial_ride_stats (group_by_status (find (of_ride rideUuid) c)).

(** A call of one of the methods of the queue that write to it. *)
Inductive QueueCall :=
  | call_addNotification (now : Z) (newId : string)
      (notification : NotificationInput)
  | call_markNotificationProcessing (now : Z) (i : string)
  | call_markNotificationSent (now : Z) (i : string)
  | call_markNotificationFailed (cfg : QueueConfig) (now : Z) (i error : string)
  | call_cancelNotification (now : Z) (i : string)
  | call_cancelRideNotifications (now : Z) (rideUuid : string).

(** The queue after a call. *)
Definition run_call (call : QueueCall) (c : Collection) : Collection :=
  match call with
  | call_addNotification now newId notification =>
      snd (addNotification now newId notification c)
  | call_markNotificationProcessing now i =>
      snd (markNotificationProcessing now i c)
  | call_markNotificationSent now i => snd (markNotificationSent now i c)
  | call_markNotificationFailed cfg now i error =>
      snd (markNotificationFailed cfg now i error c)
  | call_cancelNotification now i => snd (cancelNotification now i c)
  | call_cancelRideNotifications now rideUuid =>
      snd (cancelRideNotifications now rideUuid c)
  end.

(** The queue after a sequence of calls, the first of the list first. *)
Definition run_calls (calls : list QueueCall) (c : Collection) : Collection :=
  foldl (fun c call => run_call call c) c calls.

(** The two calls that address the id [i] without a test of the status of
    the document: a failure reported for [i], and an enqueue that is given
    [i] as its new id. *)
Definition reopens (i : string) (call : QueueCall) : Prop :=
  match call with
  | call_markNotificationFailed _ _ j _ => j = i
  | call_addNotification _ newId _ => newId = i
  | _ => False
  end.

End QueueMore.

(** ** src/index.ts, reading the tick *)

Module TickMore.

Import NotifyQueue QueueMore DispatchBot.

(** What the tick may do to one document: the identity fields stay and the
    retry count does not go down. *)
Definition tick_step (d d' : NotificationItem) : Prop :=
  same_identity d d' /\ (retryCount d <= retryCount d')%nat.

(** The two tests of the loop body of [processNotificationQueue] that lead
    to [sendSMS]: not older than 30 seconds at the reading [now] of
    [Date.now()], and of type ['sms']. *)
Definition young_sms (now : Z) (n : NotificationItem) : bool :=
  negb (30000 <? now - createdAt n) && bool_decide (type n = sms).

(** The notifications of a list that pass the two tests, each at the age
    test of its own turn: the one at position [k] is kept when it is young
    at [at_test (clock k)] and of type ['sms']. *)
Fixpoint handed_over (clock : nat -> Readings) (k : nat)
    (l : list NotificationItem) : list NotificationItem :=
  match l with
  | [] => []
  | n :: l' =>
      (if young_sms (at_test (clock k)) n then [n] else [])
      ++ handed_over clock (S k) l'
  end.

(** The document [markNotificationFailed] writes for a document [n] that
    it has read: retry or terminal failure by [n]'s retry count, the count
    raised by one, the error appended. *)
Definition failed_doc (cfg : QueueConfig) (now : Z) (error : string)
    (n : NotificationItem) : NotificationItem :=
  failed_update
    (if bool_decide (retryCount n < cfg_maxRetries cfg)%nat
     then pending else failed)
    (retryCount n + 1)
    (if bool_decide (retryCount n < cfg_maxRetries cfg)%nat
     then at_time (now + retryDelay_at cfg (retryCount n)) else null)
    now error n.

(** What the loop body of [processNotificationQueue] makes of a listed
    document [n] in a turn with the readings [r], read off its three
    branches. *)
Definition tick_outcome (sendSMS : NotificationItem -> bool) (cfg : QueueConfig)
    (r : Readings) (n : NotificationItem) : NotificationItem :=
  if 30000 <? at_test r - createdAt n then
    failed_doc cfg (at_update r)
      "Timeout: Stuck in processing for over 30 seconds" n
  else
    match type n with
    | sms => if sendSMS n then set_status sent (at_update r) n
             else failed_doc cfg (at_update r) "SMS sending failed" n
    | _ => n
    end.

End TickMore.

(** ** src/events/rideEvents.ts, the remaining methods *)

Module EventsMore.

Import RideEvents.

(** [getRideStatusDescription(status)]: [descriptions[status] || 'Unknown Status']
    over the fifteen codes of [enum RideStatus]. *)
Definition getRideStatusDescription (status : Z) : string :=
  if status =? 0 then "Ride Request In Progress"
  else if status =? 100 then "Ride Confirmed"
  else if status =? 109 then "Ride Canceled by Ride"
  else if status =? 200 then "Ride Started"
  else if status =? 209 then "Ride Interrupted"
  else if status =? 300 then "Rider Picked Up"
  else if status =? 309 then "Rider Not Picked Up"
  else if status =? 400 then "Rider Dropped Off"
  else if status =? 409 then "Rider Not Dropped Off"
  else if status =? 450 then "Roundtrip Returning"
  else if status =? 459 then "Roundtrip Return Interrupted"
  else if status =? 475 then "Roundtrip Complete"
  else if status =? 479 then "Roundtrip Completion Interrupted"
  else if status =? 500 then "Ride Complete"
  else if status =? 509 then "Ride Incomplete"
  else "Unknown Status".

(** [getRideRequestStatusDescription(status)], over [enum RideRequestStatus]. *)
Definition getRideRequestStatusDescription (status : Z) : string :=
  if status =? 100 then "All ride request open"
  else if status =? 109 then "All ride request canceled"
  else if status =? 200 then "Driver Needed"
  else if status =? 209 then "Driver Unavailable"
  else if status =? 300 then "Vehicle Needed"
  else if status =? 309 then "Vehicle Unavailable"
  else if status =? 400 then "Ride Confirmation Needed"
  else if status =? 409 then "Ride Canceled, Unconfirmed"
  else if status =? 500 then "ECTC Transport Broker Notified"
  else if status =? 525 then "ECTC Transport Broker Approved"
  else if status =? 599 then "ECTC Transport Broker Denied"
  else if status =? 600 then "ECTC Fleet Manager Notified"
  else if status =? 625 then "ECTC Fleet Manager Approved"
  else if status =? 699 then "ECTC Fleet Manager Denied"
  else if status =? 700 then "ECTC Staff Notified"
  else if status =? 725 then "ECTC Staff Approved"
  else if status =? 799 then "ECTC Staff Denied"
  else if status =? 1000 then "All ride request ready to ride"
  else if status =? 1100 then "All ride request closed"
  else "Unknown Ride Request Status".

(** [isRideActive]: [status >= RIDE_STARTED && status < RIDE_COMPLETE]. *)
Definition isRideActive (status : Z) : bool :=
  (200 <=? status) && (status <? 500).

(** [isRideCompleted]: [RIDE_COMPLETE] or [ROUNDTRIP_COMPLETE]. *)
Definition isRideCompleted (status : Z) : bool :=
  (status =? 500) || (status =? 475).

(** [isRideCanceled]: [RIDE_CANCELED_BY_RIDE]. *)
Definition isRideCanceled (status : Z) : bool := status =? 109.

(** The [case] labels of the [switch] of [handleAutomaticRideStatusChange],
    and those of [handleAutomaticRideRequestStatusChange] that call the
    manager. *)
Definition progress_cases : list Z :=
  [100; 109; 200; 209; 300; 309; 400; 409; 450; 459; 475; 479; 500; 509].

Definition workflow_cancel_cases : list Z := [109; 409; 599; 699; 799].

(** [sort({ timestamp: 1 })] on events, stable. *)
Fixpoint insert_event (x : RideEvent) (l : list RideEvent) : list RideEvent :=
  match l with
  | [] => [x]
  | y :: l' =>
      if timestamp y <? timestamp x then y :: insert_event x l'
      else x :: y :: l'
  end.

Definition sort_events (l : list RideEvent) : list RideEvent :=
  foldr insert_event [] l.

(** [getRideEvents(rideRequestUuid)]:
    [find({ rideRequestUuid }).sort({ timestamp: 1 })] on [rideEvents]. *)
Definition getRideEvents (rideUuid : Z) (events : list RideEvent)
    : list RideEvent :=
  sort_events (List.filter (fun e => rideRequestUuid e =? rideUuid) events).

(** The fields of [interface RideRequest] that [requestCreated] copies into
    the metadata of its event, beside those of [RideRequest] above. *)
Record RideDetails := {
  ride : RideRequest;
  pickupAddress : string;
  dropOffAddress : string;
  roundTrip : bool;
  purpose : string
}.

Section Manager.

Context {W : Type}.
Variable eventHandlers : Registry W.

Definition requestCreated eid now (rideRequest : RideDetails) :=
  publish eventHandlers eid now REQUEST_CREATED
    (uuid (ride rideRequest)) (rr_serviceUserUuid (ride rideRequest)) None None
    [("pickupAddress", pickupAddress rideRequest);
     ("dropOffAddress", dropOffAddress rideRequest);
     ("roundTrip", if roundTrip rideRequest then "true" else "false");
     ("purpose", purpose rideRequest)].

Definition driverAssigned eid now (rideUuid : Z) (user : string) (driver : Z) :=
  publish eventHandlers eid now DRIVER_ASSIGNED rideUuid user
    (Some (Num driver)) None [].

Definition vehicleAssigned eid now (rideUuid : Z) (user : string) (vehicle : Z) :=
  publish eventHandlers eid now VEHICLE_ASSIGNED rideUuid user
    None (Some (Num vehicle)) [].

Definition emergencyAlert eid now (rideUuid : Z) (user message : string) :=
  publish eventHandlers eid now EMERGENCY_ALERT rideUuid user None None
    [("message", message)].

End Manager.

End EventsMore.

(** ** src/queues/notifyQueue.ts, the producers the handlers call *)

Module Producers.

Import NotifyQueue.

(** [addDriverNotification] *)
Definition addDriverNotification (cfg : QueueConfig) (now : Z) (newId : string)
    (driverUuid rideUuid msg : string) (prio : Priority) : Q string :=
  addNotification now newId {|
    in_type := sms;
    in_recipient := driverUuid;
    in_message := msg;
    in_priority := prio;
    in_scheduledTime := absent;
    in_maxRetries := cfg_maxRetries cfg;
    in_metadata := {| rideRequestUuid := Some rideUuid;
                      notificationType := Some "driverUpdate";
                      errors := []; extra := [] |}
  |}.

(** [addEmergencyNotification]: [{ ...metadata, notificationType: 'emergency' }]. *)
Definition addEmergencyNotification (cfg : QueueConfig) (now : Z) (newId : string)
    (recipient msg : string) (meta : Metadata) : Q string :=
  addNotification now newId {|
    in_type := sms;
    in_recipient := recipient;
    in_message := msg;
    in_priority := urgent;
    in_scheduledTime := absent;
    in_maxRetries := cfg_maxRetries cfg;
    in_metadata := {| rideRequestUuid := rideRequestUuid meta;
                      notificationType := Some "emergency";
                      errors := errors meta; extra := extra meta |}
  |}.

(** The default [metadata = {}] of [addEmergencyNotification]. *)
Definition empty_metadata : Metadata :=
  {| rideRequestUuid := None; notificationType := None; errors := []; extra := [] |}.

(** [addRoundtripNotification] *)
Definition addRoundtripNotification (cfg : QueueConfig) (now : Z) (newId : string)
    (serviceUserUuid rideUuid msg : string) (prio : Priority) : Q string :=
  addNotification now newId {|
    in_type := sms;
    in_recipient := serviceUserUuid;
    in_message := msg;
    in_priority := prio;
    in_scheduledTime := absent;
    in_maxRetries := cfg_maxRetries cfg;
    in_metadata := {| rideRequestUuid := Some rideUuid;
                      notificationType := Some "roundtripUpdate";
                      errors := []; extra := [] |}
  |}.

(** The object literal [statusMessages] of [addStatusUpdateNotification], by
    its own keys. *)
Definition statusMessages : list (string * string) :=
  [ ("confirmed", "Your ride request has been confirmed! A driver will be assigned soon.");
    ("driver_assigned", "Great news! A driver has been assigned to your ride.");
    ("ride_started", "Your ride has begun! You're on your way to your destination.");
    ("pickup_complete", "You have been picked up successfully.");
    ("dropoff_complete", "You have arrived at your destination. Thank you for using our service!");
    ("roundtrip_returning", "Your return trip has begun. You're heading back to your pickup location.");
    ("roundtrip_complete", "Your roundtrip has been completed. Thank you for using our service!");
    ("cancelled", "Your ride has been cancelled. Please request a new ride if needed.");
    ("interrupted", "Your ride has been interrupted. We'll contact you shortly with updates.") ].

(** [o[key]] on an association list of own keys. *)
Fixpoint assoc (key : string) (l : list (string * string)) : option string :=
  match l with
  | [] => None
  | (k, v) :: l' => if decide (k = key) then Some v else assoc key l'
  end.

(** [statusMessages[status] || `Your ride status has been updated: ...`].
    Every text of the table is non-empty, so the table wins whenever it has
    the key.  ([status] is taken not to name a member of [Object.prototype],
    as in every call of the sources.) *)
Definition status_message (status : string) (additionalInfo : option string)
    : string :=
  match assoc status statusMessages with
  | Some text => text
  | None =>
      "Your ride status has been updated: " +:+ status +:+ ". "
      +:+ default "" additionalInfo
  end.

(** [addStatusUpdateNotification]; an [additionalInfo] that is undefined is
    left out of the metadata kept here. *)
Definition addStatusUpdateNotification (cfg : QueueConfig) (now : Z)
    (newId : string) (serviceUserUuid rideUuid status : string)
    (additionalInfo : option string) : Q string :=
  addNotification now newId {|
    in_type := sms;
    in_recipient := serviceUserUuid;
    in_message := status_message status additionalInfo;
    in_priority := medium;
    in_scheduledTime := absent;
    in_maxRetries := cfg_maxRetries cfg;
    in_metadata := {| rideRequestUuid := Some rideUuid;
                      notificationType := Some "statusUpdate";
                      errors := [];
                      extra := ("status", status)
                               :: match additionalInfo with
                                  | Some info => [("additionalInfo", info)]
                                  | None => []
                                  end |}
  |}.

End Producers.

(** ** src/index.ts, the event handlers *)

Module Handlers.

Import NotifyQueue Producers RideEvents.

(** What the handlers of [setupEventHandlers] act on: the notification
    queue, and the number of ids [generateNotificationId] has handed out.
    A handler is followed through its own writes; the background loop that
    [addNotification] starts is another actor on the same queue, whose turn
    is [processing_turn]. *)
Record World := { w_queue : Collection; w_ids : nat }.

(** One emergency contact of the user preferences, which are kept by a
    module outside the sources at hand. *)
Record EmergencyContact := {
  contact_priority : string;
  phoneNumber : string;
  relationship : string
}.

Section Setup.

Variable cfg : QueueConfig.

(** The value of the [n]-th call of [generateNotificationId()]. *)
Variable generateNotificationId : nat -> string.

(** [userPrefsManager.getUserPreferences(uuid)?.emergencyContacts] *)
Variable emergencyContactsOf : string -> option (list EmergencyContact).

(** The time at which the handlers run. *)
Variable now : Z.

(** A call of one of the [add...] methods of the queue. *)
Definition enqueue (add : string -> Q string) (w : World) : World :=
  {| w_queue := snd (add (generateNotificationId (w_ids w)) (w_queue w));
     w_ids := S (w_ids w) |}.

Definition returned (w : World) : Outcome World := {| after := w; threw := false |}.

(** [event.rideRequestUuid.toString()]: the decimal text of an integer
    (as JavaScript prints every integer below 10^21). *)
Definition ride_key (event : RideEvent) : string := pretty (rideRequestUuid event).

(** [if (event.driverUuid)]: a number other than [NaN] and 0. *)
Definition driver_of (event : RideEvent) : option Z :=
  match driverUuid event with
  | Some (Num n) => if n =? 0 then None else Some n
  | _ => None
  end.

Definition on_REQUEST_CREATED : Handler World := fun event w =>
  returned (enqueue (fun i => addRideUpdateNotification cfg now i
    (serviceUserUuid event) (ride_key event)
    "Your ride request has been received and is being processed." medium) w).

(** The handlers that send one status update to the rider. *)
Definition status_update (status : string) : Handler World := fun event w =>
  returned (enqueue (fun i => addStatusUpdateNotification cfg now i
    (serviceUserUuid event) (ride_key event) status None) w).

Definition on_REQUEST_CONFIRMED := status_update "confirmed".
Definition on_RIDE_STARTED := status_update "ride_started".
Definition on_RIDER_PICKED_UP := status_update "pickup_complete".
Definition on_RIDER_DROPPED_OFF := status_update "dropoff_complete".
Definition on_ROUNDTRIP_COMPLETE := status_update "roundtrip_complete".
Definition on_RIDE_COMPLETE := status_update "completed".

Definition on_DRIVER_ASSIGNED : Handler World := fun event w =>
  let w1 := enqueue (fun i => addStatusUpdateNotification cfg now i
    (serviceUserUuid event) (ride_key event) "driver_assigned" None) w in
  match driver_of event with
  | Some driver =>
      returned (enqueue (fun i => addDriverNotification cfg now i
        (pretty driver) (ride_key event)
        "You have been assigned a new ride request. Please review and accept."
        high) w1)
  | None => returned w1
  end.

Definition on_VEHICLE_ASSIGNED : Handler World := fun event w =>
  match driver_of event with
  | Some driver =>
      returned (enqueue (fun i => addDriverNotification cfg now i
        (pretty driver) (ride_key event)
        "A vehicle has been assigned to your ride request." medium) w)
  | None => returned w
  end.

Definition on_ROUNDTRIP_RETURNING : Handler World := fun event w =>
  returned (enqueue (fun i => addRoundtripNotification cfg now i
    (serviceUserUuid event) (ride_key event)
    "Your return trip has begun. You're heading back to your pickup location."
    medium) w).

Definition on_REQUEST_CANCELED : Handler World := fun event w =>
  let w1 := {| w_queue := snd (cancelRideNotifications now (ride_key event)
                                 (w_queue w));
               w_ids := w_ids w |} in
  returned (enqueue (fun i => addStatusUpdateNotification cfg now i
    (serviceUserUuid event) (ride_key event) "cancelled"
    (assoc "reason" (metadata event))) w1).

(** [emergencyContacts.find(c => c.priority === 'primary') || emergencyContacts[0]] *)
Definition primary_contact (contacts : list EmergencyContact)
    : option EmergencyContact :=
  match List.find (fun c => bool_decide (contact_priority c = "primary")) contacts with
  | Some c => Some c
  | None => head contacts
  end.

Definition on_EMERGENCY_ALERT : Handler World := fun event w =>
  let said := assoc "message" (metadata event) in
  let w1 := enqueue (fun i => addEmergencyNotification cfg now i
    (serviceUserUuid event)
    (match said with
     | Some text => if decide (text = "") then "Emergency situation detected" else text
     | None => "Emergency situation detected"
     end) empty_metadata) w in
  match emergencyContactsOf (serviceUserUuid event) with
  | Some (first :: rest) =>
      let contact := primary_contact (first :: rest) in
      returned (enqueue (fun i => addEmergencyNotification cfg now i
        (default "" (phoneNumber <$> contact))
        ("Emergency alert for " +:+ default "" (relationship <$> contact)
         +:+ ": " +:+ default "undefined" said) empty_metadata) w1)
  | _ => returned w1
  end.

(** [setupEventHandlers()]: the twelve registrations, in their order. *)
Definition index_handlers : Registry World :=
  on EMERGENCY_ALERT on_EMERGENCY_ALERT
  (on REQUEST_CANCELED on_REQUEST_CANCELED
  (on RIDE_COMPLETE on_RIDE_COMPLETE
  (on ROUNDTRIP_COMPLETE on_ROUNDTRIP_COMPLETE
  (on ROUNDTRIP_RETURNING on_ROUNDTRIP_RETURNING
  (on RIDER_DROPPED_OFF on_RIDER_DROPPED_OFF
  (on RIDER_PICKED_UP on_RIDER_PICKED_UP
  (on RIDE_STARTED on_RIDE_STARTED
  (on VEHICLE_ASSIGNED on_VEHICLE_ASSIGNED
  (on DRIVER_ASSIGNED on_DRIVER_ASSIGNED
  (on REQUEST_CONFIRMED on_REQUEST_CONFIRMED
  (on REQUEST_CREATED on_REQUEST_CREATED
     initializeEventHandlers))))))))))).

(** What every notification a status change enqueues has in common. *)
Definition to_the_rider (user rideKey : string) (n : NotificationItem) : Prop :=
  status n = pending /\ type n = sms /\ priority n = medium
  /\ recipient n = user /\ retryCount n = 0%nat /\ scheduledTime n = absent
  /\ NotifyQueue.rideRequestUuid (NotifyQueue.metadata n) = Some rideKey
  /\ NotifyQueue.createdAt n = now /\ maxRetries n = cfg_maxRetries cfg.

End Setup.

End Handlers.

(** ** The identifiers of the queued notifications *)

Module Issued.

Import NotifyQueue Handlers.

(** Every queued notification carries an identifier that
    [generateNotificationId] has handed out so far. *)
Definition ids_issued (generateNotificationId : nat -> string) (w : World) : Prop :=
  Forall (fun d => exists i, (i < w_ids w)%nat /\ id d = generateNotificationId i)
    (w_queue w).

End Issued.

(** ** Further sample data *)

Module Scenes.

Import NotifyQueue.

(** A configuration that allows no retry. *)
Definition no_retries : QueueConfig := {|
  maxConcurrent := 5;
  retryDelays := [1000; 5000; 15000; 60000];
  cfg_maxRetries := 0;
  batchSize := 10;
  processInterval := 1000
|}.

(** A sender that always delivers. *)
Definition always_delivers : NotificationItem -> bool := fun _ => true.

(** A queue on which nothing is to do before the time 10000 (a sent item
    and an item put off to that time), and one with work to do. *)
Definition settled : DispatchBot.TickState :=
  {| DispatchBot.queue := [Samples.in_status sent; Samples.deferred];
     DispatchBot.smsAttempts := [] |}.

Definition busy : DispatchBot.TickState :=
  {| DispatchBot.queue := Samples.two_pending;
     DispatchBot.smsAttempts := [] |}.

(** A clock that starts at 100 and advances by one millisecond at every
    reading. *)
Definition advancing : nat -> DispatchBot.Readings :=
  fun k => {| DispatchBot.at_test := 100 + 2 * Z.of_nat k;
              DispatchBot.at_update := 101 + 2 * Z.of_nat k |}.

(** Calls that follow the closing of the item n1: none of them reports a
    failure for n1 or enqueues under this id. *)
Definition later_calls : list QueueMore.QueueCall :=
  [ QueueMore.call_markNotificationProcessing 30 "n1";
    QueueMore.call_cancelRideNotifications 40 "42";
    QueueMore.call_markNotificationFailed defaultConfig 50 "n2"
      "SMS sending failed";
    QueueMore.call_addNotification 60 "n3" Samples.sms_input ].

(** Ride 42 of rider user-1, with driver 7 and vehicle 3. *)
Definition ride_42 : RideEvents.RideRequest := {|
  RideEvents.uuid := 42;
  RideEvents.rr_serviceUserUuid := "user-1";
  RideEvents.assignedDriverUuid := Some 7;
  RideEvents.assignedVehicleUuid := Some 3
|}.

(** A manager without events, over a world without content. *)
Definition quiet : RideEvents.State unit :=
  {| RideEvents.rideEvents := []; RideEvents.emitted := []; RideEvents.world := tt |}.

(** A handler that does nothing. *)
Definition idle : RideEvents.Handler unit :=
  fun _ w => {| RideEvents.after := w; RideEvents.threw := false |}.

(** The application right after its start: no event, an empty queue. *)
Definition started : RideEvents.State Handlers.World :=
  {| RideEvents.rideEvents := []; RideEvents.emitted := [];
     RideEvents.world := {| Handlers.w_queue := []; Handlers.w_ids := 0 |} |}.

(** The application with the notifications of the rides 42 and 7 in its
    queue. *)
Definition riding : RideEvents.State Handlers.World :=
  {| RideEvents.rideEvents := []; RideEvents.emitted := [];
     RideEvents.world := {| Handlers.w_queue := Samples.ride_queue;
                            Handlers.w_ids := 4 |} |}.

(** Identifiers that are numbered, and a rider without emergency contacts. *)
Definition numbered : nat -> string := pretty.

Definition no_contacts : string -> option (list Handlers.EmergencyContact) :=
  fun _ => None.

(** A rider whose only emergency contact is a sister. *)
Definition one_contact : string -> option (list Handlers.EmergencyContact) :=
  fun _ => Some [ {| Handlers.contact_priority := "secondary";
                     Handlers.phoneNumber := "+15550101";
                     Handlers.relationship := "sister" |} ].

(** The start of ride 42. *)
Definition start_of_42 : RideEvents.RideEvent := {|
  RideEvents.id := "evt-1";
  RideEvents.rideRequestUuid := 42;
  RideEvents.serviceUserUuid := "user-1";
  RideEvents.driverUuid := Some (RideEvents.Num 7);
  RideEvents.vehicleUuid := Some (RideEvents.Num 3);
  RideEvents.eventType := RideEvents.RIDE_STARTED;
  RideEvents.timestamp := 1000;
  RideEvents.metadata := [];
  RideEvents.createdAt := 1000
|}.

End Scenes.

(** * Properties *)

(** ** The driver's operations *)

Module DriverFacts.

Import NotifyQueue.

Lemma updateOne_none filter update (c : Collection) :
  Forall (fun d => filter d = false) c ->
  updateOne filter update c = ({| matchedCount := 0; modifiedCount := 0 |}, c).
Proof.
  induction 1 as [|d c Hd _ IH]; simpl; [done|].
  by rewrite Hd, IH.
Qed.

Lemma updateOne_first filter update (l1 l2 : Collection) d :
  Forall (fun x => filter x = false) l1 ->
  filter d = true ->
  updateOne filter update (l1 ++ d :: l2)
  = ({| matchedCount := 1; modifiedCount := changes update d |},
     l1 ++ update d :: l2).
Proof.
  intros Hl1 Hd. induction Hl1 as [|x l1 Hx _ IH]; simpl.
  - by rewrite Hd.
  - by rewrite Hx, IH.
Qed.

(** A list either has no match, or splits at its first match. *)
Lemma first_match (filter : NotificationItem -> bool) (c : Collection) :
  Forall (fun d => filter d = false) c
  \/ exists l1 d l2, c = l1 ++ d :: l2
       /\ Forall (fun x => filter x = false) l1 /\ filter d = true.
Proof.
  induction c as [|x c IH]; [by left|].
  destruct (filter x) eqn:Hx.
  - right. by exists [], x, c.
  - destruct IH as [IH|(l1 & d & l2 & -> & Hl1 & Hd)].
    + left. by constructor.
    + right. exists (x :: l1), d, l2. repeat split; [by constructor|done].
Qed.

Lemma findOne_none filter (c : Collection) :
  Forall (fun d => filter d = false) c -> findOne filter c = None.
Proof.
  induction 1 as [|d c Hd _ IH]; simpl; [done|].
  unfold findOne in *. simpl. by rewrite Hd.
Qed.

Lemma findOne_first filter (l1 l2 : Collection) d :
  Forall (fun x => filter x = false) l1 ->
  filter d = true ->
  findOne filter (l1 ++ d :: l2) = Some d.
Proof.
  intros Hl1 Hd. unfold findOne.
  induction Hl1 as [|x l1 Hx _ IH]; simpl.
  - by rewrite Hd.
  - by rewrite Hx.
Qed.

(** With unique identifiers, replacing the first document that carries [i]
    is the same as replacing every document that carries [i]. *)
Lemma unique_id_split (i : string) (l1 l2 : Collection) d :
  NoDup (id <$> (l1 ++ d :: l2)) ->
  id d = i ->
  Forall (fun x => has_id i x = false) l1
  /\ Forall (fun x => has_id i x = false) l2.
Proof.
  intros Hnd <-. rewrite fmap_app, fmap_cons in Hnd.
  apply NoDup_app in Hnd as (_ & Hl1 & Hnd).
  apply NoDup_cons in Hnd as [Hl2 _].
  split; apply Forall_forall; intros x Hx; unfold has_id;
    apply bool_decide_eq_false; intros Heq.
  - apply (Hl1 (id x)); [by apply list_elem_of_fmap_2|].
    rewrite Heq. by left.
  - apply Hl2. rewrite <- Heq. by apply list_elem_of_fmap_2.
Qed.

Lemma map_if_no_match (P : NotificationItem -> bool) f (l : Collection) :
  Forall (fun x => P x = false) l ->
  (fun x => if P x then f x else x) <$> l = l.
Proof.
  induction 1 as [|x l Hx _ IH]; [done|].
  rewrite fmap_cons, Hx. by f_equal.
Qed.

Lemma has_id_true i d : has_id i d = true <-> id d = i.
Proof. unfold has_id. by rewrite bool_decide_eq_true. Qed.

Lemma has_status_true s d : has_status s d = true <-> status d = s.
Proof. unfold has_status. by rewrite bool_decide_eq_true. Qed.

Lemma set_status_changes s now d : status d <> s -> changes (set_status s now) d = 1%nat.
Proof.
  intros Hne. unfold changes. rewrite bool_decide_eq_false_2; [done|].
  intros Heq. apply Hne. by rewrite <- Heq.
Qed.

End DriverFacts.

(** ** Identifiers: the methods never rewrite [id] *)

Module IdFacts.

Import NotifyQueue DriverFacts.

Lemma updateOne_ids filter update (c : Collection) :
  (forall d, id (update d) = id d) ->
  id <$> snd (updateOne filter update c) = id <$> c.
Proof.
  intros Hid. induction c as [|d c IH]; [done|].
  cbn [updateOne]. destruct (filter d).
  - cbn [snd]. by rewrite !fmap_cons, Hid.
  - destruct (updateOne filter update c) as [r c']. cbn [snd] in *.
    by rewrite !fmap_cons, IH.
Qed.

Lemma updateMany_ids filter update (c : Collection) :
  (forall d, id (update d) = id d) ->
  id <$> snd (updateMany filter update c) = id <$> c.
Proof.
  intros Hid. induction c as [|d c IH]; [done|].
  cbn [updateMany]. destruct (updateMany filter update c) as [r c'].
  cbn [snd] in *.
  destruct (filter d); cbn [snd]; by rewrite !fmap_cons, ?Hid, IH.
Qed.

(** The list of identifiers is the same before and after each of the five
    updates, so unique identifiers stay unique. *)
Lemma updates_keep_ids cfg now i error rideUuid (c : Collection) :
  id <$> snd (markNotificationProcessing now i c) = id <$> c
  /\ id <$> snd (markNotificationSent now i c) = id <$> c
  /\ id <$> snd (markNotificationFailed cfg now i error c) = id <$> c
  /\ id <$> snd (cancelNotification now i c) = id <$> c
  /\ id <$> snd (cancelRideNotifications now rideUuid c) = id <$> c.
Proof.
  repeat split.
  - unfold markNotificationProcessing.
    pose proof (updateOne_ids (fun d => has_id i d && has_status pending d)
                  (set_status processing now) c) as H.
    destruct (updateOne _ _ c). by apply H.
  - unfold markNotificationSent.
    pose proof (updateOne_ids (has_id i) (set_status sent now) c) as H.
    destruct (updateOne _ _ c). by apply H.
  - unfold markNotificationFailed. destruct (findOne _ c) as [d|]; [|done].
    match goal with |- context [updateOne ?f ?u c] =>
      pose proof (updateOne_ids f u c) as H; destruct (updateOne f u c) end.
    by apply H.
  - unfold cancelNotification.
    pose proof (updateOne_ids (has_id i) (set_status cancelled now) c) as H.
    destruct (updateOne _ _ c). by apply H.
  - unfold cancelRideNotifications.
    pose proof (updateMany_ids (ride_open rideUuid) (set_status cancelled now) c) as H.
    destruct (updateMany _ _ c). by apply H.
Qed.

(** Enqueuing under a fresh identifier keeps the identifiers unique. *)
Lemma addNotification_unique_ids now newId input (c : Collection) :
  NoDup (id <$> c) -> newId ∉ id <$> c ->
  NoDup (id <$> snd (addNotification now newId input c)).
Proof.
  intros Hnd Hfresh. unfold addNotification. simpl.
  rewrite fmap_app. simpl. apply NoDup_app. repeat split; [done| |].
  - intros x Hx Hx'. apply list_elem_of_singleton in Hx' as ->. done.
  - apply NoDup_singleton.
Qed.

End IdFacts.

(** ** The claim operation and the error path of [markNotificationFailed] *)

Module ClaimFacts.

Import NotifyQueue DriverFacts.



(** C10. For an id that no document carries, [markNotificationFailed]
    returns [false] and hands back the very same queue: no status,
    retryCount, scheduledTime or metadata of any item is written. *)
Theorem markNotificationFailed_unknown_id
    (cfg : QueueConfig) (now : Z) (i error : string) (c : Collection) :
  (forall d, d ∈ c -> id d <> i) ->
  markNotificationFailed cfg now i error c = (false, c).
Proof.
  intros Hno. unfold markNotificationFailed.
  rewrite findOne_none; [done|].
  apply Forall_forall. intros d Hd. unfold has_id.
  apply bool_decide_eq_false. by apply Hno.
Qed.

End ClaimFacts.

(** ** Listing: [find], [sort], [limit] *)

Module ListingFacts.

Import NotifyQueue DriverFacts.

Lemma elem_of_find (f : NotificationItem -> bool) (c : Collection) d :
  d ∈ find f c <-> d ∈ c /\ f d = true.
Proof. unfold find. by rewrite !list_elem_of_In, filter_In. Qed.

Lemma elem_of_insert_by cmp x (l : list NotificationItem) d :
  d ∈ insert_by cmp x l <-> d = x \/ d ∈ l.
Proof.
  induction l as [|y l IH]; simpl.
  - by rewrite elem_of_cons.
  - destruct (cmp x y); rewrite ?elem_of_cons, ?IH, ?elem_of_cons; tauto.
Qed.

Lemma elem_of_sort_by cmp (l : list NotificationItem) d :
  d ∈ sort_by cmp l <-> d ∈ l.
Proof.
  induction l as [|y l IH]; simpl; [done|].
  rewrite elem_of_insert_by, IH, elem_of_cons. tauto.
Qed.



Lemma elem_of_limit n (l : list NotificationItem) d : d ∈ limit n l -> d ∈ l.
Proof.
  destruct n; simpl; [done|].
  intros Hd. by apply (subseteq_take (S n) l).
Qed.


(** What [getPendingNotifications] lists is pending and due, whatever the
    limit. *)
Lemma getPendingNotifications_sound lim now (c : Collection) d :
  d ∈ getPendingNotifications lim now c ->
  d ∈ c /\ status d = pending /\ due now d = true.
Proof.
  unfold getPendingNotifications. intros Hd.
  apply elem_of_limit, elem_of_sort_by, elem_of_find in Hd as [Hc Hf].
  apply andb_true_iff in Hf as [Hs Hdue].
  by apply has_status_true in Hs.
Qed.

Lemma updateOne_keeps filter update (c : Collection) d :
  filter d = false -> d ∈ c -> d ∈ snd (updateOne filter update c).
Proof.
  intros Hf. induction c as [|x c IH]; simpl; [done|].
  intros Hd. destruct (filter x) eqn:Hx; simpl.
  - apply elem_of_cons in Hd as [->|Hd]; [congruence|].
    apply elem_of_cons. by right.
  - destruct (updateOne filter update c) as [r c'] eqn:Hu. simpl in *.
    apply elem_of_cons in Hd as [->|Hd]; apply elem_of_cons; [by left|].
    right. by apply IH.
Qed.



Lemma unique_id_eq (c : Collection) x y :
  NoDup (id <$> c) -> x ∈ c -> y ∈ c -> id x = id y -> x = y.
Proof.
  induction c as [|z c IH]; [by intros _ Hx; apply not_elem_of_nil in Hx|].
  rewrite fmap_cons. intros Hnd Hx Hy Heq.
  apply NoDup_cons in Hnd as [Hz Hnd].
  apply elem_of_cons in Hx as [->|Hx]; apply elem_of_cons in Hy as [->|Hy].
  - done.
  - exfalso. apply Hz. rewrite Heq. by apply list_elem_of_fmap_2.
  - exfalso. apply Hz. rewrite <- Heq. by apply list_elem_of_fmap_2.
  - by apply IH.
Qed.

End ListingFacts.

(** ** Eligibility and order of [getPendingNotifications] *)

Module EligibilityFacts.

Import NotifyQueue DriverFacts ListingFacts.




(** Scenario A of the specification: absent one second after the enqueue,
    present eleven seconds after it. *)
Example scenario_A :
  getPendingNotifications 10 1000 [Samples.deferred] = []
  /\ getPendingNotifications 10 11000 [Samples.deferred] = [Samples.deferred].
Proof. by vm_compute. Qed.

End EligibilityFacts.

(** ** The order of the listing *)

Module OrderFacts.

Import NotifyQueue DriverFacts ListingFacts.

Lemma string_order_is_stored_rank (p q : Priority) :
  String.compare (priority_string q) (priority_string p)
  = Nat.compare (stored_rank p) (stored_rank q).
Proof. by destruct p, q. Qed.

Lemma stored_rank_inj p q : stored_rank p = stored_rank q -> p = q.
Proof. by destruct p, q. Qed.

Lemma cmp_not_Gt_precedes a b : priority_createdAt_cmp a b <> Gt -> precedes a b.
Proof.
  unfold priority_createdAt_cmp, precedes.
  rewrite string_order_is_stored_rank.
  destruct (Nat.compare_spec (stored_rank (priority a)) (stored_rank (priority b)))
    as [Heq|Hlt|Hgt]; [|by left|done].
  destruct (Z.compare_spec (createdAt a) (createdAt b)); intros Hz;
    [| |done]; (right; split; [by apply stored_rank_inj|lia]).
Qed.

Lemma cmp_Gt_precedes a b : priority_createdAt_cmp a b = Gt -> precedes b a.
Proof.
  unfold priority_createdAt_cmp, precedes.
  rewrite string_order_is_stored_rank.
  destruct (Nat.compare_spec (stored_rank (priority a)) (stored_rank (priority b)))
    as [Heq|Hlt|Hgt]; [|done|by left].
  destruct (Z.compare_spec (createdAt a) (createdAt b)); intros Hz;
    [done|done|]. right. split; [symmetry; by apply stored_rank_inj|lia].
Qed.

Lemma precedes_trans a b c : precedes a b -> precedes b c -> precedes a c.
Proof.
  unfold precedes. intros [Hab|[Hab Hab']] [Hbc|[Hbc Hbc']].
  - left. lia.
  - left. by rewrite <- Hbc.
  - left. by rewrite Hab.
  - right. split; [congruence|lia].
Qed.

Lemma insert_by_sorted x (l : list NotificationItem) :
  StronglySorted precedes l ->
  StronglySorted precedes (insert_by priority_createdAt_cmp x l).
Proof.
  induction 1 as [|y l Hl IH Hy]; simpl; [by repeat constructor|].
  assert (Hfront : priority_createdAt_cmp x y <> Gt ->
            StronglySorted precedes (x :: y :: l)).
  { intros Hc%cmp_not_Gt_precedes.
    constructor; [by constructor|]. constructor; [done|].
    eapply Forall_impl; [exact Hy|]. intros z Hz. by eapply precedes_trans. }
  destruct (priority_createdAt_cmp x y) eqn:Hc; [by apply Hfront..|].
  constructor; [done|]. apply Forall_forall. intros z Hz.
  apply elem_of_insert_by in Hz as [->|Hz].
  - by apply cmp_Gt_precedes.
  - by apply (proj1 (Forall_forall _ _) Hy).
Qed.

Lemma sort_by_sorted (l : list NotificationItem) :
  StronglySorted precedes (sort_by priority_createdAt_cmp l).
Proof.
  induction l as [|x l IH]; simpl; [constructor|]. by apply insert_by_sorted.
Qed.

Lemma take_sorted n (l : list NotificationItem) :
  StronglySorted precedes l -> StronglySorted precedes (take n l).
Proof.
  intros Hl. revert n. induction Hl as [|x l Hl IH Hx]; intros [|n]; simpl;
    try constructor; [by apply IH|by apply Forall_take].
Qed.

(** The order [getPendingNotifications] really delivers: by the stored
    priority string, descending (urgent, medium, low, high), and by
    [createdAt] ascending within one priority. *)
Lemma getPendingNotifications_sorted lim now (c : Collection) :
  StronglySorted precedes (getPendingNotifications lim now c).
Proof.
  unfold getPendingNotifications, limit.
  destruct lim; [apply sort_by_sorted|apply take_sorted, sort_by_sorted].
Qed.

(** C3 at a concrete queue.  Four pending items created at the same instant,
    one of each priority, are listed urgent, medium, low, high: the low and
    the medium item come before the high one.  With a high and a low item
    alone the low one is listed first, and a turn of the processing loop
    that has room for one claim claims the low item and leaves the high one
    pending. *)
Theorem getPendingNotifications_orders_by_string :
  getPendingNotifications 10 100 Samples.four_tiers
  = [Samples.urgent_item; Samples.medium_item; Samples.low_item; Samples.high_item]
  /\ getPendingNotifications 10 100 [Samples.high_item; Samples.low_item]
     = [Samples.low_item; Samples.high_item]
  /\ (fun d => (id d, status d)) <$>
       snd (processing_turn Samples.one_at_a_time 100 0
              [Samples.high_item; Samples.low_item])
     = [("n-high", pending); ("n-low", processing)].
Proof. by vm_compute. Qed.

End OrderFacts.

Module EligibilityExamples.

Import NotifyQueue EligibilityFacts.



End EligibilityExamples.

(** ** Cancellation by ride *)

Module CancelFacts.

Import NotifyQueue DriverFacts ListingFacts.

Lemma updateMany_spec filter update (c : Collection) :
  updateMany filter update c
  = ({| matchedCount := length (find filter c);
        modifiedCount := sum_list_with (changes update) (find filter c) |},
     (fun d => if filter d then update d else d) <$> c).
Proof.
  induction c as [|d c IH]; [done|].
  simpl. rewrite IH. unfold find. simpl.
  by destruct (filter d).
Qed.

Lemma ride_open_spec rideUuid d :
  ride_open rideUuid d = true <->
  rideRequestUuid (metadata d) = Some rideUuid
  /\ (status d = pending \/ status d = processing).
Proof.
  unfold ride_open.
  rewrite andb_true_iff, orb_true_iff, bool_decide_eq_true, !has_status_true.
  done.
Qed.

Lemma ride_open_changes now rideUuid (l : Collection) :
  Forall (fun d => ride_open rideUuid d = true) l ->
  sum_list_with (changes (set_status cancelled now)) l = length l.
Proof.
  induction 1 as [|d l Hd _ IH]; simpl; [done|].
  rewrite IH, set_status_changes; [done|].
  apply ride_open_spec in Hd as [_ [Hs|Hs]]; by rewrite Hs.
Qed.

Lemma cancelRideNotifications_eq (now : Z) (rideUuid : string) (c : Collection) :
  cancelRideNotifications now rideUuid c
  = (length (find (ride_open rideUuid) c),
     (fun d => if ride_open rideUuid d then set_status cancelled now d else d) <$> c).
Proof.
  unfold cancelRideNotifications. rewrite updateMany_spec. simpl.
  rewrite (ride_open_changes now rideUuid); [done|].
  apply Forall_forall. intros d Hd. by apply elem_of_find in Hd as [_ ?].
Qed.

Lemma count_open_find rideUuid (c : Collection) :
  length (find (ride_open rideUuid) c)
  = length (List.filter
      (fun d => bool_decide (rideRequestUuid (metadata d) = Some rideUuid
                             /\ (status d = pending \/ status d = processing)))
      c).
Proof.
  unfold find. induction c as [|d c IH]; [done|]. simpl.
  destruct (ride_open rideUuid d) eqn:Ho.
  - apply ride_open_spec in Ho. rewrite bool_decide_eq_true_2 by done.
    simpl. by rewrite IH.
  - rewrite bool_decide_eq_false_2; [done|].
    intros Ho'. apply ride_open_spec in Ho'. congruence.
Qed.

Lemma cancelled_count_grows now rideUuid (c : Collection) :
  length (List.filter (fun d => bool_decide (status d = cancelled))
            ((fun d => if ride_open rideUuid d
                       then set_status cancelled now d else d) <$> c))
  = (length (List.filter (fun d => bool_decide (status d = cancelled)) c)
     + length (find (ride_open rideUuid) c))%nat.
Proof.
  unfold find. induction c as [|d c IH]; [done|].
  rewrite fmap_cons. simpl. destruct (ride_open rideUuid d) eqn:Ho; simpl.
  - apply ride_open_spec in Ho as [_ Ho].
    rewrite (bool_decide_eq_false_2 (status d = cancelled))
      by (destruct Ho as [-> | ->]; done).
    rewrite IH. lia.
  - destruct (bool_decide (status d = cancelled)); simpl; rewrite IH; lia.
Qed.

(** C6.  [cancelRideNotifications] rewrites the queue document by document
    and keeps its length and order.  A document whose
    [metadata.rideRequestUuid] is the ride and whose status is pending or
    processing gets the status [cancelled] and [updatedAt = now], and keeps
    every other field; every other document -- the sent, failed and
    cancelled ones of the ride and all documents of other rides -- is left
    exactly as it was.  The number returned is the number of documents that
    were tied to the ride and pending or processing, which is also the
    number by which the cancelled documents have grown; and afterwards no
    document tied to the ride is pending or processing. *)
Theorem cancelRideNotifications_cancels_open
    (now : Z) (rideUuid : string) (c : Collection) :
  let r := cancelRideNotifications now rideUuid c in
  let open d :=
    rideRequestUuid (metadata d) = Some rideUuid
    /\ (status d = pending \/ status d = processing) in
  length (snd r) = length c
  /\ (forall k d, c !! k = Some d -> open d ->
        exists d', snd r !! k = Some d'
          /\ status d' = cancelled /\ updatedAt d' = now
          /\ id d' = id d /\ type d' = type d /\ recipient d' = recipient d
          /\ message d' = message d /\ priority d' = priority d
          /\ scheduledTime d' = scheduledTime d
          /\ retryCount d' = retryCount d /\ maxRetries d' = maxRetries d
          /\ metadata d' = metadata d /\ createdAt d' = createdAt d)
  /\ (forall k d, c !! k = Some d -> ~ open d -> snd r !! k = Some d)
  /\ fst r = length (List.filter (fun d => bool_decide (open d)) c)
  /\ length (List.filter (fun d => bool_decide (status d = cancelled)) (snd r))
     = (length (List.filter (fun d => bool_decide (status d = cancelled)) c)
        + fst r)%nat
  /\ (forall d', d' ∈ snd r ->
        rideRequestUuid (metadata d') = Some rideUuid ->
        status d' <> pending /\ status d' <> processing).
Proof.
  cbn zeta. rewrite cancelRideNotifications_eq. cbn [fst snd].
  split; [by rewrite length_fmap|]. split; [|split; [|split; [|split]]].
  - intros k d Hk Ho. exists (set_status cancelled now d). split; [|done].
    rewrite list_lookup_fmap, Hk. simpl.
    by rewrite (proj2 (ride_open_spec rideUuid d) Ho).
  - intros k d Hk Ho. rewrite list_lookup_fmap, Hk. simpl.
    destruct (ride_open rideUuid d) eqn:Ho'; [|done].
    apply ride_open_spec in Ho'. done.
  - apply count_open_find.
  - apply cancelled_count_grows.
  - intros d' Hd' Hride.
    apply list_elem_of_fmap in Hd' as (d & -> & Hd).
    destruct (ride_open rideUuid d) eqn:Ho; [by split|].
    split; intros Hs; apply (proj2 (not_true_iff_false _) Ho);
      apply ride_open_spec; auto.
Qed.

Lemma cancelRideNotifications_cancels_open_witness :
  exists d',
    snd (cancelRideNotifications 50 "42" Samples.ride_queue) !! 1%nat = Some d'
    /\ status d' = cancelled /\ id d' = "r2".
Proof.
  destruct (proj1 (proj2 (cancelRideNotifications_cancels_open 50 "42"
              Samples.ride_queue)) 1%nat
              (Samples.item "r2" high processing absent
                 (Samples.ride_metadata "42") 1))
    as (d' & Hd' & Hs & _ & Hid & _).
  - reflexivity.
  - split; [reflexivity|by right].
  - exists d'. split; [exact Hd'|]. split; [exact Hs|exact Hid].
Defined.

(** Read document by document: the open documents of the ride become
    cancelled, every other document stays. *)
Corollary cancelRideNotifications_pointwise
    (now : Z) (rideUuid : string) (c : Collection) (k : nat) d :
  c !! k = Some d ->
  snd (cancelRideNotifications now rideUuid c) !! k
  = Some (if bool_decide (rideRequestUuid (metadata d) = Some rideUuid
                          /\ (status d = pending \/ status d = processing))
          then set_status cancelled now d else d).
Proof.
  intros Hk.
  rewrite cancelRideNotifications_eq. cbn [snd].
  rewrite list_lookup_fmap, Hk. simpl. f_equal.
  destruct (ride_open rideUuid d) eqn:Ho.
  - apply ride_open_spec in Ho. by rewrite bool_decide_eq_true_2.
  - rewrite bool_decide_eq_false_2; [done|].
    intros Ho'. apply ride_open_spec in Ho'. congruence.
Qed.

(** Ride 42 has a pending, a processing and a sent notification, ride 7 a
    pending one: cancelling ride 42 cancels two. *)
Example cancel_ride_42 :
  let r := cancelRideNotifications 50 "42" Samples.ride_queue in
  fst r = 2%nat
  /\ (fun d => (id d, status d)) <$> snd r
     = [("r1", cancelled); ("r2", cancelled); ("r3", sent); ("r4", pending)].
Proof. by vm_compute. Qed.

End CancelFacts.

(** ** The unguarded updates: sent, failed, cancelled *)

Module TransitionFacts.

Import NotifyQueue DriverFacts.

(** [cancelNotification] and [markNotificationSent] look at the id only:
    the first document with the id is rewritten whatever its status. *)
Lemma cancelNotification_first now i (l1 l2 : Collection) d :
  Forall (fun x => has_id i x = false) l1 ->
  id d = i ->
  snd (cancelNotification now i (l1 ++ d :: l2))
  = l1 ++ set_status cancelled now d :: l2.
Proof.
  intros Hl1 Hd. unfold cancelNotification.
  rewrite updateOne_first; [done|done|by apply has_id_true].
Qed.

Lemma markNotificationSent_first now i (l1 l2 : Collection) d :
  Forall (fun x => has_id i x = false) l1 ->
  id d = i ->
  snd (markNotificationSent now i (l1 ++ d :: l2))
  = l1 ++ set_status sent now d :: l2.
Proof.
  intros Hl1 Hd. unfold markNotificationSent.
  rewrite updateOne_first; [done|done|by apply has_id_true].
Qed.

Lemma failed_update_changes s n sched now error d :
  n <> retryCount d -> changes (failed_update s n sched now error) d = 1%nat.
Proof.
  intros Hne. unfold changes. rewrite bool_decide_eq_false_2; [done|].
  intros Heq. apply Hne. by rewrite <- Heq.
Qed.

(** [markNotificationFailed] on the first document that carries the id: the
    counter is incremented in every case, the status is [pending] while the
    counter it read was below [config.maxRetries] and [failed] otherwise. *)
Lemma markNotificationFailed_first cfg now i error (l1 l2 : Collection) d :
  Forall (fun x => has_id i x = false) l1 ->
  id d = i ->
  markNotificationFailed cfg now i error (l1 ++ d :: l2)
  = (true,
     l1 ++
     failed_update
       (if bool_decide (retryCount d < cfg_maxRetries cfg)%nat
        then pending else failed)
       (retryCount d + 1)
       (if bool_decide (retryCount d < cfg_maxRetries cfg)%nat
        then at_time (now + retryDelay_at cfg (retryCount d)) else null)
       now error d
     :: l2).
Proof.
  intros Hl1 Hd. unfold markNotificationFailed.
  apply has_id_true in Hd.
  rewrite findOne_first by done.
  rewrite updateOne_first by done.
  rewrite failed_update_changes by lia. simpl.
  by destruct (bool_decide (retryCount d < cfg_maxRetries cfg)%nat).
Qed.

(** The counter after a failure of an exhausted item is above the bound. *)
Lemma markNotificationFailed_exceeds cfg now i error (c : Collection) d :
  id d = i ->
  retryCount d = cfg_maxRetries cfg ->
  (retryCount <$> snd (markNotificationFailed cfg now i error (d :: c)))
  = S (cfg_maxRetries cfg) :: (retryCount <$> c).
Proof.
  intros Hi Hr.
  pose proof (markNotificationFailed_first cfg now i error [] c d) as Hf.
  simpl in Hf. rewrite Hf by done.
  simpl. f_equal. lia.
Qed.

Lemma follows_edges_refl (c : Collection) : Forall2 follows_edges c c.
Proof. induction c; constructor; [by left|done]. Qed.

(** The two guarded updates keep every document on the edges of the status
    graph. *)
Lemma markNotificationProcessing_follows_edges now i (c : Collection) :
  Forall2 follows_edges c (snd (markNotificationProcessing now i c)).
Proof.
  unfold markNotificationProcessing.
  induction c as [|d c IH]; simpl; [constructor|].
  destruct (has_id i d && has_status pending d) eqn:Hf; simpl.
  - apply andb_true_iff in Hf as [_ Hs%has_status_true].
    constructor; [|apply follows_edges_refl].
    right. simpl. rewrite Hs. constructor.
  - destruct (updateOne _ _ c) as [r c']. simpl in *.
    constructor; [by left|done].
Qed.

Lemma cancelRideNotifications_follows_edges now rideUuid (c : Collection) :
  Forall2 follows_edges c (snd (cancelRideNotifications now rideUuid c)).
Proof.
  unfold cancelRideNotifications.
  induction c as [|d c IH]; simpl; [constructor|].
  destruct (updateMany _ _ c) as [r c']. simpl in *.
  destruct (ride_open rideUuid d) eqn:Hf; simpl.
  - constructor; [|done]. right. simpl.
    unfold ride_open in Hf.
    apply andb_true_iff in Hf as [_ Hs].
    apply orb_true_iff in Hs as [Hs%has_status_true|Hs%has_status_true];
      rewrite Hs; constructor.
  - constructor; [by left|done].
Qed.

(** C1 at concrete queues: the status guard is missing from three methods.
    [cancelNotification] succeeds on a sent, on a failed and on a cancelled
    item (sent -> cancelled, failed -> cancelled); [markNotificationSent]
    moves a pending, a failed and a cancelled item to sent; and
    [markNotificationFailed] takes a sent item back to pending. *)
Theorem status_guard_missing :
  (let r := cancelNotification 9 "n1" [Samples.in_status sent] in
   (fst r, status <$> snd r) = (true, [cancelled]))
  /\ (let r := cancelNotification 9 "n1" [Samples.in_status failed] in
      (fst r, status <$> snd r) = (true, [cancelled]))
  /\ (let r := cancelNotification 9 "n1" [Samples.in_status cancelled] in
      (fst r, status <$> snd r) = (true, [cancelled]))
  /\ (let r := markNotificationSent 9 "n1" [Samples.in_status pending] in
      (fst r, status <$> snd r) = (true, [sent]))
  /\ (let r := markNotificationSent 9 "n1" [Samples.in_status failed] in
      (fst r, status <$> snd r) = (true, [sent]))
  /\ (let r := markNotificationSent 9 "n1" [Samples.in_status cancelled] in
      (fst r, status <$> snd r) = (true, [sent]))
  /\ (let r := markNotificationFailed defaultConfig 9 "n1" "late receipt"
                 [Samples.in_status sent] in
      (fst r, status <$> snd r) = (true, [pending])).
Proof. by vm_compute. Qed.

(** C2 at the scenario: an item enqueued with [maxRetries = 3] is still
    pending after three reported failures, with [retryCount = 3] and a new
    [scheduledTime]; the fourth failure is the one that makes it failed, and
    it raises [retryCount] to 4, above [maxRetries]. *)
Theorem three_failures_leave_pending :
  Samples.summary <$> Samples.enqueued = [(pending, 0%nat, 3%nat, absent)]
  /\ Samples.summary <$> Samples.after_three_failures
     = [(pending, 3%nat, 3%nat, at_time 23000)]
  /\ Samples.summary <$> Samples.after_four_failures
     = [(failed, 4%nat, 3%nat, null)].
Proof. by vm_compute. Qed.

End TransitionFacts.

(** ** The dispatch tick *)

Module TickFacts.

Import NotifyQueue DispatchBot.

(** C7 at concrete queues, for every behaviour of the sender.  The age that
    [processNotificationQueue] compares with 30 seconds is [now - createdAt],
    and the comparison is made for the pending items of the listing as well.
    A pending item created 31 seconds ago is put through
    [markNotificationFailed] without any send attempt (it loses a retry and
    is rescheduled); and an item that was claimed at this very instant, but
    created 40 seconds ago, is failed in the same way. *)
Theorem tick_fails_by_age_since_creation (sendSMS : NotificationItem -> bool) :
  (let st := snd (processNotificationQueue sendSMS defaultConfig 31000
                    {| queue := [Samples.first_pending]; smsAttempts := [] |}) in
   smsAttempts st = []
   /\ Samples.tick_summary <$> queue st
      = [("n1", pending, 1%nat,
          ["Timeout: Stuck in processing for over 30 seconds"])])
  /\ (let st := snd (processNotificationQueue sendSMS defaultConfig 40000
                       {| queue := [Samples.just_claimed]; smsAttempts := [] |}) in
      smsAttempts st = []
      /\ Samples.tick_summary <$> queue st
         = [("n5", pending, 1%nat,
             ["Timeout: Stuck in processing for over 30 seconds"])]).
Proof. by vm_compute. Qed.

(** Below the threshold the tick hands the item to the sender, pending or
    processing alike, and records the outcome. *)
Example tick_sends_young_items :
  let st := snd (processNotificationQueue (fun _ => true) defaultConfig 1000
                   {| queue := [Samples.first_pending; Samples.claimed];
                      smsAttempts := [] |}) in
  id <$> smsAttempts st = ["n1"; "n4"]
  /\ status <$> queue st = [sent; sent].
Proof. by vm_compute. Qed.

End TickFacts.

(** ** The status translator *)

Module TranslatorFacts.

Import RideEvents DispatchBot.

(** C8.  For the ride status 300 the translator creates one event: the log
    of [emit] grows by exactly one entry, of type [RIDER_PICKED_UP], whose
    event has that type, the [serviceUserUuid] and the [uuid] of the ride
    record; the same event is the one stored in [rideEvents], and the
    handlers registered for [RIDER_PICKED_UP], and only they, run once on
    it, in registration order. *)
Theorem status_300_emits_one_RIDER_PICKED_UP {W : Type}
    (eventHandlers : Registry W) (eid : string) (now : Z)
    (rideRequest : RideRequest) (previousStatus : Z) (st : State W) :
  let st' := snd (handleAutomaticRideStatusChange eventHandlers eid now
                    rideRequest 300 previousStatus st) in
  exists event,
    emitted st' = emitted st ++ [(RIDER_PICKED_UP, event)]
    /\ rideEvents st' = rideEvents st ++ [event]
    /\ eventType event = RIDER_PICKED_UP
    /\ serviceUserUuid event = rr_serviceUserUuid rideRequest
    /\ rideRequestUuid event = uuid rideRequest
    /\ world st'
       = foldl (fun w handler => after (handler event w)) (world st)
           (eventHandlers RIDER_PICKED_UP).
Proof.
  simpl. eexists. repeat split.
Qed.

(** Every status code yields at most one event, and the codes outside the
    table yield none. *)
Lemma translator_at_most_one_event {W : Type}
    (eventHandlers : Registry W) (eid : string) (now : Z)
    (rideRequest : RideRequest) (newStatus previousStatus : Z) (st : State W) :
  let st' := snd (handleAutomaticRideStatusChange eventHandlers eid now
                    rideRequest newStatus previousStatus st) in
  emitted st' = emitted st
  \/ exists ty event, emitted st' = emitted st ++ [(ty, event)]
       /\ eventType event = ty
       /\ serviceUserUuid event = rr_serviceUserUuid rideRequest.
Proof.
  unfold handleAutomaticRideStatusChange.
  repeat (case_match; [right; eexists _, _; by repeat split|]).
  by left.
Qed.

(** The workflow status space is translated by its own table: there the
    code 300 ("vehicle needed") creates no event. *)
Lemma workflow_300_emits_nothing {W : Type}
    (eventHandlers : Registry W) (eid : string) (now : Z)
    (rideRequest : RideRequest) (previousStatus : Z) (st : State W) :
  snd (handleAutomaticRideRequestStatusChange eventHandlers eid now
         rideRequest 300 previousStatus st) = st.
Proof. reflexivity. Qed.

End TranslatorFacts.

(** ** The statistics *)

Module StatsFacts.

Import NotifyQueue.

Lemma status_string_inj s1 s2 : status_string s1 = status_string s2 -> s1 = s2.
Proof. by destruct s1, s2. Qed.

Lemma status_string_not_total s : status_string s <> "total".
Proof. by destruct s. Qed.

Section Fold.

(** The results of the [$group] stage for the statuses [L], with [n s]
    documents of status [s]. *)
Variable n : Status -> nat.

Lemma fold_total (L : list Status) (m : gmap string nat) (t : nat) :
  m !! "total" = Some t ->
  foldl add_result m ((fun s => (s, n s)) <$> L) !! "total" = Some (t + sum_list_with n L)%nat.
Proof.
  revert m t. induction L as [|s L IH]; intros m t Hm; simpl.
  - by rewrite Nat.add_0_r.
  - rewrite (IH _ (t + n s)%nat); [f_equal; lia|].
    unfold add_result. simpl. rewrite lookup_insert_eq.
    rewrite lookup_insert_ne by apply status_string_not_total.
    by rewrite Hm.
Qed.

Lemma fold_other (k : string) (L : list Status) (m : gmap string nat) :
  k <> "total" ->
  (forall s, s ∈ L -> status_string s <> k) ->
  foldl add_result m ((fun s => (s, n s)) <$> L) !! k = m !! k.
Proof.
  intros Hk. revert m. induction L as [|s L IH]; intros m HL; simpl; [done|].
  rewrite IH by (intros s' Hs'; apply HL, elem_of_cons; by right).
  unfold add_result. simpl.
  rewrite lookup_insert_ne by done.
  rewrite lookup_insert_ne; [done|]. apply HL, elem_of_cons. by left.
Qed.

Lemma fold_status (s : Status) (L : list Status) (m : gmap string nat) :
  s ∈ L ->
  foldl add_result m ((fun s => (s, n s)) <$> L) !! status_string s = Some (n s).
Proof.
  revert m. induction L as [|s' L IH]; intros m Hs; simpl.
  - by apply not_elem_of_nil in Hs.
  - destruct (decide (s ∈ L)) as [HL|HL]; [by apply IH|].
    apply elem_of_cons in Hs as [->|Hs]; [|done].
    rewrite fold_other.
    + unfold add_result. simpl.
      rewrite lookup_insert_ne by (intros Heq; by apply (status_string_not_total s')).
      by rewrite lookup_insert_eq.
    + apply status_string_not_total.
    + intros s Hs Heq. apply status_string_inj in Heq as ->. done.
Qed.

End Fold.

Lemma count_status_cons s d (c : Collection) :
  count_status s (d :: c)
  = ((if has_status s d then 1 else 0) + count_status s c)%nat.
Proof. unfold count_status, find. simpl. by destruct (has_status s d). Qed.

Lemma count_status_absent s (c : Collection) :
  s ∉ status <$> c -> count_status s c = 0%nat.
Proof.
  induction c as [|d c IH]; [done|].
  rewrite fmap_cons, not_elem_of_cons, count_status_cons. intros [Hne Hs].
  rewrite IH by done. unfold has_status.
  by rewrite bool_decide_eq_false_2.
Qed.

(** The five counts add up to the number of documents. *)
Lemma count_status_partition (c : Collection) :
  (count_status pending c + count_status processing c + count_status sent c
   + count_status failed c + count_status cancelled c)%nat = length c.
Proof.
  induction c as [|d c IH]; [done|].
  rewrite !count_status_cons. simpl. rewrite <- IH.
  unfold has_status. destruct (status d); simpl; lia.
Qed.

Lemma sum_indicator (s0 : Status) (L : list Status) :
  NoDup L -> s0 ∈ L ->
  sum_list_with (fun s => if bool_decide (s0 = s) then 1 else 0)%nat L = 1%nat.
Proof.
  induction 1 as [|s L Hs Hnd IH]; intros Hin; simpl.
  - by apply not_elem_of_nil in Hin.
  - apply elem_of_cons in Hin as [->|Hin].
    + rewrite bool_decide_eq_true_2 by done.
      assert (sum_list_with (fun s' => if bool_decide (s = s') then 1 else 0)%nat L
              = 0%nat) as ->; [|done].
      clear IH Hnd. induction L as [|s' L IH]; simpl; [done|].
      apply not_elem_of_cons in Hs as [Hne Hs].
      by rewrite bool_decide_eq_false_2, IH.
    + rewrite bool_decide_eq_false_2 by (intros ->; done).
      by rewrite IH.
Qed.

(** The counts of the groups add up to the number of documents. *)
Lemma sum_group_counts (L : list Status) (c : Collection) :
  NoDup L ->
  (forall d, d ∈ c -> status d ∈ L) ->
  sum_list_with (fun s => count_status s c) L = length c.
Proof.
  intros Hnd. induction c as [|d c IH]; intros Hc; simpl.
  - clear Hnd Hc. induction L as [|s L IH]; simpl; [done|]. by rewrite IH.
  - assert (sum_list_with (fun s => count_status s (d :: c)) L
            = (sum_list_with
                 (fun s => if bool_decide (status d = s) then 1 else 0) L
               + sum_list_with (fun s => count_status s c) L)%nat) as ->.
    { clear. induction L as [|s L IH]; simpl; [done|].
      rewrite count_status_cons, IH. unfold has_status. lia. }
    rewrite sum_indicator by (try done; apply Hc, elem_of_cons; by left).
    rewrite IH; [done|]. intros d' Hd'. apply Hc, elem_of_cons. by right.
Qed.

Lemma count_status_present s (c : Collection) :
  s ∈ status <$> c -> count_status s c <> 0%nat.
Proof.
  induction c as [|d c IH]; [by intros ?%not_elem_of_nil|].
  rewrite fmap_cons, elem_of_cons, count_status_cons. unfold has_status.
  intros [->|Hs].
  - rewrite bool_decide_eq_true_2 by done. lia.
  - apply IH in Hs. lia.
Qed.

(** The entry of a status in the returned object: its count when the status
    occurs, and what the object literal held for it otherwise. *)
Lemma getQueueStats_status s (c : Collection) :
  getQueueStats c !! status_string s
  = if decide (s ∈ status <$> c) then Some (count_status s c)
    else initial_stats !! status_string s.
Proof.
  unfold getQueueStats, group_by_status. destruct (decide _) as [Hs|Hs].
  - apply (fold_status (fun s => count_status s c)). by apply elem_of_remove_dups.
  - apply (fold_other (fun s => count_status s c)).
    + apply status_string_not_total.
    + intros s' Hs' Heq. apply status_string_inj in Heq as ->.
      apply Hs. by apply elem_of_remove_dups.
Qed.

Lemma getQueueStats_total (c : Collection) :
  getQueueStats c !! "total" = Some (length c).
Proof.
  unfold getQueueStats, group_by_status.
  rewrite (fold_total (fun s => count_status s c) _ _ 0%nat) by done.
  rewrite sum_group_counts; [done|apply NoDup_remove_dups|].
  intros d Hd. apply elem_of_remove_dups. by apply list_elem_of_fmap_2.
Qed.

Lemma getQueueStats_declared s (c : Collection) :
  initial_stats !! status_string s = Some 0%nat ->
  getQueueStats c !! status_string s = Some (count_status s c).
Proof.
  intros Hinit. rewrite getQueueStats_status. destruct (decide _) as [Hs|Hs]; [done|].
  by rewrite count_status_absent.
Qed.

(** C9, as the code has it.  The object [getQueueStats] returns holds the
    counts of the pending, processing, sent and failed documents under these
    four keys, always; it holds a key [cancelled], with the count of the
    cancelled documents, exactly when there is a cancelled document; its
    [total] is the sum of all five counts (the number of documents), so it
    exceeds the sum of the four declared fields by the number of cancelled
    items; and it has no other key. *)
Theorem getQueueStats_counts (c : Collection) :
  let stats := getQueueStats c in
  stats !! "pending" = Some (count_status pending c)
  /\ stats !! "processing" = Some (count_status processing c)
  /\ stats !! "sent" = Some (count_status sent c)
  /\ stats !! "failed" = Some (count_status failed c)
  /\ stats !! "cancelled"
     = (if decide (count_status cancelled c = 0%nat) then None
        else Some (count_status cancelled c))
  /\ stats !! "total"
     = Some (count_status pending c + count_status processing c
             + count_status sent c + count_status failed c
             + count_status cancelled c)%nat
  /\ dom stats ⊆ {[ "pending"; "processing"; "sent"; "failed"; "cancelled"; "total" ]}.
Proof.
  simpl. repeat split.
  - by apply (getQueueStats_declared pending).
  - by apply (getQueueStats_declared processing).
  - by apply (getQueueStats_declared sent).
  - by apply (getQueueStats_declared failed).
  - rewrite (getQueueStats_status cancelled).
    destruct (decide (cancelled ∈ _)) as [Hs|Hs].
    + rewrite decide_False; [done|by apply count_status_present].
    + rewrite decide_True; [done|by apply count_status_absent].
  - by rewrite count_status_partition, getQueueStats_total.
  - intros k Hk. apply elem_of_dom in Hk as [v Hv].
    destruct (decide (k = "total")) as [->|Htotal]; [set_solver|].
    destruct (decide (k = "pending")) as [->|?]; [set_solver|].
    destruct (decide (k = "processing")) as [->|?]; [set_solver|].
    destruct (decide (k = "sent")) as [->|?]; [set_solver|].
    destruct (decide (k = "failed")) as [->|?]; [set_solver|].
    destruct (decide (k = "cancelled")) as [->|?]; [set_solver|].
    exfalso. unfold getQueueStats, group_by_status in Hv.
    rewrite (fold_other (fun s => count_status s c)) in Hv; [|done|].
    + unfold initial_stats in Hv.
      rewrite !lookup_insert_ne, lookup_empty in Hv by done. done.
    + intros s _. by destruct s.
Qed.

(** The claim C9 as it is worded fails on the key [cancelled]: with one
    cancelled document in the queue, the object has that key. *)
Lemma getQueueStats_has_cancelled_key :
  getQueueStats [Samples.in_status cancelled] !! "cancelled" = Some 1%nat
  /\ getQueueStats [Samples.in_status cancelled] !! "total" = Some 1%nat.
Proof. by vm_compute. Qed.

End StatsFacts.

(** ** The general statements at concrete queues *)

Module Witnesses.

Import NotifyQueue ClaimFacts.



(** Scenario E: two claims of one pending item, one after the other. *)
Example scenario_E :
  let first := markNotificationProcessing 10 "n1" Samples.two_pending in
  let second := markNotificationProcessing 11 "n1" (snd first) in
  fst first = true /\ fst second = false
  /\ status <$> snd second = [processing; pending].
Proof. by vm_compute. Qed.

Lemma markNotificationFailed_unknown_id_witness :
  markNotificationFailed defaultConfig 5 "n9" "SMS sending failed"
    Samples.two_pending
  = (false, Samples.two_pending).
Proof.
  apply (markNotificationFailed_unknown_id defaultConfig 5 "n9"
           "SMS sending failed" Samples.two_pending).
  intros d Hd.
  apply elem_of_cons in Hd as [->|Hd]; [by vm_compute|].
  apply elem_of_cons in Hd as [->|Hd]; [by vm_compute|].
  by apply not_elem_of_nil in Hd.
Defined.

End Witnesses.
(** * Further properties of the queue *)

(** ** The order of the two listings *)

Module ListingOrder.

Import NotifyQueue OrderFacts.

Lemma strongly_sorted_lookup (l : list NotificationItem) (i j : nat) a b :
  StronglySorted precedes l -> (i < j)%nat ->
  l !! i = Some a -> l !! j = Some b -> precedes a b.
Proof.
  intros Hl. revert i j. induction Hl as [|x l Hl IH Hx]; intros i j Hij Hi Hj.
  - done.
  - destruct j as [|j]; [lia|]. simpl in Hj. destruct i as [|i]; simpl in Hi.
    + injection Hi as ->.
      apply (proj1 (Forall_forall _ _) Hx). by eapply list_elem_of_lookup_2.
    + eapply (IH i j); [lia|done..].
Qed.

Lemma getProcessingNotifications_sorted lim (c : Collection) :
  StronglySorted precedes (getProcessingNotifications lim c).
Proof.
  unfold getProcessingNotifications, limit.
  destruct lim; [apply sort_by_sorted|apply take_sorted, sort_by_sorted].
Qed.

(** X1.  In both listings, of two items the one at the earlier position
    either has the priority whose stored string sorts higher (urgent, then
    medium, then low, then high), or has the same priority and was not
    created later. *)
Theorem listings_pairwise_ordered
    (lim : nat) (now : Z) (c : Collection) (i j : nat) (a b : NotificationItem) :
  (i < j)%nat ->
  (getPendingNotifications lim now c !! i = Some a ->
   getPendingNotifications lim now c !! j = Some b -> precedes a b)
  /\ (getProcessingNotifications lim c !! i = Some a ->
      getProcessingNotifications lim c !! j = Some b -> precedes a b).
Proof.
  intros Hij. split; intros Hi Hj.
  - eapply strongly_sorted_lookup; [apply getPendingNotifications_sorted|done..].
  - eapply strongly_sorted_lookup; [apply getProcessingNotifications_sorted|done..].
Qed.

Lemma listings_pairwise_ordered_witness :
  precedes Samples.urgent_item Samples.high_item.
Proof.
  apply (proj1 (listings_pairwise_ordered 10 100 Samples.four_tiers 0 3
                  Samples.urgent_item Samples.high_item ltac:(lia)));
    reflexivity.
Defined.

End ListingOrder.

(** ** What the updates write *)

Module WrittenFields.

Import NotifyQueue QueueMore DriverFacts.

Lemma related_refl (R : NotificationItem -> NotificationItem -> Prop)
    (c : Collection) :
  (forall d, R d d) -> Forall2 R c c.
Proof. intros Hrefl. induction c; by constructor. Qed.

Lemma updateOne_related (R : NotificationItem -> NotificationItem -> Prop)
    filter update (c : Collection) :
  (forall d, R d d) -> (forall d, filter d = true -> R d (update d)) ->
  Forall2 R c (snd (updateOne filter update c)).
Proof.
  intros Hrefl Hupd. induction c as [|d c IH]; [constructor|].
  cbn [updateOne]. destruct (filter d) eqn:Hf; cbn [snd].
  - constructor; [by apply Hupd|by apply related_refl].
  - destruct (updateOne filter update c) as [r c']. cbn [snd] in *.
    by constructor.
Qed.


Lemma only_status_written_refl d : only_status_written d d.
Proof. unfold only_status_written. by destruct d. Qed.

Lemma only_status_written_set s now d : only_status_written d (set_status s now d).
Proof. reflexivity. Qed.


Lemma failure_step_refl d : failure_step d d.
Proof. unfold failure_step, same_identity. repeat split; auto; lia. Qed.

Lemma markNotificationFailed_related cfg now i error (c : Collection) :
  Forall2 failure_step c (snd (markNotificationFailed cfg now i error c)).
Proof.
  destruct (first_match (has_id i) c) as [Hnone|(l1 & d & l2 & -> & Hl1 & Hd)].
  - unfold markNotificationFailed. rewrite findOne_none by done.
    apply related_refl, failure_step_refl.
  - unfold markNotificationFailed.
    rewrite findOne_first, updateOne_first by done. cbn [snd].
    apply Forall2_app; [apply related_refl, failure_step_refl|].
    constructor; [|apply related_refl, failure_step_refl].
    unfold failure_step, same_identity. simpl.
    repeat split; auto; try lia. right. by eexists.
Qed.

(** X3.  [markNotificationFailed] never touches the identity fields of a
    document (id, type, recipient, message, priority, maxRetries,
    createdAt) nor its tie to a ride; document by document the retry count
    stays or grows by exactly one and the error log only ever gains an entry
    at its end.  The queue keeps its length, and at most one document is
    changed. *)
Theorem markNotificationFailed_keeps_identity
    (cfg : QueueConfig) (now : Z) (i error : string) (c : Collection) :
  let c' := snd (markNotificationFailed cfg now i error c) in
  Forall2 failure_step c c'
  /\ length c' = length c
  /\ ((exists l1 l2 d d', c = l1 ++ d :: l2 /\ c' = l1 ++ d' :: l2) \/ c' = c).
Proof.
  cbn zeta. split; [apply markNotificationFailed_related|]. split.
  - symmetry. eapply Forall2_length, markNotificationFailed_related.
  - destruct (first_match (has_id i) c) as [Hnone|(l1 & d & l2 & -> & Hl1 & Hd)].
    + right. unfold markNotificationFailed. by rewrite findOne_none.
    + left. unfold markNotificationFailed.
      rewrite findOne_first, updateOne_first by done. cbn [snd].
      by eexists _, _, _, _.
Qed.

End WrittenFields.

(** ** Retry, terminal states and unknown ids *)

Module RetryFacts.

Import NotifyQueue QueueMore DriverFacts ListingFacts TransitionFacts.

Lemma unique_split (i : string) (c : Collection) d :
  NoDup (id <$> c) -> d ∈ c -> id d = i ->
  exists l1 l2, c = l1 ++ d :: l2
    /\ Forall (fun x => has_id i x = false) l1
    /\ Forall (fun x => has_id i x = false) l2.
Proof.
  intros Hnd Hd Hi. apply list_elem_of_split in Hd as (l1 & l2 & ->).
  exists l1, l2. split; [done|]. by apply (unique_id_split i l1 l2 d).
Qed.

(** In a queue where only [d'] carries the id [i], whatever a listing holds
    under that id is [d']. *)
Lemma listed_under_id (i : string) (l1 l2 : Collection) d' lim t x :
  Forall (fun x => has_id i x = false) l1 ->
  Forall (fun x => has_id i x = false) l2 ->
  x ∈ getPendingNotifications lim t (l1 ++ d' :: l2) -> id x = i ->
  x = d' /\ status d' = pending /\ due t d' = true.
Proof.
  intros Hl1 Hl2 Hx Hi.
  apply getPendingNotifications_sound in Hx as (Hin & Hs & Hdue).
  apply elem_of_app in Hin as [Hin|Hin].
  - apply (proj1 (Forall_forall _ _) Hl1) in Hin.
    apply (proj2 (has_id_true i x)) in Hi. congruence.
  - apply elem_of_cons in Hin as [->|Hin]; [done|].
    apply (proj1 (Forall_forall _ _) Hl2) in Hin.
    apply (proj2 (has_id_true i x)) in Hi. congruence.
Qed.

Lemma retryDelay_at_positive cfg n :
  Forall (fun delay => 0 <= delay) (retryDelays cfg) -> 0 < retryDelay_at cfg n.
Proof.
  intros Hall. unfold retryDelay_at.
  destruct (retryDelays cfg !! n) as [delay|] eqn:Hn; [|lia].
  destruct (Z.eqb_spec delay 0); [lia|].
  assert (0 <= delay); [|lia].
  eapply (proj1 (Forall_forall _ _) Hall), list_elem_of_lookup_2. exact Hn.
Qed.

(** X4.  A failure reported while the retry budget lasts puts the item back
    to pending with a schedule strictly in the future: on a queue with
    unique ids and a delay table without negative entries, the item is in no
    listing taken before [now + delay], and it is in the unlimited listing
    from that instant on, pending, with its retry count raised by one. *)
Theorem failed_item_waits_for_its_delay
    (cfg : QueueConfig) (now : Z) (i error : string) (c : Collection)
    (d : NotificationItem) :
  NoDup (id <$> c) -> d ∈ c -> id d = i ->
  (retryCount d < cfg_maxRetries cfg)%nat ->
  Forall (fun delay => 0 <= delay) (retryDelays cfg) ->
  let c' := snd (markNotificationFailed cfg now i error c) in
  let due_at := now + retryDelay_at cfg (retryCount d) in
  now < due_at
  /\ (forall lim t x, t < due_at ->
        x ∈ getPendingNotifications lim t c' -> id x <> i)
  /\ (forall t, due_at <= t ->
        exists x, x ∈ getPendingNotifications 0 t c' /\ id x = i
                  /\ status x = pending /\ retryCount x = S (retryCount d)).
Proof.
  intros Hnd Hd Hi Hbudget Hdelays.
  destruct (unique_split i c d Hnd Hd Hi) as (l1 & l2 & -> & Hl1 & Hl2).
  rewrite markNotificationFailed_first by done.
  rewrite !bool_decide_eq_true_2 by done. cbn [snd].
  pose proof (retryDelay_at_positive cfg (retryCount d) Hdelays) as Hpos.
  split; [lia|]. split.
  - intros lim t x Ht Hx Hix.
    apply (listed_under_id i) in Hx as (-> & _ & Hdue); [|done..].
    unfold due in Hdue. simpl in Hdue. apply Z.leb_le in Hdue. lia.
  - intros t Ht. eexists. split; [|split; [|split]].
    + unfold getPendingNotifications. cbn [limit].
      apply elem_of_sort_by, elem_of_find. split.
      * apply elem_of_app. right. by left.
      * apply andb_true_iff. split; [done|].
        unfold due. simpl. apply Z.leb_le. lia.
    + done.
    + done.
    + simpl. lia.
Qed.

(** X5.  A failure reported when the retry count has reached
    [config.maxRetries] makes the item failed, and from then on no listing
    of pending notifications, at whatever time and limit, holds it. *)
Theorem exhausted_item_is_never_listed
    (cfg : QueueConfig) (now : Z) (i error : string) (c : Collection)
    (d : NotificationItem) :
  NoDup (id <$> c) -> d ∈ c -> id d = i ->
  (cfg_maxRetries cfg <= retryCount d)%nat ->
  let c' := snd (markNotificationFailed cfg now i error c) in
  (exists x, x ∈ c' /\ id x = i /\ status x = failed
             /\ retryCount x = S (retryCount d))
  /\ (forall lim t x, x ∈ getPendingNotifications lim t c' -> id x <> i).
Proof.
  intros Hnd Hd Hi Hspent.
  destruct (unique_split i c d Hnd Hd Hi) as (l1 & l2 & -> & Hl1 & Hl2).
  rewrite markNotificationFailed_first by done.
  rewrite !bool_decide_eq_false_2 by lia. cbn [snd]. split.
  - eexists. split; [apply elem_of_app; right; by left|].
    repeat split; [done|]. simpl. lia.
  - intros lim t x Hx Hix.
    by apply (listed_under_id i) in Hx as (-> & Hs & _).
Qed.

(** X6.  For an id that no document carries, the claim, the sent mark and
    the cancellation return [false] and hand back the queue as it was. *)
Theorem unknown_id_is_a_no_op (now : Z) (i : string) (c : Collection) :
  (forall d, d ∈ c -> id d <> i) ->
  markNotificationProcessing now i c = (false, c)
  /\ markNotificationSent now i c = (false, c)
  /\ cancelNotification now i c = (false, c).
Proof.
  intros Hno.
  assert (Hid : Forall (fun d => has_id i d = false) c).
  { apply Forall_forall. intros d Hd. apply bool_decide_eq_false. by apply Hno. }
  assert (Hpending : Forall (fun d => has_id i d && has_status pending d = false) c).
  { eapply Forall_impl; [exact Hid|]. by intros d ->. }
  unfold markNotificationProcessing, markNotificationSent, cancelNotification.
  by rewrite !updateOne_none.
Qed.

(** An update of the first match keeps a property of all documents that
    the update keeps on the documents it matches. *)
Lemma updateOne_Forall (P : NotificationItem -> Prop) filter update
    (c : Collection) :
  Forall P c -> (forall d, filter d = true -> P d -> P (update d)) ->
  Forall P (snd (updateOne filter update c)).
Proof.
  intros Hall Hupd. induction Hall as [|d c Hd Hc IH]; [constructor|].
  cbn [updateOne]. destruct (filter d) eqn:Hf.
  - cbn [snd]. constructor; [by apply Hupd|done].
  - destruct (updateOne filter update c). cbn [snd] in *. by constructor.
Qed.

(** Short of a failure reported for [i] and of an enqueue under [i], no
    call takes a document with the id [i] out of sent and cancelled. *)
Lemma run_call_keeps_closed i call (c : Collection) :
  ~ reopens i call ->
  Forall (fun x => id x = i -> status x = sent \/ status x = cancelled) c ->
  Forall (fun x => id x = i -> status x = sent \/ status x = cancelled)
    (run_call call c).
Proof.
  intros Hcall Hall. destruct call as [t newId n|t j|t j|cfg t j e|t j|t ride];
    cbn [run_call reopens] in *.
  - unfold addNotification. cbn [snd]. apply Forall_app. split; [done|].
    constructor; [|constructor]. by intros Hi.
  - unfold markNotificationProcessing.
    pose proof (updateOne_Forall _ (fun d => has_id j d && has_status pending d)
                  (set_status processing t) c Hall) as H.
    destruct (updateOne _ _ c). cbn [snd] in *. apply H.
    intros d Hf Hd Hi. apply andb_true_iff in Hf as [_ Hf].
    apply has_status_true in Hf. destruct (Hd Hi); congruence.
  - unfold markNotificationSent.
    pose proof (updateOne_Forall _ (has_id j) (set_status sent t) c Hall) as H.
    destruct (updateOne _ _ c). cbn [snd] in *. apply H. intros d _ _ _. by left.
  - unfold markNotificationFailed.
    destruct (findOne (has_id j) c) as [found|]; [|done].
    match goal with |- context [updateOne ?f ?u c] =>
      pose proof (updateOne_Forall _ f u c Hall) as H;
      destruct (updateOne f u c) end.
    cbn [snd] in *. apply H. intros d Hf _ Hi.
    apply has_id_true in Hf. cbn in Hi. congruence.
  - unfold cancelNotification.
    pose proof (updateOne_Forall _ (has_id j) (set_status cancelled t) c Hall)
      as H.
    destruct (updateOne _ _ c). cbn [snd] in *. apply H. intros d _ _ _. by right.
  - rewrite CancelFacts.cancelRideNotifications_eq. cbn [snd].
    apply Forall_fmap. eapply Forall_impl; [exact Hall|].
    intros d Hd. simpl. destruct (ride_open ride d); [|done]. intros _. by right.
Qed.

Lemma run_call_keeps_ids i call (c : Collection) :
  i ∈ id <$> c -> i ∈ id <$> run_call call c.
Proof.
  intros Hi. destruct call as [t newId n|t j|t j|cfg t j e|t j|t ride];
    cbn [run_call].
  - unfold addNotification. cbn [snd]. rewrite fmap_app.
    apply elem_of_app. by left.
  - by rewrite (proj1 (IdFacts.updates_keep_ids defaultConfig t j "" "" c)).
  - by rewrite (proj1 (proj2 (IdFacts.updates_keep_ids defaultConfig t j "" "" c))).
  - by rewrite (proj1 (proj2 (proj2 (IdFacts.updates_keep_ids cfg t j e "" c)))).
  - by rewrite (proj1 (proj2 (proj2 (proj2
                  (IdFacts.updates_keep_ids defaultConfig t j "" "" c))))).
  - by rewrite (proj2 (proj2 (proj2 (proj2
                  (IdFacts.updates_keep_ids defaultConfig t "" "" ride c))))).
Qed.

Lemma run_calls_keep_closed i calls (c : Collection) :
  Forall (fun call => ~ reopens i call) calls ->
  Forall (fun x => id x = i -> status x = sent \/ status x = cancelled) c ->
  i ∈ id <$> c ->
  Forall (fun x => id x = i -> status x = sent \/ status x = cancelled)
    (run_calls calls c)
  /\ i ∈ id <$> run_calls calls c.
Proof.
  unfold run_calls. intros Hcalls. revert c.
  induction Hcalls as [|call calls Hcall _ IH]; intros c Hall Hi; [done|].
  cbn [foldl]. apply IH.
  - by apply run_call_keeps_closed.
  - by apply run_call_keeps_ids.
Qed.

(** X7.  A sent mark or a cancellation closes an item for good, short of a
    reported failure.  On a queue with unique ids, after
    [markNotificationSent] or [cancelNotification] of the id of an item and
    after any further calls of the queue, none of which reports a failure
    for this id or enqueues under it again, the queue still holds a
    document with this id, every such document is sent or cancelled, a
    claim of the id returns [false] and changes nothing, and no listing of
    pending notifications holds the id.  ([markNotificationFailed] has no
    test of the status and takes a sent or cancelled item back to
    pending.) *)
Theorem closed_item_is_out
    (now : Z) (i : string) (c c' : Collection) (d : NotificationItem)
    (calls : list QueueCall) :
  NoDup (id <$> c) -> d ∈ c -> id d = i ->
  c' = snd (markNotificationSent now i c)
  \/ c' = snd (cancelNotification now i c) ->
  Forall (fun call => ~ reopens i call) calls ->
  let c'' := run_calls calls c' in
  (forall now', markNotificationProcessing now' i c'' = (false, c''))
  /\ (forall lim t x, x ∈ getPendingNotifications lim t c'' -> id x <> i)
  /\ (exists x, x ∈ c'' /\ id x = i)
  /\ (forall x, x ∈ c'' -> id x = i -> status x = sent \/ status x = cancelled).
Proof.
  intros Hnd Hd Hi Hc' Hcalls c''.
  destruct (unique_split i c d Hnd Hd Hi) as (l1 & l2 & -> & Hl1 & Hl2).
  assert (exists s, (s = sent \/ s = cancelled)
                    /\ c' = l1 ++ set_status s now d :: l2)
    as (s & Hs & ->).
  { destruct Hc' as [-> | ->].
    - exists sent. rewrite markNotificationSent_first by done. auto.
    - exists cancelled. rewrite cancelNotification_first by done. auto. }
  destruct (run_calls_keep_closed i calls (l1 ++ set_status s now d :: l2) Hcalls)
    as [Hclosed Hheld].
  { apply Forall_app. split; [|constructor].
    - eapply Forall_impl; [exact Hl1|]. intros x Hx Hix.
      apply (proj2 (has_id_true i x)) in Hix. congruence.
    - by intros _.
    - eapply Forall_impl; [exact Hl2|]. intros x Hx Hix.
      apply (proj2 (has_id_true i x)) in Hix. congruence. }
  { rewrite fmap_app, fmap_cons. apply elem_of_app. right. simpl.
    rewrite Hi. by left. }
  fold c'' in Hclosed, Hheld.
  split; [|split; [|split]].
  - intros now'. unfold markNotificationProcessing.
    rewrite updateOne_none; [done|].
    eapply Forall_impl; [exact Hclosed|]. intros x Hx. simpl.
    destruct (has_id i x) eqn:Hix; [|done]. apply has_id_true in Hix.
    apply bool_decide_eq_false. destruct (Hx Hix); congruence.
  - intros lim t x Hx Hix.
    apply getPendingNotifications_sound in Hx as (Hin & Hst & _).
    destruct (proj1 (Forall_forall _ _) Hclosed x Hin Hix); congruence.
  - apply list_elem_of_fmap in Hheld as (x & -> & Hx). by exists x.
  - intros x Hx. by apply (proj1 (Forall_forall _ _) Hclosed).
Qed.

(** X8.  The delay before a retry: with no negative entry in the table it is
    positive for every retry count; a count beyond the table gives one
    minute; with the default table the delays are 1 s, 5 s, 15 s, 60 s and
    then 60 s for ever, so they never decrease and stay within one second
    and one minute. *)
Theorem retry_delay_bounds (cfg : QueueConfig) (n m : nat) :
  (Forall (fun delay => 0 <= delay) (retryDelays cfg) -> 0 < retryDelay_at cfg n)
  /\ ((length (retryDelays cfg) <= n)%nat -> retryDelay_at cfg n = 60000)
  /\ ((n <= m)%nat ->
      1000 <= retryDelay_at defaultConfig n
      /\ retryDelay_at defaultConfig n <= retryDelay_at defaultConfig m
      /\ retryDelay_at defaultConfig m <= 60000).
Proof.
  split; [apply retryDelay_at_positive|]. split.
  - intros Hlen. unfold retryDelay_at. by rewrite lookup_ge_None_2.
  - intros Hnm.
    destruct n as [|[|[|[|n]]]]; destruct m as [|[|[|[|m]]]];
      try lia; by vm_compute.
Qed.

End RetryFacts.

(** ** Cancelling twice, enqueuing, statistics by ride *)

Module CountFacts.

Import NotifyQueue QueueMore DriverFacts ListingFacts CancelFacts StatsFacts.

Lemma cancelled_is_not_open now rideUuid (c : Collection) :
  Forall (fun d => ride_open rideUuid d = false)
    ((fun d => if ride_open rideUuid d then set_status cancelled now d else d) <$> c).
Proof.
  apply Forall_fmap, Forall_forall. intros d _. simpl.
  destruct (ride_open rideUuid d) eqn:Ho; [|done].
  unfold ride_open, has_status. simpl. apply andb_false_r.
Qed.

(** X9.  Cancelling the notifications of a ride twice is the same as
    cancelling them once: the second call cancels nothing, returns 0 and
    leaves every document, [updatedAt] included, as the first call left
    it. *)
Theorem cancelRideNotifications_idempotent
    (now1 now2 : Z) (rideUuid : string) (c : Collection) :
  cancelRideNotifications now2 rideUuid
    (snd (cancelRideNotifications now1 rideUuid c))
  = (0%nat, snd (cancelRideNotifications now1 rideUuid c)).
Proof.
  rewrite (cancelRideNotifications_eq now1). cbn [snd].
  rewrite cancelRideNotifications_eq.
  pose proof (cancelled_is_not_open now1 rideUuid c) as Hclosed.
  rewrite (map_if_no_match (ride_open rideUuid) (set_status cancelled now2)
             _ Hclosed).
  f_equal. unfold find. induction Hclosed as [|x l Hx _ IH]; [done|].
  simpl. by rewrite Hx.
Qed.



End CountFacts.

(** ** Statistics of one ride *)

Module RideStatsFacts.

Import NotifyQueue QueueMore ListingFacts StatsFacts.

Lemma getRideNotificationStats_status rideUuid s (c : Collection) :
  getRideNotificationStats rideUuid c !! status_string s
  = if decide (s ∈ status <$> find (of_ride rideUuid) c)
    then Some (count_status s (find (of_ride rideUuid) c))
    else initial_ride_stats !! status_string s.
Proof.
  unfold getRideNotificationStats, group_by_status.
  set (r := find (of_ride rideUuid) c). destruct (decide _) as [Hs|Hs].
  - apply (fold_status (fun s => count_status s r)). by apply elem_of_remove_dups.
  - apply (fold_other (fun s => count_status s r)).
    + apply status_string_not_total.
    + intros s' Hs' Heq. apply status_string_inj in Heq as ->.
      apply Hs. by apply elem_of_remove_dups.
Qed.

Lemma getRideNotificationStats_declared rideUuid s (c : Collection) :
  initial_ride_stats !! status_string s = Some 0%nat ->
  getRideNotificationStats rideUuid c !! status_string s
  = Some (count_status s (find (of_ride rideUuid) c)).
Proof.
  intros Hinit. rewrite getRideNotificationStats_status.
  destruct (decide _) as [Hs|Hs]; [done|]. by rewrite count_status_absent.
Qed.

(** X11.  [getRideNotificationStats] counts the documents whose
    [metadata.rideRequestUuid] is the ride, all of them and no others:
    [total] is their number, [sent], [failed], [pending] and [cancelled]
    are the numbers of those among them that carry that status (0 when
    there is none), and a key [processing] is present, with the number of
    the processing ones, exactly when the ride has a processing
    notification; so [total] is the sum of the four declared counts plus
    the processing ones. *)
Theorem getRideNotificationStats_counts (rideUuid : string) (c : Collection) :
  let count (s : Status) :=
    length (List.filter
      (fun d => bool_decide (rideRequestUuid (metadata d) = Some rideUuid
                             /\ status d = s)) c) in
  let stats := getRideNotificationStats rideUuid c in
  stats !! "total"
  = Some (length (List.filter
      (fun d => bool_decide (rideRequestUuid (metadata d) = Some rideUuid)) c))
  /\ stats !! "sent" = Some (count sent)
  /\ stats !! "failed" = Some (count failed)
  /\ stats !! "pending" = Some (count pending)
  /\ stats !! "cancelled" = Some (count cancelled)
  /\ stats !! "processing"
     = (if decide (count processing = 0%nat) then None
        else Some (count processing))
  /\ length (List.filter
       (fun d => bool_decide (rideRequestUuid (metadata d) = Some rideUuid)) c)
     = (count sent + count failed + count pending + count cancelled
        + count processing)%nat.
Proof.
  assert (Hcount : forall s,
    length (List.filter
      (fun d => bool_decide (rideRequestUuid (metadata d) = Some rideUuid
                             /\ status d = s)) c)
    = count_status s (find (of_ride rideUuid) c)).
  { intros s. unfold count_status, find, of_ride, has_status.
    induction c as [|d c IH]; [done|]. simpl.
    destruct (decide (rideRequestUuid (metadata d) = Some rideUuid)) as [Hr|Hr].
    - rewrite (bool_decide_eq_true_2 _ Hr). simpl.
      destruct (decide (status d = s)) as [Hs|Hs].
      + rewrite (bool_decide_eq_true_2 (status d = s)) by done.
        rewrite bool_decide_eq_true_2 by done. simpl. by rewrite IH.
      + rewrite (bool_decide_eq_false_2 (status d = s)) by done.
        rewrite bool_decide_eq_false_2 by (by intros [_ ?]). done.
    - rewrite (bool_decide_eq_false_2 _ Hr).
      rewrite bool_decide_eq_false_2 by (by intros [? _]). done. }
  cbv zeta beta. rewrite !Hcount.
  change (List.filter
            (fun d => bool_decide (rideRequestUuid (metadata d) = Some rideUuid)) c)
    with (find (of_ride rideUuid) c).
  repeat split.
  - unfold getRideNotificationStats, group_by_status.
    rewrite (fold_total (fun s => count_status s (find (of_ride rideUuid) c))
               _ _ 0%nat) by done.
    rewrite sum_group_counts; [done|apply NoDup_remove_dups|].
    intros d Hd. apply elem_of_remove_dups. by apply list_elem_of_fmap_2.
  - by apply (getRideNotificationStats_declared rideUuid sent).
  - by apply (getRideNotificationStats_declared rideUuid failed).
  - by apply (getRideNotificationStats_declared rideUuid pending).
  - by apply (getRideNotificationStats_declared rideUuid cancelled).
  - rewrite (getRideNotificationStats_status rideUuid processing).
    destruct (decide (processing ∈ _)) as [Hs|Hs].
    + rewrite decide_False; [done|by apply count_status_present].
    + rewrite decide_True; [done|by apply count_status_absent].
  - rewrite <- (count_status_partition (find (of_ride rideUuid) c)). lia.
Qed.

End RideStatsFacts.

(** ** One turn of the processing loop *)

Module TurnFacts.

Import NotifyQueue QueueMore DriverFacts WrittenFields StatsFacts.






End TurnFacts.

(** ** The dispatch tick, in general *)

Module TickGeneral.

Import NotifyQueue QueueMore TickMore DispatchBot DriverFacts WrittenFields.

Section WithSender.

Variable sendSMS : NotificationItem -> bool.
Variable cfg : QueueConfig.

Lemma tick_step_refl d : tick_step d d.
Proof. unfold tick_step, same_identity. repeat split; auto. Qed.

Lemma tick_step_trans a b c : tick_step a b -> tick_step b c -> tick_step a c.
Proof.
  unfold tick_step, same_identity.
  intros [(?&?&?&?&?&?&?) ?] [(?&?&?&?&?&?&?) ?].
  repeat split; try congruence. lia.
Qed.

Lemma only_status_written_tick_step d d' :
  only_status_written d d' -> tick_step d d'.
Proof.
  unfold only_status_written. intros ->. unfold tick_step, same_identity.
  simpl. repeat split; auto.
Qed.

Lemma failure_step_tick_step d d' : failure_step d d' -> tick_step d d'.
Proof. unfold failure_step, tick_step. intros (? & ? & _). split; [done|lia]. Qed.

Lemma markNotificationSent_related now i (c : Collection) :
  Forall2 only_status_written c (snd (markNotificationSent now i c)).
Proof.
  unfold markNotificationSent.
  pose proof (updateOne_related only_status_written (has_id i)
                (set_status sent now) c) as H.
  destruct (updateOne _ _ c). apply H; [apply only_status_written_refl|done].
Qed.

(** The loop body: the sender is called exactly for an sms item that is
    young at the age test, and the queue moves by a [tick_step]. *)
Lemma process_one_step r n (st : TickState) :
  let st' := snd (process_one sendSMS cfg r n st) in
  smsAttempts st'
  = smsAttempts st ++ (if young_sms (at_test r) n then [n] else [])
  /\ Forall2 tick_step (queue st) (queue st').
Proof.
  unfold process_one, young_sms. cbn zeta.
  destruct (30000 <? at_test r - createdAt n) eqn:Hold; cbn [negb andb].
  - unfold StateM.bind, on_queue, StateM.ret.
    pose proof (markNotificationFailed_related cfg (at_update r) (id n)
                  "Timeout: Stuck in processing for over 30 seconds" (queue st)) as Hrel.
    destruct (markNotificationFailed _ _ _ _ (queue st)) as [b c']. cbn in *.
    split; [by rewrite app_nil_r|].
    eapply Forall2_impl; [exact Hrel|]. apply failure_step_tick_step.
  - destruct (type n) eqn:Hty; cbn [bool_decide].
    + rewrite bool_decide_eq_true_2 by done.
      unfold StateM.bind, attempt_sms, on_queue, StateM.ret.
      destruct (sendSMS n); cbn [queue smsAttempts].
      * pose proof (markNotificationSent_related (at_update r) (id n) (queue st))
          as Hrel.
        destruct (markNotificationSent (at_update r) (id n) (queue st)) as [b c'].
        cbn in *. split; [done|].
        eapply Forall2_impl; [exact Hrel|]. apply only_status_written_tick_step.
      * pose proof (markNotificationFailed_related cfg (at_update r) (id n)
                      "SMS sending failed" (queue st)) as Hrel.
        destruct (markNotificationFailed _ _ _ _ (queue st)) as [b c']. cbn in *.
        split; [done|].
        eapply Forall2_impl; [exact Hrel|]. apply failure_step_tick_step.
    + rewrite bool_decide_eq_false_2 by done. cbn.
      split; [by rewrite app_nil_r|]. apply related_refl, tick_step_refl.
    + rewrite bool_decide_eq_false_2 by done. cbn.
      split; [by rewrite app_nil_r|]. apply related_refl, tick_step_refl.
Qed.

Lemma process_all_step clock k (l : list NotificationItem) (st : TickState) :
  let st' := snd (process_all sendSMS cfg clock k l st) in
  smsAttempts st' = smsAttempts st ++ handed_over clock k l
  /\ Forall2 tick_step (queue st) (queue st').
Proof.
  revert k st. induction l as [|n l IH]; intros k st; cbn zeta.
  - cbn. split; [by rewrite app_nil_r|]. apply related_refl, tick_step_refl.
  - cbn [process_all handed_over]. unfold StateM.bind.
    pose proof (process_one_step (clock k) n st) as Hstep. cbn zeta in Hstep.
    destruct (process_one sendSMS cfg (clock k) n st) as [u st1].
    cbn [snd] in Hstep. destruct Hstep as [Hatt Hrel].
    destruct (IH (S k) st1) as [Hatt' Hrel']. split.
    + by rewrite Hatt', Hatt, <- app_assoc.
    + eapply Forall2_trans; [|exact Hrel|exact Hrel']. apply tick_step_trans.
Qed.

(** The tick is its loop on the two lists read from the queue it starts
    with. *)
Lemma processNotificationQueue_at_loop listed_at clock (st : TickState) :
  processNotificationQueue_at sendSMS cfg listed_at clock st
  = process_all sendSMS cfg clock 0
      (getPendingNotifications (batchSize cfg) listed_at (queue st)
       ++ getProcessingNotifications (batchSize cfg) (queue st)) st.
Proof. by destruct st. Qed.

Lemma handed_over_still now k (l : list NotificationItem) :
  handed_over (still now) k l = List.filter (young_sms now) l.
Proof.
  revert k. induction l as [|n l IH]; intros k; [done|].
  cbn [handed_over List.filter still at_test]. rewrite IH.
  by destruct (young_sms now n).
Qed.

Lemma elem_of_handed_over clock k (l : list NotificationItem) n :
  n ∈ handed_over clock k l ->
  type n = sms
  /\ exists j, l !! j = Some n
              /\ at_test (clock (k + j)%nat) - createdAt n <= 30000.
Proof.
  revert k. induction l as [|m l IH]; intros k; cbn [handed_over].
  - by intros ?%not_elem_of_nil.
  - intros [Hn|Hn]%elem_of_app.
    + destruct (young_sms (at_test (clock k)) m) eqn:Hy;
        [|by apply not_elem_of_nil in Hn].
      apply list_elem_of_singleton in Hn as ->.
      unfold young_sms in Hy. apply andb_true_iff in Hy as [Hy Hs].
      apply bool_decide_eq_true in Hs. apply negb_true_iff, Z.ltb_ge in Hy.
      split; [done|]. exists 0%nat. by rewrite Nat.add_0_r.
    + destruct (IH (S k) Hn) as (Hs & j & Hj & Hy). split; [done|].
      exists (S j). split; [done|]. by rewrite Nat.add_succ_r.
Qed.

Lemma handed_over_nil clock k (l : list NotificationItem) :
  (forall j n, l !! j = Some n ->
     type n <> sms \/ 30000 < at_test (clock (k + j)%nat) - createdAt n) ->
  handed_over clock k l = [].
Proof.
  revert k. induction l as [|m l IH]; intros k Hall; [done|].
  cbn [handed_over]. rewrite (IH (S k)).
  - rewrite app_nil_r. unfold young_sms.
    destruct (Hall 0%nat m eq_refl) as [Hs|Hold].
    + by rewrite (bool_decide_eq_false_2 _ Hs), andb_false_r.
    + rewrite Nat.add_0_r in Hold. apply Z.ltb_lt in Hold. by rewrite Hold.
  - intros j n Hj. rewrite Nat.add_succ_l, <- Nat.add_succ_r. by apply Hall.
Qed.

(** X13.  What the loop of the tick hands to the sender, whatever lists the
    two reads returned: the notifications that are of type sms and not
    older than 30 seconds since their creation at the [Date.now()] of their
    own turn, one call for each such position and in the order of the list;
    for the tick run on a queue these are the positions of its pending
    listing followed by its processing listing.  An email or push item, and
    an item that is older than that at its own turn, is not passed to
    [sendSMS]; when no reading of the loop precedes the listing, an item
    that was older than 30 seconds already when it was listed is never
    passed to it.  On a clock that stands still the calls are those of the
    young sms items of the list. *)
Theorem tick_attempts_young_sms_only (listed_at : Z) (clock : nat -> Readings)
    (allNotifications : list NotificationItem) (st : TickState) :
  let listed :=
    getPendingNotifications (batchSize cfg) listed_at (queue st)
    ++ getProcessingNotifications (batchSize cfg) (queue st) in
  smsAttempts (snd (process_all sendSMS cfg clock 0 allNotifications st))
  = smsAttempts st ++ handed_over clock 0 allNotifications
  /\ smsAttempts (snd (processNotificationQueue_at sendSMS cfg listed_at clock st))
     = smsAttempts st ++ handed_over clock 0 listed
  /\ (forall n, n ∈ handed_over clock 0 allNotifications ->
        type n = sms
        /\ exists k, allNotifications !! k = Some n
                    /\ at_test (clock k) - createdAt n <= 30000)
  /\ ((forall k n, allNotifications !! k = Some n ->
         type n <> sms \/ 30000 < at_test (clock k) - createdAt n) ->
      handed_over clock 0 allNotifications = [])
  /\ ((forall k, listed_at <= at_test (clock k)) ->
      forall n, n ∈ handed_over clock 0 allNotifications ->
                listed_at - createdAt n <= 30000)
  /\ (forall now, handed_over (still now) 0 allNotifications
                  = List.filter (young_sms now) allNotifications).
Proof.
  cbn zeta. split; [apply process_all_step|].
  split; [rewrite processNotificationQueue_at_loop; apply process_all_step|].
  split; [intros n Hn; by apply elem_of_handed_over in Hn|].
  split; [intros Hall; exact (handed_over_nil clock 0 allNotifications Hall)|].
  split.
  - intros Hclock n Hn.
    apply elem_of_handed_over in Hn as (_ & k & _ & Hy).
    specialize (Hclock (0 + k)%nat). lia.
  - intros now. apply handed_over_still.
Qed.

(** X14.  A tick keeps the queue in shape, whatever the sender answers and
    whatever the clock reads: the documents are the same in number and
    order, each keeps its id, type, recipient, message, priority, maxRetries
    and createdAt, and no retry count goes down. *)
Theorem tick_keeps_identity (listed_at : Z) (clock : nat -> Readings)
    (st : TickState) :
  Forall2 tick_step (queue st)
    (queue (snd (processNotificationQueue_at sendSMS cfg listed_at clock st))).
Proof. rewrite processNotificationQueue_at_loop. apply process_all_step. Qed.

(** X15.  A tick that finds nothing to list does nothing: when every
    document is sent, failed or cancelled, or pending with a schedule that
    is not yet due at the time of the listing, the state after the tick is
    the state before it, whatever the clock reads afterwards. *)
Theorem tick_on_settled_queue_is_a_no_op (listed_at : Z)
    (clock : nat -> Readings) (st : TickState) :
  Forall (fun d => status d <> processing
                   /\ (status d = pending -> due listed_at d = false))
    (queue st) ->
  snd (processNotificationQueue_at sendSMS cfg listed_at clock st) = st.
Proof.
  intros Hall. rewrite processNotificationQueue_at_loop.
  assert (find (fun d => has_status pending d && due listed_at d) (queue st) = [])
    as Hp.
  { unfold find. induction Hall as [|d c [_ Hd] _ IH]; [done|].
    simpl. rewrite IH. unfold has_status.
    case_bool_decide as Hs; [by rewrite (Hd Hs)|done]. }
  assert (find (has_status processing) (queue st) = []) as Hq.
  { clear Hp. unfold find. induction Hall as [|d c [Hd _] _ IH]; [done|].
    simpl. rewrite IH. unfold has_status. by rewrite bool_decide_eq_false_2. }
  unfold getPendingNotifications, getProcessingNotifications.
  rewrite Hp, Hq. cbn [sort_by foldr].
  by destruct (batchSize cfg).
Qed.

End WithSender.

End TickGeneral.

(** ** The outcome of a tick, item by item *)

Module TickOutcome.

Import NotifyQueue QueueMore TickMore DispatchBot DriverFacts ListingFacts
  TransitionFacts RetryFacts TickGeneral.

Lemma insert_by_perm cmp x (l : list NotificationItem) :
  insert_by cmp x l ≡ₚ x :: l.
Proof.
  induction l as [|y l IH]; simpl; [done|].
  destruct (cmp x y); try done. rewrite IH. apply Permutation_swap.
Qed.

Lemma sort_by_perm cmp (l : list NotificationItem) : sort_by cmp l ≡ₚ l.
Proof.
  induction l as [|x l IH]; simpl; [done|].
  by rewrite insert_by_perm, IH.
Qed.

Lemma limit_NoDup n (l : list NotificationItem) : NoDup l -> NoDup (limit n l).
Proof.
  intros Hl. destruct n; simpl; [done|].
  exact (sublist_NoDup _ _ Hl (sublist_take l (S n))).
Qed.

Lemma find_NoDup f (c : Collection) : NoDup c -> NoDup (find f c).
Proof.
  unfold find. induction 1 as [|x l Hx Hl IH]; simpl; [constructor|].
  destruct (f x); [|done]. constructor; [|done].
  intros Hin. apply Hx. by apply (elem_of_find f l x) in Hin as [? _].
Qed.

Lemma listing_NoDup f n (c : Collection) :
  NoDup c -> NoDup (limit n (sort_by priority_createdAt_cmp (find f c))).
Proof.
  intros Hc. apply limit_NoDup. rewrite sort_by_perm. by apply find_NoDup.
Qed.

Lemma getProcessingNotifications_sound lim (c : Collection) d :
  d ∈ getProcessingNotifications lim c -> d ∈ c /\ status d = processing.
Proof.
  unfold getProcessingNotifications. intros Hd.
  apply elem_of_limit, elem_of_sort_by, elem_of_find in Hd as [Hc Hs].
  by apply has_status_true in Hs.
Qed.

(** With unique ids in the queue, the two listings together hold no id
    twice. *)
Lemma listed_unique_ids lim now (c : Collection) :
  NoDup (id <$> c) ->
  NoDup (id <$> (getPendingNotifications lim now c
                 ++ getProcessingNotifications lim c)).
Proof.
  intros Hnd.
  assert (Hin : forall x, x ∈ getPendingNotifications lim now c
                            ++ getProcessingNotifications lim c -> x ∈ c).
  { intros x [Hx|Hx]%elem_of_app.
    - by apply getPendingNotifications_sound in Hx as [? _].
    - by apply getProcessingNotifications_sound in Hx as [? _]. }
  apply NoDup_fmap_2_strong.
  - intros x y Hx Hy. apply (unique_id_eq c); auto.
  - apply NoDup_app. repeat split.
    + apply listing_NoDup. by eapply NoDup_fmap_1.
    + intros x Hx Hx'.
      apply getPendingNotifications_sound in Hx as (_ & Hs & _).
      apply getProcessingNotifications_sound in Hx' as [_ Hs']. congruence.
    + apply listing_NoDup. by eapply NoDup_fmap_1.
Qed.

Lemma tick_step_ids (c c' : Collection) :
  Forall2 tick_step c c' -> id <$> c' = id <$> c.
Proof.
  induction 1 as [|d d' c c' [(Hid & _) _] _ IH]; [done|].
  by rewrite !fmap_cons, Hid, IH.
Qed.

Section WithSender.

Variable sendSMS : NotificationItem -> bool.
Variable cfg : QueueConfig.

Lemma tick_outcome_id r n : id (tick_outcome sendSMS cfg r n) = id n.
Proof.
  unfold tick_outcome, failed_doc.
  destruct (30000 <? _); [done|]. destruct (type n); [|done..].
  by destruct (sendSMS n).
Qed.

Lemma markNotificationFailed_keeps now j error (c : Collection) d :
  id d <> j -> d ∈ c -> d ∈ snd (markNotificationFailed cfg now j error c).
Proof.
  intros Hne Hd. unfold markNotificationFailed.
  destruct (findOne (has_id j) c); [|done].
  match goal with |- context [updateOne ?f ?u c] =>
    pose proof (updateOne_keeps f u c d) as Hk; destruct (updateOne f u c) end.
  apply Hk; [|done]. by apply bool_decide_eq_false.
Qed.

Lemma markNotificationSent_keeps now j (c : Collection) d :
  id d <> j -> d ∈ c -> d ∈ snd (markNotificationSent now j c).
Proof.
  intros Hne Hd. unfold markNotificationSent.
  pose proof (updateOne_keeps (has_id j) (set_status sent now) c d) as Hk.
  destruct (updateOne _ _ c). apply Hk; [|done]. by apply bool_decide_eq_false.
Qed.

Lemma process_one_keeps r m (st : TickState) d :
  id d <> id m -> d ∈ queue st ->
  d ∈ queue (snd (process_one sendSMS cfg r m st)).
Proof.
  intros Hne Hd. unfold process_one.
  destruct (30000 <? at_test r - createdAt m).
  - unfold StateM.bind, on_queue, StateM.ret.
    pose proof (markNotificationFailed_keeps (at_update r) (id m)
      "Timeout: Stuck in processing for over 30 seconds" (queue st) d Hne Hd) as Hk.
    by destruct (markNotificationFailed _ _ _ _ (queue st)).
  - destruct (type m); [|done..].
    unfold StateM.bind, attempt_sms, on_queue, StateM.ret.
    destruct (sendSMS m); cbn [queue smsAttempts].
    + pose proof (markNotificationSent_keeps (at_update r) (id m) (queue st) d
                    Hne Hd) as Hk.
      by destruct (markNotificationSent (at_update r) (id m) (queue st)).
    + pose proof (markNotificationFailed_keeps (at_update r) (id m)
        "SMS sending failed" (queue st) d Hne Hd) as Hk.
      by destruct (markNotificationFailed _ _ _ _ (queue st)).
Qed.

Lemma process_one_outcome r m (st : TickState) :
  NoDup (id <$> queue st) -> m ∈ queue st ->
  tick_outcome sendSMS cfg r m ∈ queue (snd (process_one sendSMS cfg r m st)).
Proof.
  intros Hnd Hm.
  destruct (unique_split (id m) (queue st) m Hnd Hm eq_refl)
    as (l1 & l2 & Hq & Hl1 & Hl2).
  assert (Hmid : forall x l, x ∈ l1 ++ x :: l) by
    (intros; apply elem_of_app; right; by left).
  unfold process_one, tick_outcome, failed_doc.
  destruct (30000 <? at_test r - createdAt m).
  - unfold StateM.bind, on_queue, StateM.ret. rewrite Hq.
    rewrite markNotificationFailed_first by done. cbn [queue snd]. apply Hmid.
  - destruct (type m); [|exact Hm..].
    unfold StateM.bind, attempt_sms, on_queue, StateM.ret.
    destruct (sendSMS m); cbn [queue smsAttempts]; rewrite Hq.
    + unfold markNotificationSent.
      rewrite updateOne_first; [|done|by apply has_id_true].
      cbn [queue snd]. apply Hmid.
    + rewrite markNotificationFailed_first by done. cbn [queue snd]. apply Hmid.
Qed.

Lemma process_all_outcome clock k (l : list NotificationItem) (st : TickState) :
  NoDup (id <$> l) -> NoDup (id <$> queue st) ->
  (forall n, n ∈ l -> n ∈ queue st) ->
  let st' := snd (process_all sendSMS cfg clock k l st) in
  (forall j n, l !! j = Some n ->
     tick_outcome sendSMS cfg (clock (k + j)%nat) n ∈ queue st')
  /\ (forall d, d ∈ queue st -> (forall n, n ∈ l -> id n <> id d) ->
        d ∈ queue st').
Proof.
  revert k st. induction l as [|m l IH]; intros k st Hl Hnd Hin; cbn zeta.
  - split; [by intros j n ?|done].
  - rewrite fmap_cons in Hl. apply NoDup_cons in Hl as [Hm Hl].
    assert (Hother : forall n, n ∈ l -> id n <> id m).
    { intros n Hn Heq. apply Hm. rewrite <- Heq. by apply list_elem_of_fmap_2. }
    cbn [process_all]. unfold StateM.bind.
    pose proof (process_one_outcome (clock k) m st Hnd (Hin m ltac:(by left)))
      as Hout.
    pose proof (fun d => process_one_keeps (clock k) m st d) as Hkeep.
    pose proof (process_one_step sendSMS cfg (clock k) m st) as [_ Hrel].
    destruct (process_one sendSMS cfg (clock k) m st) as [u st1]. cbn [snd] in *.
    destruct (IH (S k) st1) as [IHout IHkeep].
    + done.
    + by rewrite (tick_step_ids _ _ Hrel).
    + intros n Hn. apply Hkeep; [by apply Hother|]. apply Hin. by right.
    + split.
      * intros [|j] n Hj.
        -- injection Hj as <-. rewrite Nat.add_0_r.
           apply IHkeep; [done|]. intros n Hn. rewrite tick_outcome_id.
           by apply Hother.
        -- rewrite Nat.add_succ_r, <- Nat.add_succ_l. by apply IHout.
      * intros d Hd Hids. apply IHkeep.
        -- apply Hkeep; [|done]. intros Heq. apply (Hids m); [by left|done].
        -- intros n Hn. apply Hids. by right.
Qed.

(** X16.  The outcome of the tick, item by item, on a queue with unique ids
    to which nothing else writes while the tick runs.  The loop, given any
    list that holds no id twice and whose documents are as the queue has
    them, leaves the document at position [k] as its branch of the loop
    body says at the readings of turn [k]: older than 30 seconds at the age
    test, as the failure path leaves it; a young sms document as sent when
    the sender returned [true], and as the failure path leaves it otherwise
    (retry count raised by one, pending with a new schedule while the count
    read was below [maxRetries], failed after that); a young email or push
    document as it was.  Every document that is not in the list is still in
    the queue as it was.  The two listings of the tick form such a list. *)
Theorem tick_outcome_by_item (listed_at : Z) (clock : nat -> Readings)
    (allNotifications : list NotificationItem) (st : TickState) :
  NoDup (id <$> queue st) ->
  let listed :=
    getPendingNotifications (batchSize cfg) listed_at (queue st)
    ++ getProcessingNotifications (batchSize cfg) (queue st) in
  (NoDup (id <$> allNotifications) ->
   (forall n, n ∈ allNotifications -> n ∈ queue st) ->
   let st' := snd (process_all sendSMS cfg clock 0 allNotifications st) in
   (forall k n, allNotifications !! k = Some n ->
      tick_outcome sendSMS cfg (clock k) n ∈ queue st')
   /\ (forall d, d ∈ queue st -> d ∉ allNotifications -> d ∈ queue st'))
  /\ (let st' := snd (processNotificationQueue_at sendSMS cfg listed_at clock st) in
      (forall k n, listed !! k = Some n ->
         tick_outcome sendSMS cfg (clock k) n ∈ queue st')
      /\ (forall d, d ∈ queue st -> d ∉ listed -> d ∈ queue st'))
  /\ NoDup (id <$> listed)
  /\ (forall n, n ∈ listed -> n ∈ queue st).
Proof.
  intros Hnd. cbn zeta.
  assert (Hloop : forall l : list NotificationItem,
    NoDup (id <$> l) -> (forall n, n ∈ l -> n ∈ queue st) ->
    (forall k n, l !! k = Some n ->
       tick_outcome sendSMS cfg (clock k) n
       ∈ queue (snd (process_all sendSMS cfg clock 0 l st)))
    /\ (forall d, d ∈ queue st -> d ∉ l ->
          d ∈ queue (snd (process_all sendSMS cfg clock 0 l st)))).
  { intros l Hl Hin.
    destruct (process_all_outcome clock 0 l st Hl Hnd Hin) as [Hout Hkeep].
    split; [exact Hout|].
    intros d Hd Hnot. apply Hkeep; [done|]. intros n Hn Heq. apply Hnot.
    assert (n = d) as <-; [|done].
    apply (unique_id_eq (queue st)); auto. }
  match goal with |- context [?a ++ ?b] => set (listed := a ++ b) end.
  assert (Hin : forall n, n ∈ listed -> n ∈ queue st).
  { intros x [Hx|Hx]%elem_of_app.
    - by apply getPendingNotifications_sound in Hx as [? _].
    - by apply getProcessingNotifications_sound in Hx as [? _]. }
  assert (Hl : NoDup (id <$> listed)) by (by apply listed_unique_ids).
  split; [apply Hloop|]. split; [|done].
  rewrite processNotificationQueue_at_loop. fold listed. by apply Hloop.
Qed.

End WithSender.

End TickOutcome.

(** * Events and the two status translators *)

Module EventFacts.

Import RideEvents EventsMore DispatchBot.

Ltac split_cases H :=
  repeat (apply elem_of_cons in H as [->|H]); [..|by apply not_elem_of_nil in H].

Ltac all_different H :=
  repeat (apply not_elem_of_cons in H as [? H]).

(** X17.  The progress translator acts exactly on the status codes that
    [getRideStatusDescription] knows, the code 0 ("request in progress")
    apart.  For such a code it stores and emits one event, with the
    generated id, the ride's uuid and rider and the time of the call; for
    every other number it leaves the events, the log and the world of the
    handlers as they were. *)
Theorem progress_translator_acts_on_described_codes {W : Type}
    (eventHandlers : Registry W) (eid : string) (now : Z)
    (rideRequest : RideRequest) (newStatus previousStatus : Z) (st : State W) :
  let st' := snd (handleAutomaticRideStatusChange eventHandlers eid now
                    rideRequest newStatus previousStatus st) in
  (newStatus ∈ progress_cases <->
     getRideStatusDescription newStatus <> "Unknown Status" /\ newStatus <> 0)
  /\ (newStatus ∈ progress_cases ->
        exists event,
          emitted st' = emitted st ++ [(eventType event, event)]
          /\ rideEvents st' = rideEvents st ++ [event]
          /\ id event = eid /\ timestamp event = now
          /\ rideRequestUuid event = uuid rideRequest
          /\ serviceUserUuid event = rr_serviceUserUuid rideRequest)
  /\ (newStatus ∉ progress_cases -> st' = st).
Proof.
  cbn zeta.
  destruct (decide (newStatus ∈ 0 :: progress_cases)) as [Hin|Hout].
  - unfold progress_cases in Hin. split_cases Hin.
    all: split; [split; [intros Hc|intros [Hd Hz]]|split; [intros Hc|intros Hc]].
    all: try (exfalso; apply Hc; by repeat constructor).
    all: try (by repeat constructor).
    all: try (by eexists; repeat split).
    all: try done.
    all: exfalso; unfold progress_cases in Hc;
      repeat (apply elem_of_cons in Hc as [Hc|Hc]; [discriminate Hc|]);
      by apply not_elem_of_nil in Hc.
  - unfold progress_cases in Hout.
    assert (Hnot : newStatus ∉ progress_cases).
    { intros Hin. apply Hout. by right. }
    split; [|split; [done|]].
    + split; [done|]. intros [Hd _]. exfalso. apply Hd.
      all_different Hout. unfold getRideStatusDescription.
      by rewrite !(proj2 (Z.eqb_neq _ _)) by done.
    + intros _. all_different Hout. unfold handleAutomaticRideStatusChange.
      rewrite !(proj2 (Z.eqb_neq newStatus _)) by done. by destruct st.
Qed.

(** X18.  The workflow translator creates an event for five codes only, the
    cancellation and the four denials (109, 409, 599, 699, 799), and the
    event is always a [REQUEST_CANCELED] with a reason; every other number,
    the remaining fourteen workflow codes included, changes nothing. *)
Theorem workflow_translator_only_cancels {W : Type}
    (eventHandlers : Registry W) (eid : string) (now : Z)
    (rideRequest : RideRequest) (newStatus previousStatus : Z) (st : State W) :
  let st' := snd (handleAutomaticRideRequestStatusChange eventHandlers eid now
                    rideRequest newStatus previousStatus st) in
  (newStatus ∈ workflow_cancel_cases ->
     exists event reason,
       emitted st' = emitted st ++ [(REQUEST_CANCELED, event)]
       /\ rideEvents st' = rideEvents st ++ [event]
       /\ eventType event = REQUEST_CANCELED
       /\ metadata event = [("reason", reason)]
       /\ rideRequestUuid event = uuid rideRequest
       /\ serviceUserUuid event = rr_serviceUserUuid rideRequest)
  /\ (newStatus ∉ workflow_cancel_cases -> st' = st).
Proof.
  cbn zeta. split.
  - intros Hin. unfold workflow_cancel_cases in Hin. split_cases Hin.
    all: by eexists _, _; repeat split.
  - intros Hout. unfold workflow_cancel_cases in Hout. all_different Hout.
    unfold handleAutomaticRideRequestStatusChange.
    rewrite !(proj2 (Z.eqb_neq newStatus _)) by done. by destruct st.
Qed.

(** X19.  Registration and emission.  Before any registration an emission
    only logs; a handler added by [on] runs after the handlers that were
    already registered for its type, on the world they leave behind, whether
    or not they threw; and it is never run for an event of another type. *)
Theorem on_appends_to_its_type {W : Type}
    (reg : Registry W) (ty ty' : RideEventType) (handler : Handler W)
    (event : RideEvent) (st : State W) :
  world (snd (emit initializeEventHandlers ty event st)) = world st
  /\ world (snd (emit (on ty handler reg) ty event st))
     = after (handler event (world (snd (emit reg ty event st))))
  /\ (ty' <> ty ->
      snd (emit (on ty handler reg) ty' event st) = snd (emit reg ty' event st))
  /\ emitted (snd (emit (on ty handler reg) ty event st))
     = emitted st ++ [(ty, event)].
Proof.
  unfold emit, on. cbn [snd world emitted]. repeat split.
  - rewrite decide_True by done. by rewrite foldl_app.
  - intros Hne. by rewrite decide_False.
Qed.

Lemma elem_of_insert_event x (l : list RideEvent) e :
  e ∈ insert_event x l <-> e = x \/ e ∈ l.
Proof.
  induction l as [|y l IH]; simpl.
  - by rewrite elem_of_cons.
  - destruct (timestamp y <? timestamp x);
      rewrite ?elem_of_cons, ?IH, ?elem_of_cons; tauto.
Qed.

Lemma elem_of_sort_events (l : list RideEvent) e : e ∈ sort_events l <-> e ∈ l.
Proof.
  induction l as [|y l IH]; simpl; [done|].
  rewrite elem_of_insert_event, IH, elem_of_cons. tauto.
Qed.

Lemma insert_event_sorted x (l : list RideEvent) :
  StronglySorted (fun a b => timestamp a <= timestamp b) l ->
  StronglySorted (fun a b => timestamp a <= timestamp b) (insert_event x l).
Proof.
  induction 1 as [|y l Hl IH Hy]; simpl; [by repeat constructor|].
  destruct (Z.ltb_spec (timestamp y) (timestamp x)) as [Hlt|Hge].
  - constructor; [done|]. apply Forall_forall. intros e He.
    apply elem_of_insert_event in He as [->|He]; [lia|].
    by apply (proj1 (Forall_forall _ _) Hy).
  - constructor; [by constructor|]. constructor; [done|].
    eapply Forall_impl; [exact Hy|]. simpl. intros e He. lia.
Qed.

Lemma insert_event_perm x (l : list RideEvent) : insert_event x l ≡ₚ x :: l.
Proof.
  induction l as [|y l IH]; simpl; [done|].
  destruct (timestamp y <? timestamp x); [|done].
  rewrite IH. apply Permutation_swap.
Qed.

Lemma sort_events_perm (l : list RideEvent) : sort_events l ≡ₚ l.
Proof.
  induction l as [|x l IH]; simpl; [done|]. by rewrite insert_event_perm, IH.
Qed.

Lemma elem_of_getRideEvents rideUuid (events : list RideEvent) e :
  e ∈ getRideEvents rideUuid events <-> e ∈ events /\ rideRequestUuid e = rideUuid.
Proof.
  unfold getRideEvents.
  rewrite elem_of_sort_events, !list_elem_of_In, filter_In, Z.eqb_eq. done.
Qed.

(** X20.  [getRideEvents] returns the stored events of the ride and of no
    other ride, none of them lost, ordered by time stamp. *)
Theorem getRideEvents_is_the_history_of_the_ride
    (rideUuid : Z) (events : list RideEvent) :
  (forall e, e ∈ getRideEvents rideUuid events
             <-> e ∈ events /\ rideRequestUuid e = rideUuid)
  /\ StronglySorted (fun a b => timestamp a <= timestamp b)
       (getRideEvents rideUuid events)
  /\ getRideEvents rideUuid events
     ≡ₚ List.filter (fun e => rideRequestUuid e =? rideUuid) events.
Proof.
  split; [apply elem_of_getRideEvents|]. split.
  - unfold getRideEvents, sort_events.
    induction (List.filter _ events) as [|x l IH]; simpl; [constructor|].
    by apply insert_event_sorted.
  - apply sort_events_perm.
Qed.

(** X21.  What the translator stores can be read back: after a status
    change with one of the translated codes, the history of the ride read
    by [getRideEvents] holds the new event, and the history of every other
    ride is what it was. *)
Theorem translated_event_is_in_the_history {W : Type}
    (eventHandlers : Registry W) (eid : string) (now : Z)
    (rideRequest : RideRequest) (newStatus previousStatus : Z) (st : State W)
    (other : Z) :
  let st' := snd (handleAutomaticRideStatusChange eventHandlers eid now
                    rideRequest newStatus previousStatus st) in
  (newStatus ∈ progress_cases ->
     exists event, event ∈ getRideEvents (uuid rideRequest) (rideEvents st')
                   /\ id event = eid /\ timestamp event = now)
  /\ (other <> uuid rideRequest ->
      getRideEvents other (rideEvents st') = getRideEvents other (rideEvents st)).
Proof.
  cbn zeta.
  assert (Hshape : let st' := snd (handleAutomaticRideStatusChange eventHandlers
                      eid now rideRequest newStatus previousStatus st) in
            rideEvents st' = rideEvents st
            \/ exists event, rideEvents st' = rideEvents st ++ [event]
                 /\ id event = eid /\ timestamp event = now
                 /\ rideRequestUuid event = uuid rideRequest
                 /\ newStatus ∈ progress_cases).
  { cbn zeta. unfold handleAutomaticRideStatusChange.
    repeat (case_match;
            [match goal with H : (_ =? _) = true |- _ =>
               apply Z.eqb_eq in H as -> end;
             right; eexists; repeat split;
             unfold progress_cases; by repeat constructor|]).
    by left. }
  cbn zeta in Hshape. split.
  - intros Hin. destruct Hshape as [Hsame|(event & Hev & Hid & Hts & Hride & _)].
    + exfalso. revert Hsame. unfold progress_cases in Hin. split_cases Hin.
      all: cbn; intros Heq; apply (f_equal length) in Heq;
        rewrite length_app in Heq; simpl in Heq; lia.
    + exists event. repeat split; [|done..].
      apply elem_of_getRideEvents. rewrite Hev. split; [|done].
      apply elem_of_app. right. by left.
  - intros Hother. destruct Hshape as [->|(event & -> & _ & _ & Hride & _)]; [done|].
    unfold getRideEvents. rewrite List.filter_app. simpl.
    rewrite (proj2 (Z.eqb_neq _ _)) by congruence. by rewrite app_nil_r.
Qed.

(** X22.  The three status predicates.  A ride is active from
    [RIDE_STARTED] (200) up to, and not including, [RIDE_COMPLETE] (500), so
    a confirmed ride (100) that has not started is not active; it is
    completed at 500 and at 475 (roundtrip complete); it is cancelled at 109
    only.  Hence a cancelled ride is neither active nor completed; the only
    status that is both completed and active is 475, because the active
    range ends below 500; and a completed ride that is not active has
    status 500. *)
Theorem status_predicates_overlap_at_475 (status : Z) :
  (isRideActive status = true <-> 200 <= status < 500)
  /\ (isRideCompleted status = true <-> status = 500 \/ status = 475)
  /\ (isRideCanceled status = true <-> status = 109)
  /\ (isRideCanceled status = true ->
       isRideActive status = false /\ isRideCompleted status = false)
  /\ (isRideCompleted status = true /\ isRideActive status = true
      <-> status = 475)
  /\ (isRideCompleted status = true -> isRideActive status = false
      -> status = 500).
Proof.
  unfold isRideCanceled, isRideActive, isRideCompleted.
  split; [|split; [|split; [|split; [|split; [split|]]]]].
  - rewrite andb_true_iff, Z.leb_le, Z.ltb_lt. done.
  - rewrite orb_true_iff, !Z.eqb_eq. done.
  - apply Z.eqb_eq.
  - intros ->%Z.eqb_eq. done.
  - intros [Hc Ha]. apply orb_true_iff in Hc as [Hc|Hc];
      apply Z.eqb_eq in Hc as ->; done.
  - by intros ->.
  - intros Hc Ha. apply orb_true_iff in Hc as [Hc|Hc];
      apply Z.eqb_eq in Hc as ->; done.
Qed.

End EventFacts.

(** ** The event handlers of index.ts on the queue *)

Module HandlerFacts.

Import NotifyQueue Producers RideEvents DispatchBot Handlers EventsMore Issued.
Import DriverFacts IdFacts CancelFacts CountFacts.

Section Setup.

Variable cfg : QueueConfig.
Variable generateNotificationId : nat -> string.
Variable emergencyContactsOf : string -> option (list EmergencyContact).
Variable now : Z.

Local Abbreviation handlers :=
  (index_handlers cfg generateNotificationId emergencyContactsOf now).

(** The text of a notification is one of a list of texts. *)
Ltac table_text :=
  match goal with
  | |- message ?n ∈ ?l =>
      let m := eval vm_compute in (message n) in
      let l' := eval vm_compute in l in
      change (m ∈ l');
      repeat first [apply list_elem_of_here | apply list_elem_of_further]
  end.

(** X23.  A ride status that changes to 100, 200, 300, 400, 450, 475 or 500
    puts exactly one notification on the queue: a pending medium-priority
    sms to the rider, filed under the ride, with the next identifier; the
    rest of the queue is as before. *)
Theorem status_change_sends_one_update eid t rideRequest newStatus previousStatus
    (st : State World) :
  newStatus ∈ [100; 200; 300; 400; 450; 475; 500] ->
  let st' := snd (handleAutomaticRideStatusChange handlers eid t rideRequest
                    newStatus previousStatus st) in
  exists n,
    w_queue (world st') = w_queue (world st) ++ [n]
    /\ w_ids (world st') = S (w_ids (world st))
    /\ NotifyQueue.id n = generateNotificationId (w_ids (world st))
    /\ to_the_rider cfg now (rr_serviceUserUuid rideRequest)
         (pretty (uuid rideRequest)) n.
Proof.
  intros Hin.
  repeat (apply elem_of_cons in Hin as [->|Hin]);
    [..|by apply elem_of_nil in Hin];
    (eexists; split; [reflexivity|]; repeat split).
Qed.

(** X24.  Every notifying status but 500 sends a text of the table
    [statusMessages] (450 through [addRoundtripNotification], whose text is
    the table's text for roundtrip_returning); status 500 asks for the key
    completed, which the table does not have, and the rider gets the generic
    text. *)
Theorem only_ride_complete_gets_the_generic_text eid t rideRequest newStatus
    previousStatus (st : State World) :
  newStatus ∈ [100; 200; 300; 400; 450; 475; 500] ->
  let st' := snd (handleAutomaticRideStatusChange handlers eid t rideRequest
                    newStatus previousStatus st) in
  exists n,
    last (w_queue (world st')) = Some n
    /\ (newStatus <> 500 -> message n ∈ (snd <$> statusMessages))
    /\ (newStatus = 500 ->
        message n = "Your ride status has been updated: completed. "
        /\ message n ∉ (snd <$> statusMessages)).
Proof.
  intros Hin.
  repeat (apply elem_of_cons in Hin as [->|Hin]);
    [..|by apply elem_of_nil in Hin];
    (eexists; split; [apply last_snoc|]; split; [intros Hne|intros Heq]);
    try done; try discriminate Heq; try table_text.
  split; [reflexivity|].
  match goal with
  | |- message ?n ∉ ?l =>
      let m := eval vm_compute in (message n) in
      let l' := eval vm_compute in l in
      change (m ∉ l')
  end.
  intros Hm. repeat (apply elem_of_cons in Hm as [Hm|Hm]; [discriminate Hm|]).
  by apply elem_of_nil in Hm.
Qed.

(** X25.  The interruption statuses 209, 309, 409, 459, 479 and 509 store
    and emit their event, but no handler is registered for its type: the
    queue is untouched and nobody is told.  The same holds for every status
    the translator has no case for, which does not even create an event. *)
Theorem interruptions_reach_nobody eid t rideRequest newStatus previousStatus
    (st : State World) :
  newStatus ∉ [100; 109; 200; 300; 400; 450; 475; 500] ->
  let st' := snd (handleAutomaticRideStatusChange handlers eid t rideRequest
                    newStatus previousStatus st) in
  world st' = world st
  /\ (newStatus ∈ [209; 309; 409; 459; 479; 509] ->
      exists event,
        rideEvents st' = rideEvents st ++ [event]
        /\ emitted st' = emitted st ++ [(eventType event, event)]
        /\ handlers (eventType event) = []
        /\ rideRequestUuid event = uuid rideRequest).
Proof.
  intros Hout. unfold handleAutomaticRideStatusChange.
  repeat (case_match;
    [match goal with H : (_ =? _) = true |- _ => apply Z.eqb_eq in H as -> end;
     try (exfalso; apply Hout; set_solver);
     (split; [reflexivity|]; intros _; eexists; repeat split)|]).
  split; [reflexivity|]. intros Hin. exfalso.
  repeat (apply elem_of_cons in Hin as [->|Hin]; [done|]).
  by apply elem_of_nil in Hin.
Qed.

Lemma find_app f (c1 c2 : Collection) : find f (c1 ++ c2) = find f c1 ++ find f c2.
Proof. unfold find. induction c1 as [|d c1 IH]; simpl; [done|]. rewrite IH. by destruct (f d). Qed.

Lemma find_none f (c : Collection) :
  Forall (fun d => f d = false) c -> find f c = [].
Proof.
  unfold find. induction 1 as [|d c Hd _ IH]; simpl; [done|]. by rewrite Hd.
Qed.

(** What the REQUEST_CANCELED handler leaves behind. *)
Lemma on_REQUEST_CANCELED_queue event (w : World) :
  let key := pretty (rideRequestUuid event) in
  let w' := after (on_REQUEST_CANCELED cfg generateNotificationId now event w) in
  exists n,
    w_queue w' =
      ((fun d => if ride_open key d then set_status cancelled now d else d)
         <$> w_queue w) ++ [n]
    /\ to_the_rider cfg now (serviceUserUuid event) key n
    /\ message n = "Your ride has been cancelled. Please request a new ride if needed."
    /\ find (ride_open key) (w_queue w') = [n].
Proof.
  intros key w'. subst w'.
  unfold on_REQUEST_CANCELED, returned, enqueue, addStatusUpdateNotification,
    addNotification, ride_key.
  cbn [after w_queue w_ids snd]. fold key.
  rewrite cancelRideNotifications_eq. cbn [snd].
  eexists. split; [reflexivity|]. split; [by repeat split|]. split; [done|].
  rewrite find_app, (find_none _ _ (cancelled_is_not_open now key (w_queue w))).
  unfold find. simpl. unfold ride_open, has_status. simpl.
  by rewrite bool_decide_eq_true_2.
Qed.

(** The same, document by document. *)
Lemma on_REQUEST_CANCELED_pointwise event (w : World) :
  let key := pretty (rideRequestUuid event) in
  let open d :=
    NotifyQueue.rideRequestUuid (NotifyQueue.metadata d) = Some key
    /\ (status d = pending \/ status d = processing) in
  let before := w_queue w in
  let queued :=
    w_queue (after (on_REQUEST_CANCELED cfg generateNotificationId now event w)) in
  exists n,
    length queued = S (length before)
    /\ queued !! length before = Some n
    /\ to_the_rider cfg now (serviceUserUuid event) key n
    /\ message n = "Your ride has been cancelled. Please request a new ride if needed."
    /\ (forall k d, before !! k = Some d -> open d ->
          exists d', queued !! k = Some d'
            /\ status d' = cancelled /\ updatedAt d' = now
            /\ NotifyQueue.id d' = NotifyQueue.id d /\ type d' = type d
            /\ recipient d' = recipient d /\ message d' = message d
            /\ priority d' = priority d
            /\ scheduledTime d' = scheduledTime d
            /\ retryCount d' = retryCount d /\ maxRetries d' = maxRetries d
            /\ NotifyQueue.metadata d' = NotifyQueue.metadata d
            /\ NotifyQueue.createdAt d' = NotifyQueue.createdAt d)
    /\ (forall k d, before !! k = Some d -> ~ open d -> queued !! k = Some d)
    /\ (forall k d', queued !! k = Some d' -> open d' -> k = length before).
Proof.
  intros key open before queued.
  destruct (on_REQUEST_CANCELED_queue event w) as (n & Hq & Hn & Hm & _).
  fold key in Hq, Hn. fold queued in Hq. fold before in Hq.
  set (cancel := fun d => if ride_open key d then set_status cancelled now d
                          else d) in *.
  assert (Hlen : length (cancel <$> before) = length before)
    by apply length_fmap.
  assert (Hfront : forall k d, before !! k = Some d ->
                     queued !! k = Some (cancel d)).
  { intros k d Hk. rewrite Hq, lookup_app_l.
    - by rewrite list_lookup_fmap, Hk.
    - rewrite Hlen. by eapply lookup_lt_Some. }
  exists n. split; [by rewrite Hq, length_app, Hlen, Nat.add_1_r|].
  split; [rewrite Hq, lookup_app_r, Hlen, Nat.sub_diag by lia; done|].
  split; [done|]. split; [done|]. split; [|split].
  - intros k d Hk Ho. exists (set_status cancelled now d). split; [|done].
    rewrite (Hfront k d Hk). unfold cancel.
    by rewrite (proj2 (ride_open_spec key d) Ho).
  - intros k d Hk Ho. rewrite (Hfront k d Hk). unfold cancel.
    destruct (ride_open key d) eqn:Ho'; [|done].
    apply ride_open_spec in Ho'. done.
  - intros k d' Hk Ho.
    destruct (decide (k < length before)%nat) as [Hlt|Hge].
    + destruct (lookup_lt_is_Some_2 before k Hlt) as [d Hd].
      rewrite (Hfront k d Hd) in Hk. injection Hk as <-. unfold cancel in Ho.
      destruct (ride_open key d) eqn:Ho'.
      * destruct Ho as [_ [Hs|Hs]]; discriminate Hs.
      * apply ride_open_spec in Ho. congruence.
    + apply lookup_lt_Some in Hk. rewrite Hq, length_app, Hlen in Hk.
      cbn in Hk. lia.
Qed.

(** X26.  A cancellation, whether it comes from ride status 109 or from one
    of the workflow codes 109, 409, 599, 699 and 799, sets every
    notification whose [metadata.rideRequestUuid] is the ride and whose
    status is pending or processing to cancelled (with [updatedAt = now] and
    every other field kept), leaves every other document -- the closed ones
    of the ride and those of other rides -- as it was, and then appends the
    notice of the cancellation: the queue grows by this one document, and
    afterwards the notice is the only pending or processing notification of
    the ride. *)
Theorem cancellation_leaves_one_open_notification eid t rideRequest newStatus
    previousStatus (st st' : State World) :
  (newStatus = 109
   /\ st' = snd (handleAutomaticRideStatusChange handlers eid t rideRequest
                   newStatus previousStatus st))
  \/ (newStatus ∈ [109; 409; 599; 699; 799]
      /\ st' = snd (handleAutomaticRideRequestStatusChange handlers eid t
                      rideRequest newStatus previousStatus st)) ->
  let key := pretty (uuid rideRequest) in
  let open d :=
    NotifyQueue.rideRequestUuid (NotifyQueue.metadata d) = Some key
    /\ (status d = pending \/ status d = processing) in
  let before := w_queue (world st) in
  let queued := w_queue (world st') in
  exists n,
    length queued = S (length before)
    /\ queued !! length before = Some n
    /\ to_the_rider cfg now (rr_serviceUserUuid rideRequest) key n
    /\ message n = "Your ride has been cancelled. Please request a new ride if needed."
    /\ (forall k d, before !! k = Some d -> open d ->
          exists d', queued !! k = Some d'
            /\ status d' = cancelled /\ updatedAt d' = now
            /\ NotifyQueue.id d' = NotifyQueue.id d /\ type d' = type d
            /\ recipient d' = recipient d /\ message d' = message d
            /\ priority d' = priority d
            /\ scheduledTime d' = scheduledTime d
            /\ retryCount d' = retryCount d /\ maxRetries d' = maxRetries d
            /\ NotifyQueue.metadata d' = NotifyQueue.metadata d
            /\ NotifyQueue.createdAt d' = NotifyQueue.createdAt d)
    /\ (forall k d, before !! k = Some d -> ~ open d -> queued !! k = Some d)
    /\ (forall k d', queued !! k = Some d' -> open d' -> k = length before).
Proof.
  intros [[-> ->]|[Hin ->]].
  - exact (on_REQUEST_CANCELED_pointwise _ (world st)).
  - repeat (apply elem_of_cons in Hin as [->|Hin]);
      [..|by apply elem_of_nil in Hin];
      exact (on_REQUEST_CANCELED_pointwise _ (world st)).
Qed.

(** X27.  [vehicleAssigned] builds its event without a [driverUuid], and the
    VEHICLE_ASSIGNED handler only notifies under [if (event.driverUuid)]:
    assigning a vehicle never enqueues anything. *)
Theorem vehicle_assignment_notifies_nobody eid t rideUuid user vehicle
    (st : State World) :
  let st' := snd (vehicleAssigned handlers eid t rideUuid user vehicle st) in
  world st' = world st
  /\ exists event,
       emitted st' = emitted st ++ [(VEHICLE_ASSIGNED, event)]
       /\ vehicleUuid event = Some (Num vehicle)
       /\ length (handlers VEHICLE_ASSIGNED) = 1%nat.
Proof. split; [reflexivity|]. eexists. by repeat split. Qed.

(** X28.  Assigning a driver tells the rider, and after the rider the
    driver, who is addressed by the decimal text of the driver number and
    with high priority; a driver number 0 is falsy and only the rider is
    told. *)
Theorem driver_assignment_notifies_rider_then_driver eid t rideUuid user driver
    (st : State World) :
  let st' := snd (driverAssigned handlers eid t rideUuid user driver st) in
  exists n,
    to_the_rider cfg now user (pretty rideUuid) n
    /\ message n = "Great news! A driver has been assigned to your ride."
    /\ (driver = 0 -> w_queue (world st') = w_queue (world st) ++ [n])
    /\ (driver <> 0 ->
        exists m,
          w_queue (world st') = w_queue (world st) ++ [n; m]
          /\ recipient m = pretty driver /\ priority m = high
          /\ status m = pending /\ type m = sms
          /\ NotifyQueue.rideRequestUuid (NotifyQueue.metadata m)
             = Some (pretty rideUuid)
          /\ NotifyQueue.id n = generateNotificationId (w_ids (world st))
          /\ NotifyQueue.id m = generateNotificationId (S (w_ids (world st)))).
Proof.
  cbn zeta. unfold driverAssigned, publish, StateM.bind, storeEvent, emit.
  cbn [snd fst world rideEvents emitted].
  change (handlers DRIVER_ASSIGNED)
    with [on_DRIVER_ASSIGNED cfg generateNotificationId now].
  cbn [foldl]. unfold on_DRIVER_ASSIGNED, driver_of. cbn [driverUuid].
  unfold returned, enqueue, addStatusUpdateNotification, addDriverNotification,
    addNotification.
  destruct (Z.eqb_spec driver 0) as [Hd|Hd]; cbn [after w_queue w_ids snd].
  - eexists. split; [|split; [|split]]; cycle 2.
    + intros _. reflexivity.
    + done.
    + by repeat split.
    + reflexivity.
  - eexists. split; [|split; [|split]]; cycle 3.
    + intros _. eexists. split; [by rewrite <-app_assoc|]. by repeat split.
    + by repeat split.
    + reflexivity.
    + done.
Qed.

(** The identifiers a handler adds: it draws the next ones, in order, and
    leaves those of the queue as they are. *)
Lemma enqueue_ids add (w : World) :
  (forall i c, exists d, snd (add i c) = c ++ [d] /\ NotifyQueue.id d = i) ->
  w_ids (enqueue generateNotificationId add w) = S (w_ids w)
  /\ NotifyQueue.id <$> w_queue (enqueue generateNotificationId add w)
     = (NotifyQueue.id <$> w_queue w) ++ [generateNotificationId (w_ids w)].
Proof.
  intros Hadd. unfold enqueue. cbn [w_ids w_queue]. split; [done|].
  destruct (Hadd (generateNotificationId (w_ids w)) (w_queue w)) as (d & -> & Hd).
  by rewrite fmap_app, fmap_cons, Hd.
Qed.

Lemma addNotification_appends t input i (c : Collection) :
  exists d, snd (addNotification t i input c) = c ++ [d] /\ NotifyQueue.id d = i.
Proof. by eexists. Qed.

Lemma handler_ids ty event (w : World) :
  let w' := foldl (fun w handler => after (handler event w)) w (handlers ty) in
  exists m,
    (m <= 2)%nat
    /\ w_ids w' = (w_ids w + m)%nat
    /\ NotifyQueue.id <$> w_queue w'
       = (NotifyQueue.id <$> w_queue w)
         ++ (generateNotificationId <$> seq (w_ids w) m).
Proof.
  assert (forall w1 : World, exists m,
    (m <= 2)%nat
    /\ w_ids w1 = (w_ids w1 + m)%nat
    /\ NotifyQueue.id <$> w_queue w1
       = (NotifyQueue.id <$> w_queue w1)
         ++ (generateNotificationId <$> seq (w_ids w1) m)) as Hzero.
  { intros w1. exists 0%nat. split; [lia|]. split; [lia|]. by rewrite app_nil_r. }
  assert (forall add (w1 : World),
    (forall i c, exists d, snd (add i c) = c ++ [d] /\ NotifyQueue.id d = i) ->
    exists m,
      (m <= 2)%nat
      /\ w_ids (enqueue generateNotificationId add w1) = (w_ids w1 + m)%nat
      /\ NotifyQueue.id <$> w_queue (enqueue generateNotificationId add w1)
         = (NotifyQueue.id <$> w_queue w1)
           ++ (generateNotificationId <$> seq (w_ids w1) m)) as Hone.
  { intros add w1 Hadd. exists 1%nat.
    destruct (enqueue_ids add w1 Hadd) as [-> ->]. split; [lia|]. split; [lia|done]. }
  assert (forall add1 add2 (w1 : World),
    (forall i c, exists d, snd (add1 i c) = c ++ [d] /\ NotifyQueue.id d = i) ->
    (forall i c, exists d, snd (add2 i c) = c ++ [d] /\ NotifyQueue.id d = i) ->
    exists m,
      (m <= 2)%nat
      /\ w_ids (enqueue generateNotificationId add2
               (enqueue generateNotificationId add1 w1)) = (w_ids w1 + m)%nat
      /\ NotifyQueue.id <$> w_queue (enqueue generateNotificationId add2
                                       (enqueue generateNotificationId add1 w1))
         = (NotifyQueue.id <$> w_queue w1)
           ++ (generateNotificationId <$> seq (w_ids w1) m)) as Htwo.
  { intros add1 add2 w1 Hadd1 Hadd2. exists 2%nat.
    destruct (enqueue_ids add2 (enqueue generateNotificationId add1 w1) Hadd2)
      as [-> ->].
    destruct (enqueue_ids add1 w1 Hadd1) as [-> ->].
    split; [lia|]. split; [lia|]. by rewrite <-app_assoc. }
  destruct ty; cbn [foldl];
    try (change (handlers _) with (@nil (Handler World))); cbn [foldl];
    try apply Hzero.
  all: try (apply Hone; intros; apply addNotification_appends).
  - (* REQUEST_CANCELED *)
    change (handlers REQUEST_CANCELED)
      with [on_REQUEST_CANCELED cfg generateNotificationId now].
    cbn [foldl]. unfold on_REQUEST_CANCELED, returned. cbn [after].
    match goal with
    | |- context [enqueue _ ?add ?w1] =>
        destruct (Hone add w1) as (m & Hm & Hk & Hq);
          [intros; apply addNotification_appends|]
    end.
    exists m. rewrite Hk, Hq. cbn [w_ids w_queue]. split; [done|]. split; [done|].
    unfold ride_key.
    by rewrite (proj2 (proj2 (proj2 (proj2
      (updates_keep_ids cfg now "" "" (pretty (rideRequestUuid event)) (w_queue w)))))).
  - (* DRIVER_ASSIGNED *)
    change (handlers DRIVER_ASSIGNED)
      with [on_DRIVER_ASSIGNED cfg generateNotificationId now].
    cbn [foldl]. unfold on_DRIVER_ASSIGNED.
    destruct (driver_of event); cbn [after returned].
    + apply Htwo; intros; apply addNotification_appends.
    + apply Hone; intros; apply addNotification_appends.
  - (* VEHICLE_ASSIGNED *)
    change (handlers VEHICLE_ASSIGNED)
      with [on_VEHICLE_ASSIGNED cfg generateNotificationId now].
    cbn [foldl]. unfold on_VEHICLE_ASSIGNED.
    destruct (driver_of event); cbn [after returned].
    + apply Hone; intros; apply addNotification_appends.
    + apply Hzero.
  - (* EMERGENCY_ALERT *)
    change (handlers EMERGENCY_ALERT)
      with [on_EMERGENCY_ALERT cfg generateNotificationId emergencyContactsOf now].
    cbn [foldl]. unfold on_EMERGENCY_ALERT. cbn zeta.
    destruct (emergencyContactsOf (serviceUserUuid event)) as [[|first rest]|];
      cbn [after returned].
    + apply Hone; intros; apply addNotification_appends.
    + apply Htwo; intros; apply addNotification_appends.
    + apply Hone; intros; apply addNotification_appends.
Qed.

(** X29.  Handling an event keeps the identifiers of the queue unique, as
    long as [generateNotificationId] never returns the same identifier
    twice: whatever the type of the event, the handlers registered for it
    add between them at most the next two identifiers and rename nothing. *)
Theorem events_keep_ids_unique ty event (st : State World) :
  Inj (=) (=) generateNotificationId ->
  NoDup (NotifyQueue.id <$> w_queue (world st)) ->
  ids_issued generateNotificationId (world st) ->
  let st' := snd (emit handlers ty event st) in
  NoDup (NotifyQueue.id <$> w_queue (world st'))
  /\ ids_issued generateNotificationId (world st')
  /\ (length (w_queue (world st)) <= length (w_queue (world st'))
                                 <= length (w_queue (world st)) + 2)%nat.
Proof.
  intros Hinj Hnd Hissued st'. subst st'. unfold emit. cbn [snd world].
  destruct (handler_ids ty event (world st)) as (m & Hm & Hk & Hq).
  set (w' := foldl _ _ _) in *.
  assert (Forall (fun i => exists k, (k < w_ids w')%nat /\ i = generateNotificationId k)
            (NotifyQueue.id <$> w_queue w')) as Hall.
  { rewrite Hq, Hk. apply Forall_app. split.
    - apply Forall_fmap. eapply Forall_impl; [exact Hissued|].
      intros d (k & Hlt & Hd). exists k. split; [lia|done].
    - apply Forall_fmap, Forall_forall. intros k Hin.
      apply elem_of_seq in Hin. exists k. split; [lia|done]. }
  split; [|split].
  - rewrite Hq. apply NoDup_app. split; [done|]. split.
    + intros i Hi Hi'.
      apply list_elem_of_fmap in Hi as (d & -> & Hd).
      apply list_elem_of_fmap in Hi' as (k & Hk' & Hin).
      apply elem_of_seq in Hin.
      apply (proj1 (Forall_forall _ _) Hissued) in Hd as (j & Hj & Hd).
      rewrite Hd in Hk'. apply Hinj in Hk'. lia.
    + apply (NoDup_fmap_2 _), NoDup_seq.
  - unfold ids_issued. apply Forall_forall. intros d Hd.
    apply (proj1 (Forall_forall _ _) Hall), list_elem_of_fmap. by exists d.
  - assert (length (w_queue w') = (length (w_queue (world st)) + m)%nat) as ->.
    { rewrite <-(length_fmap NotifyQueue.id (w_queue w')), Hq, length_app,
        !length_fmap, length_seq. done. }
    lia.
Qed.

(** X30.  An emergency alert enqueues an urgent sms to the rider and, when
    the rider has emergency contacts, a second one to a contact.  Both are
    enqueued without a [rideRequestUuid]: cancelling the ride for which the
    alert was raised never cancels them, and the statistics of that ride do
    not count them. *)
Theorem emergency_alert_is_not_filed_under_the_ride eid t rideUuid user text
    (st : State World) :
  let st' := snd (emergencyAlert handlers eid t rideUuid user text st) in
  exists news,
    w_queue (world st') = w_queue (world st) ++ news
    /\ (length news = 2%nat
        <-> exists first rest, emergencyContactsOf user = Some (first :: rest))
    /\ (length news = 1%nat \/ length news = 2%nat)
    /\ Forall (fun n =>
          priority n = urgent /\ status n = pending /\ type n = sms
          /\ NotifyQueue.rideRequestUuid (NotifyQueue.metadata n) = None) news
    /\ (exists n, head news = Some n /\ recipient n = user
        /\ message n
           = if decide (text = "") then "Emergency situation detected" else text)
    /\ forall t2 key,
         snd (cancelRideNotifications t2 key (w_queue (world st')))
         = snd (cancelRideNotifications t2 key (w_queue (world st))) ++ news
         /\ QueueMore.getRideNotificationStats key (w_queue (world st'))
            = QueueMore.getRideNotificationStats key (w_queue (world st)).
Proof.
  cbn zeta. unfold emergencyAlert, publish, StateM.bind, storeEvent, emit.
  cbn [snd fst world rideEvents emitted].
  change (handlers EMERGENCY_ALERT)
    with [on_EMERGENCY_ALERT cfg generateNotificationId emergencyContactsOf now].
  cbn [foldl]. unfold on_EMERGENCY_ALERT. cbn zeta. cbn [serviceUserUuid metadata].
  unfold returned, enqueue, addEmergencyNotification, addNotification.
  assert (assoc "message" [("message", text)] = Some text) as -> by done.
  assert (forall (c news : Collection),
    Forall (fun n => NotifyQueue.rideRequestUuid (NotifyQueue.metadata n) = None)
      news ->
    forall t2 key,
      snd (cancelRideNotifications t2 key (c ++ news))
      = snd (cancelRideNotifications t2 key c) ++ news
      /\ QueueMore.getRideNotificationStats key (c ++ news)
         = QueueMore.getRideNotificationStats key c) as Houtside.
  { intros c news Hnone t2 key. split.
    - rewrite !cancelRideNotifications_eq. cbn [snd]. rewrite fmap_app. f_equal.
      apply map_if_no_match. eapply Forall_impl; [exact Hnone|].
      intros n Hn. unfold ride_open. rewrite Hn. by rewrite bool_decide_eq_false_2.
    - unfold QueueMore.getRideNotificationStats. rewrite find_app.
      rewrite (find_none _ news), app_nil_r; [done|].
      eapply Forall_impl; [exact Hnone|].
      intros n Hn. unfold QueueMore.of_ride. rewrite Hn.
      by rewrite bool_decide_eq_false_2. }
  destruct (emergencyContactsOf user) as [[|first rest]|] eqn:Hc;
    cbn [after w_queue w_ids snd].
  - eexists. split; [reflexivity|]. split.
    { split; [discriminate|]. intros (? & ? & ?). discriminate. }
    split; [by left|]. split; [by repeat constructor|].
    split; [by eexists|]. intros t2 key. apply Houtside. by repeat constructor.
  - eexists. split; [by rewrite <-app_assoc|]. split.
    { split; [by eexists _, _|done]. }
    split; [by right|]. split; [by repeat constructor|].
    split; [by eexists|]. intros t2 key. rewrite <-app_assoc.
    apply Houtside. by repeat constructor.
  - eexists. split; [reflexivity|]. split.
    { split; [discriminate|]. intros (? & ? & ?). discriminate. }
    split; [by left|]. split; [by repeat constructor|].
    split; [by eexists|]. intros t2 key. apply Houtside. by repeat constructor.
Qed.

End Setup.

End HandlerFacts.

(** ** The theorems above on the sample data *)

Module Instances.

Import NotifyQueue QueueMore TickMore RideEvents EventsMore DispatchBot.
Import Producers Handlers Issued Scenes.

Lemma sample_queue_unique_ids : NoDup (NotifyQueue.id <$> Samples.two_pending).
Proof. apply (bool_decide_unpack _). by vm_compute. Defined.

Lemma sample_delays_positive :
  Forall (fun delay => 0 <= delay) (retryDelays defaultConfig).
Proof. repeat (constructor; [lia|]). constructor. Defined.

Lemma failed_item_waits_for_its_delay_witness :
  NoDup (NotifyQueue.id <$> Samples.two_pending)
  /\ exists x,
       x ∈ getPendingNotifications 0 1100
             (snd (markNotificationFailed defaultConfig 100 "n1"
                     "SMS sending failed" Samples.two_pending))
       /\ NotifyQueue.id x = "n1" /\ status x = pending
       /\ retryCount x = 1%nat.
Proof.
  split; [exact sample_queue_unique_ids|].
  exact (proj2 (proj2 (RetryFacts.failed_item_waits_for_its_delay
    defaultConfig 100 "n1" "SMS sending failed" Samples.two_pending
    Samples.first_pending sample_queue_unique_ids
    (list_elem_of_here _ _) eq_refl ltac:(cbn; lia) sample_delays_positive))
    1100 ltac:(by vm_compute)).
Defined.

Lemma exhausted_item_is_never_listed_witness :
  exists x,
    x ∈ snd (markNotificationFailed no_retries 100 "n1"
               "SMS sending failed" Samples.two_pending)
    /\ NotifyQueue.id x = "n1" /\ status x = failed /\ retryCount x = 1%nat.
Proof.
  exact (proj1 (RetryFacts.exhausted_item_is_never_listed
    no_retries 100 "n1" "SMS sending failed" Samples.two_pending
    Samples.first_pending sample_queue_unique_ids
    (list_elem_of_here _ _) eq_refl ltac:(cbn; lia))).
Defined.

Lemma sample_queue_has_no_n9 :
  forall d, d ∈ Samples.two_pending -> NotifyQueue.id d <> "n9".
Proof.
  intros d Hd.
  apply elem_of_cons in Hd as [->|Hd]; [by vm_compute|].
  apply elem_of_cons in Hd as [->|Hd]; [by vm_compute|].
  by apply not_elem_of_nil in Hd.
Defined.

Lemma unknown_id_is_a_no_op_witness :
  markNotificationProcessing 5 "n9" Samples.two_pending
    = (false, Samples.two_pending)
  /\ markNotificationSent 5 "n9" Samples.two_pending
     = (false, Samples.two_pending)
  /\ cancelNotification 5 "n9" Samples.two_pending
     = (false, Samples.two_pending).
Proof.
  exact (RetryFacts.unknown_id_is_a_no_op 5 "n9" Samples.two_pending
           sample_queue_has_no_n9).
Defined.

Lemma later_calls_spare_n1 :
  Forall (fun call => ~ reopens "n1" call) later_calls.
Proof. repeat (constructor; [by intros ?|]). constructor. Defined.

Lemma closed_item_is_out_witness :
  markNotificationProcessing 70 "n1"
    (run_calls later_calls
       (snd (markNotificationSent 10 "n1" Samples.two_pending)))
  = (false,
     run_calls later_calls
       (snd (markNotificationSent 10 "n1" Samples.two_pending))).
Proof.
  exact (proj1 (RetryFacts.closed_item_is_out 10 "n1" Samples.two_pending
    (snd (markNotificationSent 10 "n1" Samples.two_pending))
    Samples.first_pending later_calls sample_queue_unique_ids
    (list_elem_of_here _ _) eq_refl (or_introl eq_refl)
    later_calls_spare_n1) 70).
Defined.

Lemma retry_delay_bounds_witness :
  0 < retryDelay_at defaultConfig 4
  /\ retryDelay_at defaultConfig 4 = 60000
  /\ retryDelay_at defaultConfig 4 <= retryDelay_at defaultConfig 5.
Proof.
  pose proof (RetryFacts.retry_delay_bounds defaultConfig 4 5) as (H1 & H2 & H3).
  split; [exact (H1 sample_delays_positive)|].
  split; [exact (H2 ltac:(cbn; lia))|].
  exact (proj1 (proj2 (H3 ltac:(lia)))).
Defined.


Lemma advancing_after_100 : forall k, 100 <= at_test (advancing k).
Proof. intros k. cbn. lia. Defined.

Lemma tick_attempts_young_sms_only_witness :
  smsAttempts (snd (processNotificationQueue_at always_delivers defaultConfig
                      100 advancing busy))
  = Samples.two_pending
  /\ 100 - NotifyQueue.createdAt Samples.second_pending <= 30000.
Proof.
  split.
  - exact (proj1 (proj2
      (TickGeneral.tick_attempts_young_sms_only always_delivers defaultConfig
         100 advancing Samples.two_pending busy))).
  - apply (proj1 (proj2 (proj2 (proj2 (proj2
      (TickGeneral.tick_attempts_young_sms_only always_delivers defaultConfig
         100 advancing Samples.two_pending busy)))))).
    + exact advancing_after_100.
    + apply (bool_decide_unpack _). by vm_compute.
Defined.

Lemma tick_on_settled_queue_is_a_no_op_witness :
  snd (processNotificationQueue_at always_delivers defaultConfig 100 advancing
         settled)
  = settled.
Proof.
  apply (TickGeneral.tick_on_settled_queue_is_a_no_op always_delivers
           defaultConfig 100 advancing settled).
  repeat constructor; discriminate.
Defined.

Lemma tick_outcome_by_item_witness :
  tick_outcome always_delivers defaultConfig (advancing 0) Samples.first_pending
  ∈ queue (snd (processNotificationQueue_at always_delivers defaultConfig 100
                  advancing busy)).
Proof.
  apply (proj1 (proj1 (proj2 (TickOutcome.tick_outcome_by_item always_delivers
           defaultConfig 100 advancing [] busy sample_queue_unique_ids)))
           0%nat Samples.first_pending).
  reflexivity.
Defined.

Lemma progress_translator_acts_on_described_codes_witness :
  exists event,
    emitted (snd (handleAutomaticRideStatusChange initializeEventHandlers
                    "evt-1" 1000 ride_42 300 200 quiet))
    = [(eventType event, event)]
    /\ rideRequestUuid event = 42.
Proof.
  destruct (proj1 (proj2 (EventFacts.progress_translator_acts_on_described_codes
    initializeEventHandlers "evt-1" 1000 ride_42 300 200 quiet)))
    as (event & Hlog & _ & _ & _ & Hride & _).
  - apply (bool_decide_unpack _). by vm_compute.
  - exists event. split; [exact Hlog|exact Hride].
Defined.

Lemma workflow_translator_only_cancels_witness :
  snd (handleAutomaticRideRequestStatusChange initializeEventHandlers
         "evt-1" 1000 ride_42 500 400 quiet) = quiet.
Proof.
  apply (proj2 (EventFacts.workflow_translator_only_cancels
    initializeEventHandlers "evt-1" 1000 ride_42 500 400 quiet)).
  apply (bool_decide_unpack _). by vm_compute.
Defined.

Lemma on_appends_to_its_type_witness :
  snd (emit (on RIDE_COMPLETE idle initializeEventHandlers) RIDE_STARTED
         start_of_42 quiet)
  = snd (emit initializeEventHandlers RIDE_STARTED start_of_42 quiet).
Proof.
  apply (proj1 (proj2 (proj2 (EventFacts.on_appends_to_its_type
    initializeEventHandlers RIDE_COMPLETE RIDE_STARTED idle start_of_42 quiet)))).
  discriminate.
Defined.

Lemma translated_event_is_in_the_history_witness :
  (exists event,
     event ∈ getRideEvents 42
               (rideEvents (snd (handleAutomaticRideStatusChange
                  initializeEventHandlers "evt-1" 1000 ride_42 300 200 quiet)))
     /\ RideEvents.id event = "evt-1" /\ timestamp event = 1000)
  /\ getRideEvents 7
       (rideEvents (snd (handleAutomaticRideStatusChange
          initializeEventHandlers "evt-1" 1000 ride_42 300 200 quiet)))
     = getRideEvents 7 (rideEvents quiet).
Proof.
  pose proof (EventFacts.translated_event_is_in_the_history
    initializeEventHandlers "evt-1" 1000 ride_42 300 200 quiet 7) as [H1 H2].
  split.
  - apply H1. apply (bool_decide_unpack _). by vm_compute.
  - apply H2. discriminate.
Defined.

Lemma status_predicates_overlap_at_475_witness :
  (isRideCompleted 475 = true /\ isRideActive 475 = true)
  /\ isRideActive 200 = true.
Proof.
  split.
  - exact (proj2 (proj1 (proj2 (proj2 (proj2 (proj2
      (EventFacts.status_predicates_overlap_at_475 475)))))) eq_refl).
  - apply (proj2 (proj1 (EventFacts.status_predicates_overlap_at_475 200))).
    lia.
Defined.

Lemma status_change_sends_one_update_witness :
  exists n,
    w_queue (world (snd (handleAutomaticRideStatusChange
      (index_handlers defaultConfig numbered no_contacts 2000)
      "evt-1" 1000 ride_42 300 200 started))) = [n]
    /\ NotifyQueue.id n = numbered 0
    /\ recipient n = "user-1".
Proof.
  destruct (HandlerFacts.status_change_sends_one_update defaultConfig numbered
    no_contacts 2000 "evt-1" 1000 ride_42 300 200 started)
    as (n & Hq & _ & Hid & Hn).
  - apply (bool_decide_unpack _). by vm_compute.
  - exists n. split; [exact Hq|]. split; [exact Hid|].
    exact (proj1 (proj2 (proj2 (proj2 Hn)))).
Defined.

Lemma only_ride_complete_gets_the_generic_text_witness :
  exists n,
    last (w_queue (world (snd (handleAutomaticRideStatusChange
      (index_handlers defaultConfig numbered no_contacts 2000)
      "evt-1" 1000 ride_42 500 475 started)))) = Some n
    /\ message n = "Your ride status has been updated: completed. ".
Proof.
  destruct (HandlerFacts.only_ride_complete_gets_the_generic_text defaultConfig
    numbered no_contacts 2000 "evt-1" 1000 ride_42 500 475 started)
    as (n & Hlast & _ & Htext).
  - apply (bool_decide_unpack _). by vm_compute.
  - exists n. split; [exact Hlast|]. exact (proj1 (Htext eq_refl)).
Defined.

Lemma interruptions_reach_nobody_witness :
  world (snd (handleAutomaticRideStatusChange
    (index_handlers defaultConfig numbered no_contacts 2000)
    "evt-1" 1000 ride_42 209 200 started)) = world started.
Proof.
  apply (HandlerFacts.interruptions_reach_nobody defaultConfig numbered
    no_contacts 2000 "evt-1" 1000 ride_42 209 200 started).
  apply (bool_decide_unpack _). by vm_compute.
Defined.

Lemma cancellation_leaves_one_open_notification_witness :
  exists d',
    w_queue (world (snd (handleAutomaticRideRequestStatusChange
      (index_handlers defaultConfig numbered no_contacts 2000)
      "evt-1" 1000 ride_42 599 500 riding))) !! 1%nat = Some d'
    /\ status d' = cancelled /\ NotifyQueue.id d' = "r2".
Proof.
  destruct (HandlerFacts.cancellation_leaves_one_open_notification
    defaultConfig numbered no_contacts 2000 "evt-1" 1000 ride_42 599 500
    riding
    (snd (handleAutomaticRideRequestStatusChange
       (index_handlers defaultConfig numbered no_contacts 2000)
       "evt-1" 1000 ride_42 599 500 riding)))
    as (n & _ & _ & _ & _ & Hcancelled & _).
  - right. split; [|reflexivity]. apply (bool_decide_unpack _). by vm_compute.
  - destruct (Hcancelled 1%nat
      (Samples.item "r2" high processing absent (Samples.ride_metadata "42") 1))
      as (d' & Hd' & Hs & _ & Hid & _).
    + reflexivity.
    + split; [by vm_compute|by right].
    + exists d'. split; [exact Hd'|]. split; [exact Hs|exact Hid].
Defined.

Lemma driver_assignment_notifies_rider_then_driver_witness :
  exists n m,
    w_queue (world (snd (driverAssigned
      (index_handlers defaultConfig numbered no_contacts 2000)
      "evt-1" 1000 42 "user-1" 7 started))) = [n; m]
    /\ recipient m = pretty 7 /\ priority m = high.
Proof.
  destruct (HandlerFacts.driver_assignment_notifies_rider_then_driver
    defaultConfig numbered no_contacts 2000 "evt-1" 1000 42 "user-1" 7 started)
    as (n & _ & _ & _ & Hboth).
  destruct (Hboth ltac:(discriminate)) as (m & Hq & Hto & Hprio & _).
  exists n, m. split; [exact Hq|]. split; [exact Hto|exact Hprio].
Defined.

Lemma events_keep_ids_unique_witness :
  NoDup (NotifyQueue.id <$>
           w_queue (world (snd (emit
             (index_handlers defaultConfig numbered no_contacts 2000)
             RIDE_STARTED start_of_42 started)))).
Proof.
  apply (HandlerFacts.events_keep_ids_unique defaultConfig numbered no_contacts
           2000 RIDE_STARTED start_of_42 started).
  - unfold numbered. apply _.
  - apply NoDup_nil_2.
  - apply Forall_nil_2.
Defined.


Lemma getRideEvents_is_the_history_of_the_ride_witness :
  start_of_42 ∈ getRideEvents 42 [start_of_42].
Proof.
  apply (proj1 (EventFacts.getRideEvents_is_the_history_of_the_ride
                  42 [start_of_42]) start_of_42).
  split; [apply list_elem_of_here|reflexivity].
Defined.

Lemma emergency_alert_is_not_filed_under_the_ride_witness :
  exists news,
    w_queue (world (snd (emergencyAlert
      (index_handlers defaultConfig numbered one_contact 2000)
      "evt-2" 1500 42 "user-1" "I need help" started))) = [] ++ news
    /\ length news = 2%nat.
Proof.
  destruct (HandlerFacts.emergency_alert_is_not_filed_under_the_ride
    defaultConfig numbered one_contact 2000 "evt-2" 1500 42 "user-1"
    "I need help" started) as (news & Hq & Hboth & _).
  exists news. split; [exact Hq|]. apply Hboth. by eexists _, _.
Defined.

End Instances.
